(** * STEM helper backend: request validation, prompt templating, response relay

    A shallow embedding of the Express server of the repository (the
    listing in [README.md] and the [/api/character] handler of its
    near-duplicate [server.js]) together with the properties of its
    three endpoints [/api/character], [/api/story] and [/api/ask].

    JavaScript values that travel through the handlers are JSON values;
    strings are byte strings (UTF-8); JSON numbers are rationals. The
    process-wide [openai] handle, the response object [res] and the
    exceptions of the handlers are threaded through a small state and
    error monad.  The hosted model (the gateway) and the ECMAScript
    built-ins that the code calls but does not define ([JSON.parse], the
    rendering of numbers other than integers of at most 2^53) are
    parameters of the handlers, and so are the [RateLimit] headers of the
    rate limiter, whose reset value is read off the clock. *)

From Stdlib Require Import String Ascii List ZArith QArith Bool Lia DecimalString.
Import ListNotations.
Local Open Scope string_scope.
Local Open Scope Z_scope.

Set Implicit Arguments.
Local Set Warnings "-register-all".

(** ** JavaScript values *)

Module JS.

(** A JSON value.  Objects keep their keys in insertion order, as
    [JSON.parse] and object literals do, so they are association lists. *)
Inductive json : Type :=
| JNull
| JBool (b : bool)
| JNum (q : Q)
| JStr (s : string)
| JArr (items : list json)
| JObj (fields : list (string * json)).

(** [obj[key]]: [None] is JavaScript's [undefined]. *)
Fixpoint lookup (key : string) (fields : list (string * json)) : option json :=
  match fields with
  | [] => None
  | (k, v) :: rest => if String.eqb k key then Some v else lookup key rest
  end.

Definition get (key : string) (v : json) : option json :=
  match v with
  | JObj fields => lookup key fields
  | _ => None
  end.

Definition keys (fields : list (string * json)) : list string := map fst fields.

(** Numbers. *)
Definition is_integer (q : Q) : bool := (Qnum q mod Zpos (Qden q) =? 0).
Definition floor (q : Q) : Z := Qnum q / Zpos (Qden q).
Definition Qzero (q : Q) : bool := (Qnum q =? 0).

(** Truthiness, as tested by [if (!x)]. ([NaN] is not a JSON number.) *)
Definition truthy (v : json) : bool :=
  match v with
  | JNull => false
  | JBool b => b
  | JNum q => negb (Qzero q)
  | JStr s => negb (String.eqb s EmptyString)
  | JArr _ => true
  | JObj _ => true
  end.

Definition truthy_opt (v : option json) : bool :=
  match v with
  | None => false
  | Some j => truthy j
  end.

Definition quote : string := String "034"%char EmptyString.
Definition backslash : string := String "092"%char EmptyString.
Definition newline : string := String "010"%char EmptyString.

Definition string_of_Z (z : Z) : string := NilZero.string_of_int (Z.to_int z).

(** [Array.prototype.join] on already converted elements. *)
Fixpoint join (sep : string) (parts : list string) : string :=
  match parts with
  | [] => EmptyString
  | [p] => p
  | p :: rest => p ++ sep ++ join sep rest
  end.

Section Conversions.

(** [Number::toString] for a number that is not an integer of at most
    [2^53] in magnitude: the shortest digits that read back as the same
    double, in positional or exponent form. *)
Variable number_repr : Q -> string.

(** JSON numbers are doubles.  An integer of at most [2^53] in magnitude
    prints with all its digits; beyond that the digits printed are the
    shortest that round-trip (2^64 prints as 18446744073709552000), which
    is left to [number_repr]. *)
Definition Number_toString (q : Q) : string :=
  if is_integer q && (Z.abs (floor q) <=? 2 ^ 53)
  then string_of_Z (floor q)
  else number_repr q.

(** All the parts, or nothing if one of them is missing. *)
Fixpoint all_of (parts : list (option string)) : option (list string) :=
  match parts with
  | [] => Some []
  | None :: _ => None
  | Some p :: rest =>
      match all_of rest with
      | Some ps => Some (p :: ps)
      | None => None
      end
  end.

(** [String(v)], the conversion that template literals, [join] and
    [JSON.parse] apply to their argument; [None] stands for the
    [TypeError] "Cannot convert object to primitive value".  A plain
    object converts through [Object.prototype.toString], unless it has a
    member of its own called [toString]: a JSON value is not callable,
    and [Object.prototype.valueOf] returns the object itself, so the
    conversion throws.  An array converts through [join], which converts
    its elements in turn. *)
Fixpoint ToString (v : json) : option string :=
  match v with
  | JNull => Some "null"
  | JBool true => Some "true"
  | JBool false => Some "false"
  | JNum q => Some (Number_toString q)
  | JStr s => Some s
  | JArr items =>
      match all_of (map (fun x => match x with
                                  | JNull => Some EmptyString
                                  | _ => ToString x
                                  end) items) with
      | Some parts => Some (join "," parts)
      | None => None
      end
  | JObj fields =>
      match lookup "toString" fields with
      | Some _ => None
      | None => Some "[object Object]"
      end
  end.

(** The conversion [join] applies to one element: [null] and
    [undefined] become the empty string. *)
Definition join_item (v : json) : option string :=
  match v with
  | JNull => Some EmptyString
  | _ => ToString v
  end.

(** [arr.join(sep)]; [None] when the conversion of an element throws. *)
Definition Array_join (sep : string) (items : list json) : option string :=
  match all_of (map join_item items) with
  | Some parts => Some (join sep parts)
  | None => None
  end.

(** *** [JSON.stringify] *)

Definition hex_digit (n : N) : ascii :=
  if (n <? 10)%N then ascii_of_N (48 + n) else ascii_of_N (87 + n).

Definition escape_char (c : ascii) : string :=
  let n := N_of_ascii c in
  if (n =? 34)%N then backslash ++ quote
  else if (n =? 92)%N then backslash ++ backslash
  else if (n =? 8)%N then backslash ++ "b"
  else if (n =? 9)%N then backslash ++ "t"
  else if (n =? 10)%N then backslash ++ "n"
  else if (n =? 12)%N then backslash ++ "f"
  else if (n =? 13)%N then backslash ++ "r"
  else if (n <? 32)%N
       then backslash ++ "u00"
            ++ String (hex_digit (n / 16)) (String (hex_digit (n mod 16)) EmptyString)
  else String c EmptyString.

Fixpoint escape (s : string) : string :=
  match s with
  | EmptyString => EmptyString
  | String c rest => escape_char c ++ escape rest
  end.

Definition quote_string (s : string) : string := quote ++ escape s ++ quote.

Fixpoint JSON_stringify (v : json) : string :=
  match v with
  | JNull => "null"
  | JBool true => "true"
  | JBool false => "false"
  | JNum q => Number_toString q
  | JStr s => quote_string s
  | JArr items => "[" ++ join "," (map JSON_stringify items) ++ "]"
  | JObj fields =>
      "{" ++ join "," (map (fun kv => quote_string (fst kv) ++ ":" ++ JSON_stringify (snd kv))
                           fields) ++ "}"
  end.

End Conversions.

End JS.

(** ** The schema library (zod)

    The schemas of the server are built from [z.string], [z.number],
    [z.any], [z.array], [z.object], [.optional] and [.default]; a schema
    is data, and [parse] interprets it.  An issue carries the path of
    the offending field. *)

Module Zod.
Import JS.

Inductive path_item : Type :=
| PKey (k : string)
| PIdx (i : nat).

Inductive issue_code : Type :=
| invalid_type (expected received : string)
| too_small
| too_big.

Record issue : Type := Issue { code : issue_code; path : list path_item }.

Inductive str_check : Type :=
| SMin (n : nat).                       (* .min(n) *)

Inductive num_check : Type :=
| NInt                                  (* .int() *)
| NMin (q : Q)                          (* .min(q) *)
| NMax (q : Q).                         (* .max(q) *)

Inductive schema : Type :=
| z_string (checks : list str_check)
| z_number (checks : list num_check)
| z_any
| z_array (item : schema)
| z_object (shape : list (string * schema))
| z_optional (inner : schema)
| z_default (inner : schema) (value : json).

(** The result of [safeParse]: [Valid None] is a successful parse whose
    output is [undefined]. *)
Inductive parsed : Type :=
| Valid (output : option json)
| Invalid (issues : list issue).

Definition type_name (input : option json) : string :=
  match input with
  | None => "undefined"
  | Some JNull => "null"
  | Some (JBool _) => "boolean"
  | Some (JNum _) => "number"
  | Some (JStr _) => "string"
  | Some (JArr _) => "array"
  | Some (JObj _) => "object"
  end.

(** Every check of a schema runs; each failing one adds an issue.
    ([.min] counts UTF-16 units where [String.length] counts bytes; for
    the bound 1 of the server both say: not empty.) *)
Definition str_issue (p : list path_item) (s : string) (c : str_check) : list issue :=
  match c with
  | SMin n => if (String.length s <? n)%nat then [Issue too_small p] else []
  end.

Definition num_issue (p : list path_item) (q : Q) (c : num_check) : list issue :=
  match c with
  | NInt => if is_integer q then [] else [Issue (invalid_type "integer" "float") p]
  | NMin m => if Qle_bool m q then [] else [Issue too_small p]
  | NMax m => if Qle_bool q m then [] else [Issue too_big p]
  end.

Definition checked (input : option json) (issues : list issue) : parsed :=
  match issues with
  | [] => Valid input
  | _ => Invalid issues
  end.

Definition finish (issues : list issue) (output : json) : parsed :=
  match issues with
  | [] => Valid (Some output)
  | _ => Invalid issues
  end.

(** The elements of an array are parsed one by one, each under its
    index; the members of an object, each under its key.  A member whose
    parse yields [undefined] for an absent key is left out.  (An element
    is never parsed to [undefined]; if it were, [res.json] would write
    [null] for it.) *)
Fixpoint parse_elements (parse_item : list path_item -> option json -> parsed)
         (p : list path_item) (l : list json) (i : nat) : list issue * list json :=
  match l with
  | [] => ([], [])
  | x :: rest =>
      let (issues, out) := parse_elements parse_item p rest (S i) in
      match parse_item (p ++ [PIdx i])%list (Some x) with
      | Valid (Some v) => (issues, v :: out)
      | Valid None => (issues, JNull :: out)
      | Invalid e => ((e ++ issues)%list, out)
      end
  end.

Definition add_member (k : string) (r : parsed) (acc : list issue * list (string * json))
  : list issue * list (string * json) :=
  let (issues, out) := acc in
  match r with
  | Valid (Some v) => (issues, (k, v) :: out)
  | Valid None => (issues, out)
  | Invalid e => ((e ++ issues)%list, out)
  end.

Fixpoint zparse (s : schema) (p : list path_item) (input : option json) : parsed :=
  match s with
  | z_string checks =>
      match input with
      | Some (JStr str) => checked input (flat_map (str_issue p str) checks)
      | _ => Invalid [Issue (invalid_type "string" (type_name input)) p]
      end
  | z_number checks =>
      match input with
      | Some (JNum q) => checked input (flat_map (num_issue p q) checks)
      | _ => Invalid [Issue (invalid_type "number" (type_name input)) p]
      end
  | z_any => Valid input
  | z_array item =>
      match input with
      | Some (JArr items) =>
          let (issues, out) := parse_elements (zparse item) p items 0%nat in
          finish issues (JArr out)
      | _ => Invalid [Issue (invalid_type "array" (type_name input)) p]
      end
  | z_object shape =>
      match input with
      | Some (JObj fields) =>
          let (issues, out) :=
            fold_right
              (fun member acc =>
                 match member with
                 | (k, field) =>
                     add_member k (zparse field (p ++ [PKey k])%list (lookup k fields)) acc
                 end)
              ([], []) shape in
          finish issues (JObj out)
      | _ => Invalid [Issue (invalid_type "object" (type_name input)) p]
      end
  | z_optional inner =>
      match input with
      | None => Valid None
      | Some _ => zparse inner p input
      end
  | z_default inner value =>
      match input with
      | None => zparse inner p (Some value)
      | Some _ => zparse inner p input
      end
  end.

(** The members of an object schema, parsed against [fields]. *)
Definition parse_members (shape : list (string * schema)) (p : list path_item)
           (fields : list (string * json)) : list issue * list (string * json) :=
  fold_right
    (fun member acc =>
       match member with
       | (k, field) =>
           add_member k (zparse field (p ++ [PKey k])%list (lookup k fields)) acc
       end)
    ([], []) shape.

(** [schema.safeParse(data)] on a value that is not [undefined]. *)
Definition safeParse (s : schema) (data : json) : parsed := zparse s [] (Some data).

(** Schemas whose output is defined even when the key is absent. *)
Definition always_defined (s : schema) : bool :=
  match s with
  | z_any => false
  | z_optional _ => false
  | _ => true
  end.

(** The members of a valid object, in the order of the shape. *)
Definition member_parsed (p : list path_item) (fields : list (string * json))
           (member : string * schema) (entry : string * json) : Prop :=
  fst member = fst entry
  /\ zparse (snd member) (p ++ [PKey (fst member)])%list (lookup (fst member) fields)
     = Valid (Some (snd entry)).

End Zod.

(** ** The process, the response object and the handler monad *)

Module Runtime.
Import JS Zod.

(** [process.env], as far as the server reads it. *)
Record environment : Type := Env {
  OPENAI_API_KEY : option string;
  OPENAI_MODEL : option string
}.

(** The object built by [new OpenAI({ apiKey })]; [handle] tells two
    constructed objects apart. *)
Record client : Type := Client { apiKey : string; handle : nat }.

Record chat_message : Type := Message { role : string; content : json }.

(** The argument of [chat.completions.create]. *)
Record gateway_request : Type := Request {
  model : string;
  messages : list chat_message;
  response_format : option string;
  stream : bool
}.

(** What a blocking call yields: a rejection, or a completion whose
    [choices[i].message.content] is a string or [null]. *)
Inductive completion_reply : Type :=
| Rejected (reason : string)
| Completion (choices : list (option string)).

(** A streamed chunk: per choice, the value of [delta?.content] when it
    is a string. *)
Definition chunk : Type := list (option string).

(** What a streaming call yields: a rejection, or chunks followed by a
    normal end ([None]) or an abnormal one. *)
Inductive stream_reply : Type :=
| StreamRejected (reason : string)
| Stream (chunks : list chunk) (failure : option string).

(** Observations recorded while a handler runs. *)
Inductive event : Type :=
| EvParse (s : schema) (data : json)         (* schema.parse(data) was called *)
| EvNew (c : client)                         (* new OpenAI(...) *)
| EvCreate (c : client) (r : gateway_request). (* chat.completions.create(r) *)

(** What the server process keeps between requests: the variables of
    the module ([openai], [MODEL]), the environment, and the store of
    the rate limiter the module installs, which counts per client the
    requests of the current window.  [trace] records what happened. *)
Record process : Type := Process {
  env : environment;
  openai : option client;
  MODEL : string;
  trace : list event;
  hits : list (string * nat)
}.

Inductive exn : Type :=
| Error (message : string)
| TypeError (message : string)
| ZodError (issues : list issue).

(** [error.message]; the message of a [ZodError] is the rendering of its
    issues. *)
Inductive message : Type :=
| Text (s : string)
| Issues (l : list issue).

Definition message_of (e : exn) : message :=
  match e with
  | Error m => Text m
  | TypeError m => Text m
  | ZodError l => Issues l
  end.

(** The argument of [res.json]: a value, [undefined], or an error
    object; or the text given to [res.send]. *)
Inductive payload : Type :=
| Document (result : json)
| Undefined
| ErrorBody (error : string) (details : option message)
| Page (text : string).

Definition document (result : option json) : payload :=
  match result with
  | Some j => Document j
  | None => Undefined
  end.

Record response : Type := Response {
  statusCode : Z;
  headers : list (string * string);
  headersSent : bool;
  body : option payload;
  written : list string;
  ended : bool
}.

Definition fresh_response : response :=
  Response 200 [] false None [] false.

Record state : Type := State { proc : process; res : response }.

Inductive outcome (A : Type) : Type :=
| Done (a : A)
| Thrown (e : exn).
Arguments Thrown {A} e.

Definition M (A : Type) : Type := state -> outcome A * state.

Definition ret {A} (a : A) : M A := fun st => (Done a, st).

Definition bind {A B} (m : M A) (k : A -> M B) : M B :=
  fun st =>
    match m st with
    | (Done a, st') => k a st'
    | (Thrown e, st') => (Thrown e, st')
    end.

Definition throw {A} (e : exn) : M A := fun st => (Thrown e, st).

(** [try { m } catch (error) { h(error) }]. *)
Definition try_catch {A} (m : M A) (h : exn -> M A) : M A :=
  fun st =>
    match m st with
    | (Done a, st') => (Done a, st')
    | (Thrown e, st') => h e st'
    end.

Definition gets {A} (f : state -> A) : M A := fun st => (Done (f st), st).
Definition modify (f : state -> state) : M unit := fun st => (Done tt, f st).

Declare Scope handler_scope.
Delimit Scope handler_scope with handler.
Notation "x <- m ;; k" := (bind m (fun x => k))
  (at level 100, m at next level, right associativity) : handler_scope.
Notation "m ;;; k" := (bind m (fun _ => k))
  (at level 100, right associativity) : handler_scope.
Local Open Scope handler_scope.

Definition with_proc (f : process -> process) (st : state) : state :=
  State (f (proc st)) (res st).
Definition with_res (f : response -> response) (st : state) : state :=
  State (proc st) (f (res st)).

Definition logged (e : event) (p : process) : process :=
  Process (env p) (openai p) (MODEL p) (trace p ++ [e]) (hits p).

Definition emit (e : event) : M unit := modify (with_proc (logged e)).

(** *** The response object *)

Definition res_status (code : Z) : M unit :=
  modify (with_res (fun r =>
    Response code (headers r) (headersSent r) (body r) (written r) (ended r))).

(** [res.json(p)] sets a header, so it throws once the headers are out. *)
Definition res_json (p : payload) : M unit :=
  sent <- gets (fun st => headersSent (res st)) ;;
  if sent : bool
  then throw (Error "Cannot set headers after they are sent to the client")
  else modify (with_res (fun r =>
         Response (statusCode r)
                  (headers r ++ [("Content-Type", "application/json; charset=utf-8")])
                  true (Some p) (written r) true)).

Definition res_writeHead (code : Z) (hs : list (string * string)) : M unit :=
  sent <- gets (fun st => headersSent (res st)) ;;
  if sent : bool
  then throw (Error "Cannot write headers after they are sent to the client")
  else modify (with_res (fun r =>
         Response code (headers r ++ hs) true (body r) (written r) (ended r))).

Definition res_write (data : string) : M unit :=
  modify (with_res (fun r =>
    Response (statusCode r) (headers r) true (body r) (written r ++ [data]) (ended r))).

Definition res_end : M unit :=
  modify (with_res (fun r =>
    Response (statusCode r) (headers r) true (body r) (written r) true)).

(** [res.setHeader] for each of the given headers. *)
Definition res_set (hs : list (string * string)) : M unit :=
  sent <- gets (fun st => headersSent (res st)) ;;
  if sent : bool
  then throw (Error "Cannot set headers after they are sent to the client")
  else modify (with_res (fun r =>
         Response (statusCode r) (headers r ++ hs) (headersSent r) (body r) (written r)
                  (ended r))).

(** [res.send(text)] *)
Definition res_send (text : string) : M unit :=
  sent <- gets (fun st => headersSent (res st)) ;;
  if sent : bool
  then throw (Error "Cannot set headers after they are sent to the client")
  else modify (with_res (fun r =>
         Response (statusCode r)
                  (headers r ++ [("Content-Type", "text/html; charset=utf-8")])
                  true (Some (Page text)) (written r) true)).

(** *** Process start *)

Definition nonempty (s : option string) : option string :=
  match s with
  | Some EmptyString => None
  | other => other
  end.

(** [let openai = null; let MODEL = process.env.OPENAI_MODEL || "gpt-4o-mini";] *)
Definition start (e : environment) : process :=
  Process e None
          (match nonempty (OPENAI_MODEL e) with
           | Some m => m
           | None => "gpt-4o-mini"
           end)
          [] [].

Definition constructions (t : list event) : nat :=
  List.length (filter (fun e => match e with EvNew _ => true | _ => false end) t).

Definition gateway_calls (t : list event) : list gateway_request :=
  flat_map (fun e => match e with EvCreate _ r => [r] | _ => [] end) t.

Definition validations (t : list event) : list (schema * json) :=
  flat_map (fun e => match e with EvParse s d => [(s, d)] | _ => [] end) t.

(** [new OpenAI({ apiKey })] *)
Definition new_OpenAI (key : string) : M client :=
  n <- gets (fun st => constructions (trace (proc st))) ;;
  let c := Client key n in
  emit (EvNew c) ;;;
  ret c.

Definition set_openai (c : client) : M unit :=
  modify (with_proc (fun p => Process (env p) (Some c) (MODEL p) (trace p) (hits p))).

(** [getOpenAI] *)
Definition getOpenAI : M client :=
  current <- gets (fun st => openai (proc st)) ;;
  match current with
  | Some c => ret c
  | None =>
      key <- gets (fun st => nonempty (OPENAI_API_KEY (env (proc st)))) ;;
      match key with
      | None => throw (Error "OPENAI_API_KEY not set")
      | Some k =>
          c <- new_OpenAI k ;;
          set_openai c ;;;
          ret c
      end
  end.

(** [schema.parse(data)]: the parsed value, or a thrown [ZodError]. *)
Definition schema_parse (s : schema) (data : json) : M (option json) :=
  emit (EvParse s data) ;;;
  match safeParse s data with
  | Valid v => ret v
  | Invalid l => throw (ZodError l)
  end.

(** Reading a property of [undefined] throws. *)
Definition object_of (v : option json) : M json :=
  match v with
  | Some j => ret j
  | None => throw (TypeError "Cannot read properties of undefined")
  end.

(** The client [getOpenAI] would hand out in a process: the cached one,
    or the one it would construct from the credential. *)
Definition usable_client (p : process) : option client :=
  match openai p with
  | Some c => Some c
  | None =>
      match nonempty (OPENAI_API_KEY (env p)) with
      | Some k => Some (Client k (constructions (trace p)))
      | None => None
      end
  end.

(** The process after a successful [getOpenAI]. *)
Definition ensured (p : process) : process :=
  match openai p, nonempty (OPENAI_API_KEY (env p)) with
  | None, Some k =>
      let c := Client k (constructions (trace p)) in
      Process (env p) (Some c) (MODEL p) (trace p ++ [EvNew c]) (hits p)
  | _, _ => p
  end.

(** *** The store of the rate limiter *)

(** The requests a client has made in the current window. *)
Fixpoint hits_of (key : string) (store : list (string * nat)) : nat :=
  match store with
  | [] => O
  | (k, n) :: rest => if String.eqb k key then n else hits_of key rest
  end.

Fixpoint set_hits (key : string) (n : nat) (store : list (string * nat))
  : list (string * nat) :=
  match store with
  | [] => [(key, n)]
  | (k, old) :: rest =>
      if String.eqb k key then (k, n) :: rest else (k, old) :: set_hits key n rest
  end.

Definition counted (key : string) (p : process) : process :=
  Process (env p) (openai p) (MODEL p) (trace p)
          (set_hits key (S (hits_of key (hits p))) (hits p)).

(** [store.increment(key)]: the count of the client goes up by one and
    is returned. *)
Definition increment (key : string) : M nat :=
  modify (with_proc (counted key)) ;;;
  gets (fun st => hits_of key (hits (proc st))).

(** When the window of a client is over the store forgets its count;
    this happens on the store's timer, between requests. *)
Definition window_over (key : string) (p : process) : process :=
  Process (env p) (openai p) (MODEL p) (trace p)
          (filter (fun entry => negb (String.eqb (fst entry) key)) (hits p)).

(** [n] calls of [getOpenAI] in a row. *)
Fixpoint getOpenAI_times (n : nat) : M (list client) :=
  match n with
  | O => ret []
  | S n =>
      c <- getOpenAI ;;
      rest <- getOpenAI_times n ;;
      ret (c :: rest)
  end.

End Runtime.

(** ** The server *)

Module Server.
Import JS Zod Runtime.
Local Open Scope handler_scope.

(** *** Schemas *)

Definition CharacterReq : schema :=
  z_object
    [ ("prompt", z_default (z_string [SMin 1]) (JStr "Create a kid-friendly STEM character."));
      ("audience", z_default (z_string []) (JStr "ages 6–10"));
      ("style", z_default (z_string []) (JStr "bright 2D cartoon"));
      ("constraints", z_default (z_string []) (JStr "original; no resemblance to existing IP")) ].

Definition string_list : schema := z_default (z_optional (z_array (z_string []))) (JArr []).

Definition CharacterRes : schema :=
  z_object
    [ ("name", z_string []);
      ("species_or_type", z_string []);
      ("visual_description", z_string []);
      ("personality", z_string []);
      ("catchphrases", string_list);
      ("strengths", string_list);
      ("quirks", string_list);
      ("stem_domain", z_string []);
      ("color_palette", string_list);
      ("do_not_copy", z_string []) ].

Definition StoryReq : schema :=
  z_object
    [ ("title", z_default (z_string []) (JStr "Adventure in Volcano Valley"));
      ("topic", z_default (z_string []) (JStr "volcano science"));
      ("target_age", z_default (z_string []) (JStr "6–10"));
      ("minutes", z_default (z_number [NInt; NMin (1 # 1); NMax (15 # 1)]) (JNum (3 # 1)));
      ("characters", z_default (z_array z_any) (JArr []));
      ("moral", z_default (z_string []) (JStr "Curiosity + safety"));
      ("educational_goals",
       z_default (z_array (z_string []))
                 (JArr [ JStr "Basic volcano formation";
                         JStr "Safety around natural phenomena";
                         JStr "Scientific observation skills" ])) ].

Definition StoryRes : schema :=
  z_object
    [ ("title", z_string []);
      ("opening", z_string []);
      ("scenes", z_array (z_object [ ("setting", z_string []);
                                     ("action", z_string []);
                                     ("dialogue", z_string []);
                                     ("duration", z_number []) ]));
      ("closing", z_string []);
      ("moral", z_string []);
      ("educational_goals", z_array (z_string []));
      ("total_duration", z_number []) ].

Section Handlers.

(** The ECMAScript built-ins the server relies on. *)
Variable number_repr : Q -> string.
Variable JSON_parse : string -> option json.

(** The gateway: [chat.completions.create] without and with
    [stream: true]. *)
Variable create : client -> gateway_request -> completion_reply.
Variable create_stream : client -> gateway_request -> stream_reply.

(** The headers the rate limiter sets for a client's hit count at a
    given time of the clock: [RateLimit-Limit], [RateLimit-Remaining],
    [RateLimit-Reset] (the seconds until the window ends), and
    [Retry-After] once the client is over the limit. *)
Variable quota_headers : nat -> Z -> list (string * string).

(** What [String(v)] throws for a value it cannot convert. *)
Definition conversion_error : exn :=
  TypeError "Cannot convert object to primitive value".

(** [String(v)] *)
Definition to_string (v : json) : M string :=
  match ToString number_repr v with
  | Some text => ret text
  | None => throw conversion_error
  end.

(** A template placeholder [${v}]. *)
Definition interp (v : option json) : M string :=
  match v with
  | None => ret "undefined"
  | Some j => to_string j
  end.

(** [v.join(sep)] *)
Definition call_join (v : option json) (sep : string) : M string :=
  match v with
  | Some (JArr items) =>
      match Array_join number_repr sep items with
      | Some text => ret text
      | None => throw conversion_error
      end
  | None => throw (TypeError "Cannot read properties of undefined (reading 'join')")
  | Some JNull => throw (TypeError "Cannot read properties of null (reading 'join')")
  | Some _ => throw (TypeError "join is not a function")
  end.

(** *** Helpers *)

Definition sendSSEHeaders : M unit :=
  res_writeHead 200
    [ ("Content-Type", "text/event-stream; charset=utf-8");
      ("Cache-Control", "no-cache, no-transform");
      ("Connection", "keep-alive");
      ("X-Accel-Buffering", "no") ].

(** [try { return JSON.parse(str); } catch { return null; }]: the
    [catch] takes the [SyntaxError] of the parser as well as the
    [TypeError] of converting [str] to a string. *)
Definition safeParseJSON (str : json) : json :=
  match ToString number_repr str with
  | Some text =>
      match JSON_parse text with
      | Some v => v
      | None => JNull
      end
  | None => JNull
  end.

Definition of_content (c : option string) : json :=
  match c with
  | Some s => JStr s
  | None => JNull
  end.

(** [await openaiClient.chat.completions.create(r)] *)
Definition chat_create (c : client) (r : gateway_request) : M (list (option string)) :=
  emit (EvCreate c r) ;;;
  match create c r with
  | Rejected reason => throw (Error reason)
  | Completion choices => ret choices
  end.

(** [completion.choices[0].message.content] *)
Definition first_content (choices : list (option string)) : M json :=
  match choices with
  | [] => throw (TypeError "Cannot read properties of undefined (reading 'message')")
  | c :: _ => ret (of_content c)
  end.

(** *** Prompt templates *)

Definition character_system_prompt : string :=
  "You are a character designer for STEM education. Create original, engaging characters that inspire curiosity about science, technology, engineering, and math.".

Definition character_user_prompt (body : json) : M string :=
  prompt <- interp (get "prompt" body) ;;
  audience <- interp (get "audience" body) ;;
  style <- interp (get "style" body) ;;
  constraints <- interp (get "constraints" body) ;;
  ret ("Design a character with these requirements: " ++ prompt
       ++ ". Target audience: " ++ audience
       ++ ". Style: " ++ style
       ++ ". Constraints: " ++ constraints).

Definition story_system_prompt : string :=
  "You are a storyteller for STEM education. Create engaging, educational stories that make complex concepts accessible to children.".

(** The placeholders are evaluated from left to right. *)
Definition story_user_prompt (body : json) : M string :=
  topic <- interp (get "topic" body) ;;
  age <- interp (get "target_age" body) ;;
  minutes <- interp (get "minutes" body) ;;
  characters <- call_join (get "characters" body) ", " ;;
  moral <- interp (get "moral" body) ;;
  goals <- call_join (get "educational_goals" body) ", " ;;
  ret ("Create a story about " ++ topic
       ++ " for ages " ++ age
       ++ ". Duration: " ++ minutes
       ++ " minutes. Include these characters: " ++ characters
       ++ ". Moral: " ++ moral
       ++ ". Educational goals: " ++ goals).

(** *** Endpoints *)

(** [app.post("/api/character", ...)] *)
Definition character (req_body : json) : M unit :=
  try_catch
    (parsed_body <- schema_parse CharacterReq req_body ;;
     openaiClient <- getOpenAI ;;
     model_name <- gets (fun st => MODEL (proc st)) ;;
     body <- object_of parsed_body ;;
     user <- character_user_prompt body ;;
     completion <- chat_create openaiClient
       (Request model_name
                [ Message "system" (JStr character_system_prompt);
                  Message "user" (JStr user) ]
                (Some "json_object") false) ;;
     content <- first_content completion ;;
     let parsed := safeParseJSON content in
     if negb (truthy parsed)
     then throw (Error "Failed to parse OpenAI response")
     else
       result <- schema_parse CharacterRes parsed ;;
       res_json (document result))
    (fun error =>
       res_status 500 ;;;
       res_json (ErrorBody "Character generation failed" (Some (message_of error)))).

(** [app.post("/api/story", ...)] *)
Definition story (req_body : json) : M unit :=
  try_catch
    (parsed_body <- schema_parse StoryReq req_body ;;
     openaiClient <- getOpenAI ;;
     model_name <- gets (fun st => MODEL (proc st)) ;;
     body <- object_of parsed_body ;;
     user <- story_user_prompt body ;;
     completion <- chat_create openaiClient
       (Request model_name
                [ Message "system" (JStr story_system_prompt);
                  Message "user" (JStr user) ]
                (Some "json_object") false) ;;
     content <- first_content completion ;;
     let parsed := safeParseJSON content in
     if negb (truthy parsed)
     then throw (Error "Failed to parse OpenAI response")
     else
       result <- schema_parse StoryRes parsed ;;
       res_json (document result))
    (fun error =>
       res_status 500 ;;;
       res_json (ErrorBody "Story generation failed" (Some (message_of error)))).

(** [const { question } = req.body] *)
Definition destructure (key : string) (v : json) : M (option json) :=
  match v with
  | JNull =>
      throw (TypeError ("Cannot destructure property '" ++ key
                        ++ "' of 'req.body' as it is null."))
  | _ => ret (get key v)
  end.

Definition ask_system_prompt : string :=
  "You are a friendly STEM tutor for kids. Keep answers simple, engaging, and age-appropriate.".

(** One server-sent event carrying a fragment, and the terminal one. *)
Definition data_frame (fragment : string) : string :=
  "data: " ++ JSON_stringify number_repr (JObj [("content", JStr fragment)])
  ++ newline ++ newline.

Definition done_frame : string := "data: [DONE]" ++ newline ++ newline.

(** [chunk.choices[0]?.delta?.content] *)
Definition chunk_content (c : chunk) : option string :=
  match c with
  | [] => None
  | first :: _ => first
  end.

(** The body of [for await (const chunk of stream)]. *)
Definition forward (c : chunk) : M unit :=
  match chunk_content c with
  | Some fragment =>
      if truthy (JStr fragment) then res_write (data_frame fragment) else ret tt
  | None => ret tt
  end.

Fixpoint for_await (chunks : list chunk) (failure : option string) : M unit :=
  match chunks with
  | [] =>
      match failure with
      | Some reason => throw (Error reason)
      | None => ret tt
      end
  | c :: rest => forward c ;;; for_await rest failure
  end.

(** [await openaiClient.chat.completions.create({ ..., stream: true })] *)
Definition chat_stream (c : client) (r : gateway_request)
  : M (list chunk * option string) :=
  emit (EvCreate c r) ;;;
  match create_stream c r with
  | StreamRejected reason => throw (Error reason)
  | Stream chunks failure => ret (chunks, failure)
  end.

(** [app.post("/api/ask", ...)] *)
Definition ask (req_body : json) : M unit :=
  try_catch
    (question <- destructure "question" req_body ;;
     match question with
     | Some q =>
         if truthy q then
           openaiClient <- getOpenAI ;;
           sendSSEHeaders ;;;
           model_name <- gets (fun st => MODEL (proc st)) ;;
           s <- chat_stream openaiClient
             (Request model_name
                      [ Message "system" (JStr ask_system_prompt);
                        Message "user" q ]
                      None true) ;;
           for_await (fst s) (snd s) ;;;
           res_write done_frame ;;;
           res_end
         else res_status 400 ;;; res_json (ErrorBody "Question is required" None)
     | None => res_status 400 ;;; res_json (ErrorBody "Question is required" None)
     end)
    (fun error =>
       res_status 500 ;;;
       res_json (ErrorBody "Ask endpoint failed" (Some (message_of error)))).

(** *** The duplicate [server.js]

    Its [/api/character] handler parses [req.body] once more before
    validating it.  The listing stops inside the call to the gateway:
    the request it builds, what follows the call and the [catch]
    clause are parameters. *)

Section ServerJs.

Variable request_js : string -> json -> gateway_request.
Variable continue_js : list (option string) -> M unit.
Variable catch_js : exn -> M unit.

Definition character_js (req_body : json) : M unit :=
  try_catch
    (let body := safeParseJSON req_body in
     if negb (truthy body)
     then res_status 400 ;;; res_json (ErrorBody "Invalid JSON" None)
     else
       validated <- schema_parse CharacterReq body ;;
       openaiClient <- getOpenAI ;;
       model_name <- gets (fun st => MODEL (proc st)) ;;
       validated <- object_of validated ;;
       completion <- chat_create openaiClient (request_js model_name validated) ;;
       continue_js completion)
    catch_js.

End ServerJs.

(** *** The rate limiter

    [app.use(rateLimit({ windowMs: 60 * 1000, max: 60, standardHeaders:
    true, legacyHeaders: false }))] stands in front of every route.  For
    each request the middleware counts a hit for the client (its key is
    the address the request comes from), sets its headers for the count
    and the time [now] of the request, and passes the request on to its
    route, [next], unless the client is over the limit of 60 requests in
    the window of one minute: then it answers 429 itself.  (The other
    middleware of the server, [helmet], [cors], [compression] and
    [express.json], keeps nothing from one request to the next.) *)

Definition max_hits : nat := 60.

Definition too_many : string := "Too many requests, please try again later.".

Definition rateLimit (key : string) (now : Z) (next : M unit) : M unit :=
  n <- increment key ;;
  res_set (quota_headers n now) ;;;
  if (max_hits <? n)%nat
  then res_status 429 ;;; res_send too_many
  else next.

End Handlers.

(** Running what answers a request on a fresh response object: a route
    handler [h] by itself, or the route behind the rate limiter,
    [rateLimit quota_headers key now h], as the server has it. *)
Definition run (h : M unit) (p : process) : outcome unit * state :=
  h (State p fresh_response).

Definition reply_of (h : M unit) (p : process) : response := res (snd (run h p)).
Definition after (h : M unit) (p : process) : process := proc (snd (run h p)).

End Server.

(** ** A reference [JSON.parse]

    The handlers take [JSON.parse] as a parameter.  To run them on
    concrete texts, here is a parser of the JSON grammar (ECMA-404):
    whitespace, the three literals, numbers with fraction and exponent,
    strings with all escapes (written out as UTF-8), arrays and objects.
    A repeated key keeps its first position and its last value, as
    assignment to an object property does.  It stands for the built-in
    on texts whose numbers are doubles as written (a number is kept
    exact here, where the built-in rounds it and reads an overflowing one
    as infinite) and whose keys are not array indices (which the built-in
    lists first); the examples below use no other texts. *)

Module JsonText.
Import JS.

Definition code (c : ascii) : N := N_of_ascii c.

Definition is_ws (c : ascii) : bool :=
  let n := code c in ((n =? 32) || (n =? 9) || (n =? 10) || (n =? 13))%N.

Definition is_digit (c : ascii) : bool :=
  let n := code c in ((48 <=? n) && (n <=? 57))%N.

Fixpoint skip_ws (s : string) : string :=
  match s with
  | String c rest => if is_ws c then skip_ws rest else s
  | EmptyString => s
  end.

(** Leading digits of [s]: their value read after [acc], their number,
    and the rest. *)
Fixpoint digits (s : string) (acc : Z) (count : nat) : Z * nat * string :=
  match s with
  | String c rest =>
      if is_digit c
      then digits rest (10 * acc + Z.of_N (code c - 48)) (S count)
      else (acc, count, s)
  | EmptyString => (acc, count, s)
  end.

Definition scale (m : Z) (e : Z) : Q :=
  if 0 <=? e then (m * 10 ^ e) # 1 else Qred (m # Z.to_pos (10 ^ (- e))).

Definition parse_exponent (s : string) : option (Z * string) :=
  match s with
  | String c rest =>
      if ((code c =? 101) || (code c =? 69))%N then
        let '(negative, rest) :=
          match rest with
          | String sign rest' =>
              if (code sign =? 45)%N then (true, rest')
              else if (code sign =? 43)%N then (false, rest')
              else (false, rest)
          | EmptyString => (false, rest)
          end in
        match digits rest 0 0 with
        | (_, O, _) => None
        | (e, _, rest) => Some (if negative : bool then - e else e, rest)
        end
      else Some (0, s)
  | EmptyString => Some (0, s)
  end.

Definition parse_fraction (s : string) (int_part : Z) : option (Z * nat * string) :=
  match s with
  | String c rest =>
      if (code c =? 46)%N then
        match digits rest int_part 0 with
        | (_, O, _) => None
        | (m, n, rest) => Some (m, n, rest)
        end
      else Some (int_part, O, s)
  | EmptyString => Some (int_part, O, s)
  end.

Definition parse_number (s : string) : option (Q * string) :=
  let '(negative, s) :=
    match s with
    | String c rest => if (code c =? 45)%N then (true, rest) else (false, s)
    | EmptyString => (false, s)
    end in
  match s with
  | String c rest =>
      if is_digit c then
        let '(int_part, _, after_int) :=
          if (code c =? 48)%N then (0, 1%nat, rest) else digits s 0 0 in
        match parse_fraction after_int int_part with
        | Some (m, places, after_frac) =>
            match parse_exponent after_frac with
            | Some (e, rest) =>
                let m := if negative : bool then - m else m in
                Some (scale m (e - Z.of_nat places), rest)
            | None => None
            end
        | None => None
        end
      else None
  | EmptyString => None
  end.

Definition hex_value (c : ascii) : option N :=
  let n := code c in
  if ((48 <=? n) && (n <=? 57))%N then Some (n - 48)%N
  else if ((97 <=? n) && (n <=? 102))%N then Some (n - 87)%N
  else if ((65 <=? n) && (n <=? 70))%N then Some (n - 55)%N
  else None.

Definition hex4 (a b c d : ascii) : option N :=
  match hex_value a, hex_value b, hex_value c, hex_value d with
  | Some x, Some y, Some z, Some w => Some (((x * 16 + y) * 16 + z) * 16 + w)%N
  | _, _, _, _ => None
  end.

Definition byte (n : N) : string := String (ascii_of_N n) EmptyString.

Definition utf8 (cp : N) : string :=
  if (cp <? 128)%N then byte cp
  else if (cp <? 2048)%N then byte (192 + cp / 64) ++ byte (128 + cp mod 64)
  else if (cp <? 65536)%N
       then byte (224 + cp / 4096) ++ byte (128 + (cp / 64) mod 64) ++ byte (128 + cp mod 64)
  else byte (240 + cp / 262144) ++ byte (128 + (cp / 4096) mod 64)
       ++ byte (128 + (cp / 64) mod 64) ++ byte (128 + cp mod 64).

Definition simple_escape (c : ascii) : option string :=
  let n := code c in
  if (n =? 34)%N then Some quote
  else if (n =? 92)%N then Some backslash
  else if (n =? 47)%N then Some "/"
  else if (n =? 98)%N then Some (byte 8)
  else if (n =? 102)%N then Some (byte 12)
  else if (n =? 110)%N then Some (byte 10)
  else if (n =? 114)%N then Some (byte 13)
  else if (n =? 116)%N then Some (byte 9)
  else None.

(** The characters of a string after its opening quote, up to the
    closing one. *)
Fixpoint parse_chars (s : string) : option (string * string) :=
  match s with
  | EmptyString => None
  | String c rest =>
      if (code c =? 34)%N then Some (EmptyString, rest)
      else if (code c <? 32)%N then None
      else if (code c =? 92)%N then
        match rest with
        | String e rest1 =>
            if (code e =? 117)%N then
              match rest1 with
              | String h1 (String h2 (String h3 (String h4 rest2))) =>
                  match hex4 h1 h2 h3 h4 with
                  | Some hi =>
                      let single :=
                        match parse_chars rest2 with
                        | Some (tail, rest') => Some (utf8 hi ++ tail, rest')
                        | None => None
                        end in
                      if ((55296 <=? hi) && (hi <? 56320))%N then
                        match rest2 with
                        | String b (String u (String l1 (String l2 (String l3 (String l4 rest3))))) =>
                            match hex4 l1 l2 l3 l4 with
                            | Some lo =>
                                if ((code b =? 92) && (code u =? 117)
                                    && (56320 <=? lo) && (lo <? 57344))%N
                                then
                                  match parse_chars rest3 with
                                  | Some (tail, rest') =>
                                      Some (utf8 (65536 + (hi - 55296) * 1024 + (lo - 56320))
                                            ++ tail, rest')
                                  | None => None
                                  end
                                else single
                            | None => single
                            end
                        | _ => single
                        end
                      else single
                  | None => None
                  end
              | _ => None
              end
            else
              match simple_escape e, parse_chars rest1 with
              | Some text, Some (tail, rest') => Some (text ++ tail, rest')
              | _, _ => None
              end
        | EmptyString => None
        end
      else
        match parse_chars rest with
        | Some (tail, rest') => Some (String c tail, rest')
        | None => None
        end
  end.

Fixpoint starts_with (prefix s : string) : option string :=
  match prefix, s with
  | EmptyString, _ => Some s
  | String p prefix', String c rest =>
      if Ascii.eqb p c then starts_with prefix' rest else None
  | String _ _, EmptyString => None
  end.

(** [obj[key] = v] *)
Fixpoint set_field (key : string) (v : json) (fields : list (string * json))
  : list (string * json) :=
  match fields with
  | [] => [(key, v)]
  | (k, old) :: rest =>
      if String.eqb k key then (k, v) :: rest else (k, old) :: set_field key v rest
  end.

Fixpoint parse_value (fuel : nat) (s : string) : option (json * string) :=
  match fuel with
  | O => None
  | S fuel =>
      match skip_ws s with
      | EmptyString => None
      | String c rest as text =>
          if (code c =? 123)%N then
            match skip_ws rest with
            | String d rest' =>
                if (code d =? 125)%N then Some (JObj [], rest')
                else
                  match parse_members fuel (skip_ws rest) [] with
                  | Some (fields, rest'') => Some (JObj fields, rest'')
                  | None => None
                  end
            | EmptyString => None
            end
          else if (code c =? 91)%N then
            match skip_ws rest with
            | String d rest' =>
                if (code d =? 93)%N then Some (JArr [], rest')
                else
                  match parse_elements fuel rest with
                  | Some (items, rest'') => Some (JArr items, rest'')
                  | None => None
                  end
            | EmptyString => None
            end
          else if (code c =? 34)%N then
            match parse_chars rest with
            | Some (str, rest') => Some (JStr str, rest')
            | None => None
            end
          else
            match starts_with "true" text, starts_with "false" text, starts_with "null" text with
            | Some rest', _, _ => Some (JBool true, rest')
            | _, Some rest', _ => Some (JBool false, rest')
            | _, _, Some rest' => Some (JNull, rest')
            | None, None, None =>
                match parse_number text with
                | Some (q, rest') => Some (JNum q, rest')
                | None => None
                end
            end
      end
  end

with parse_elements (fuel : nat) (s : string) : option (list json * string) :=
  match fuel with
  | O => None
  | S fuel =>
      match parse_value fuel s with
      | Some (v, rest) =>
          match skip_ws rest with
          | String c rest' =>
              if (code c =? 93)%N then Some ([v], rest')
              else if (code c =? 44)%N then
                match parse_elements fuel rest' with
                | Some (items, rest'') => Some (v :: items, rest'')
                | None => None
                end
              else None
          | EmptyString => None
          end
      | None => None
      end
  end

with parse_members (fuel : nat) (s : string) (acc : list (string * json))
  : option (list (string * json) * string) :=
  match fuel with
  | O => None
  | S fuel =>
      match s with
      | String q rest =>
          if (code q =? 34)%N then
            match parse_chars rest with
            | Some (key, rest1) =>
                match skip_ws rest1 with
                | String colon rest2 =>
                    if (code colon =? 58)%N then
                      match parse_value fuel rest2 with
                      | Some (v, rest3) =>
                          let acc := set_field key v acc in
                          match skip_ws rest3 with
                          | String c rest4 =>
                              if (code c =? 125)%N then Some (acc, rest4)
                              else if (code c =? 44)%N
                                   then parse_members fuel (skip_ws rest4) acc
                              else None
                          | EmptyString => None
                          end
                      | None => None
                      end
                    else None
                | EmptyString => None
                end
            | None => None
            end
          else None
      | EmptyString => None
      end
  end.

(** [JSON.parse(text)]; [None] stands for the thrown [SyntaxError]. *)
Definition JSON_parse (text : string) : option json :=
  match parse_value (2 * String.length text + 2) text with
  | Some (v, rest) =>
      match skip_ws rest with
      | EmptyString => Some v
      | String _ _ => None
      end
  | None => None
  end.

End JsonText.

(** ** Endpoints by name, and stand-ins for the gateway *)

Module Endpoint.
Import JS Zod Runtime Server.

(** The two blocking endpoints share one shape: a request schema, a
    response schema, a handler and the label of its error body. *)
Inductive blocking : Type :=
| Character
| Story.

Definition request_schema (e : blocking) : schema :=
  match e with
  | Character => CharacterReq
  | Story => StoryReq
  end.

Definition response_schema (e : blocking) : schema :=
  match e with
  | Character => CharacterRes
  | Story => StoryRes
  end.

Definition failure_label (e : blocking) : string :=
  match e with
  | Character => "Character generation failed"
  | Story => "Story generation failed"
  end.

Section Handler.
Variable number_repr : Q -> string.
Variable JSON_parse : string -> option json.
Variable create : client -> gateway_request -> completion_reply.

Definition handler (e : blocking) : json -> M unit :=
  match e with
  | Character => character number_repr JSON_parse create
  | Story => story number_repr JSON_parse create
  end.

(** The template of the user instruction. *)
Definition composer (e : blocking) : json -> M string :=
  match e with
  | Character => character_user_prompt number_repr
  | Story => story_user_prompt number_repr
  end.
End Handler.

Definition client_error (code : Z) : Prop := 400 <= code < 500.
Definition server_error (code : Z) : Prop := 500 <= code < 600.

End Endpoint.

Module Stub.
Import JS Zod Runtime Server.

(** No example below renders a number outside the small integers;
    this placeholder is never reached. *)
Definition number_repr (q : Q) : string := "?".

(** The headers of a limiter whose window started at time 0 of the
    clock (in milliseconds). *)
Definition quota_headers (n : nat) (now : Z) : list (string * string) :=
  [ ("RateLimit-Limit", "60");
    ("RateLimit-Remaining", NilZero.string_of_uint (Nat.to_uint (60 - n)));
    ("RateLimit-Reset", string_of_Z (60 - now / 1000)) ].

(** A gateway that answers every blocking call with the same text. *)
Definition fixed (text : string) : client -> gateway_request -> completion_reply :=
  fun _ _ => Completion [Some text].

(** A gateway that is down. *)
Definition unreachable : client -> gateway_request -> completion_reply :=
  fun _ _ => Rejected "connect ECONNREFUSED".

(** A streaming gateway that emits the given fragments, then ends. *)
Definition fragments (fs : list string) : client -> gateway_request -> stream_reply :=
  fun _ _ => Stream (map (fun f => [Some f]) fs) None.

(** Stand-ins for the part of the handler of [server.js] that lies
    beyond the end of its listing. *)
Definition request_js (model_name : string) (validated : json) : gateway_request :=
  Request model_name [] None false.
Definition continue_js (completion : list (option string)) : M unit := ret tt.
Definition catch_js (error : exn) : M unit := ret tt.

Definition configured : environment := Env (Some "sk-test") None.
Definition unconfigured : environment := Env None None.

(** A complete character sheet, one without its optional lists, and one
    with a field the schema does not know. *)
Definition sheet : json :=
  JObj [ ("name", JStr "Vera");
         ("species_or_type", JStr "vole");
         ("visual_description", JStr "small, with goggles");
         ("personality", JStr "curious");
         ("catchphrases", JArr [JStr "Measure twice!"]);
         ("strengths", JArr [JStr "patience"]);
         ("quirks", JArr []);
         ("stem_domain", JStr "geology");
         ("color_palette", JArr [JStr "teal"; JStr "amber"]);
         ("do_not_copy", JStr "any existing character") ].



End Stub.

(** ** What the handlers are expected to answer *)

Module Expected.
Import JS Zod Runtime Server.

Definition json_header : string * string :=
  ("Content-Type", "application/json; charset=utf-8").

(** [res.status(500).json({ error: label, details })] on a fresh response. *)
Definition failure (label : string) (details : message) : response :=
  Response 500 [json_header] true (Some (ErrorBody label (Some details))) [] true.

(** [res.status(400).json({ error: label })] on a fresh response. *)
Definition refusal (label : string) : response :=
  Response 400 [json_header] true (Some (ErrorBody label None)) [] true.

(** [res.json(p)] on a fresh response. *)
Definition answer (p : payload) : response :=
  Response 200 [json_header] true (Some p) [] true.

(** [res.json(result)] on a fresh response. *)
Definition success (result : json) : response := answer (Document result).

(** The label of an error body. *)
Definition category (r : response) : option string :=
  match body r with
  | Some (ErrorBody label _) => Some label
  | _ => None
  end.

(** What a template placeholder shows for a value that converts to a
    string. *)
Definition shown (number_repr : Q -> string) (v : option json) : string :=
  match v with
  | None => "undefined"
  | Some j =>
      match ToString number_repr j with
      | Some text => text
      | None => EmptyString
      end
  end.

(** The user instruction of the character endpoint for a request whose
    four members convert to strings. *)
Definition character_text (number_repr : Q -> string) (body : json) : string :=
  "Design a character with these requirements: " ++ shown number_repr (get "prompt" body)
  ++ ". Target audience: " ++ shown number_repr (get "audience" body)
  ++ ". Style: " ++ shown number_repr (get "style" body)
  ++ ". Constraints: " ++ shown number_repr (get "constraints" body).

Definition character_request (number_repr : Q -> string) (model_name : string) (body : json)
  : gateway_request :=
  Request model_name
          [ Message "system" (JStr character_system_prompt);
            Message "user" (JStr (character_text number_repr body)) ]
          (Some "json_object") false.

(** *** The character endpoint *)

(** The character endpoint on a valid request with a usable client:
    what the handler answers, by cases on the reply of the gateway. *)
Definition character_outcome (number_repr : Q -> string) (JSON_parse : string -> option json)
           (reply : completion_reply) (p1 : process) : state :=
  let label := "Character generation failed" in
  match reply with
  | Rejected reason => State p1 (failure label (Text reason))
  | Completion [] =>
      State p1 (failure label (Text "Cannot read properties of undefined (reading 'message')"))
  | Completion (content :: _) =>
      let parsed := safeParseJSON number_repr JSON_parse (of_content content) in
      if truthy parsed then
        let p2 := logged (EvParse CharacterRes parsed) p1 in
        match safeParse CharacterRes parsed with
        | Valid result => State p2 (answer (document result))
        | Invalid issues => State p2 (failure label (Issues issues))
        end
      else State p1 (failure label (Text "Failed to parse OpenAI response"))
  end.

(** A reply the relay cannot use, with the detail it reports: text that
    is not JSON, JSON that is falsy ([null], [false], [0], the empty
    string), or JSON the response schema rejects. *)
Inductive malformed (JSON_parse : string -> option json) (text : string)
  : message -> Prop :=
| not_json :
    JSON_parse text = None ->
    malformed JSON_parse text (Text "Failed to parse OpenAI response")
| falsy_json j :
    JSON_parse text = Some j -> truthy j = false ->
    malformed JSON_parse text (Text "Failed to parse OpenAI response")
| wrong_shape j issues :
    JSON_parse text = Some j -> truthy j = true ->
    safeParse CharacterRes j = Invalid issues ->
    malformed JSON_parse text (Issues issues).



Definition default_request : json :=
  JObj [ ("prompt", JStr "Create a kid-friendly STEM character.");
         ("audience", JStr "ages 6–10");
         ("style", JStr "bright 2D cartoon");
         ("constraints", JStr "original; no resemblance to existing IP") ].

Definition default_prompt : string :=
  "Design a character with these requirements: Create a kid-friendly STEM character.. Target audience: ages 6–10. Style: bright 2D cartoon. Constraints: original; no resemblance to existing IP".


(** *** The story prompt *)

(** The user instruction of the story endpoint, from the fields it
    renders; [characters] is the text the characters are joined to. *)
Definition story_template (topic age : string) (minutes : Q)
           (characters : string) (moral : string) (goals : list string) : string :=
  "Create a story about " ++ topic
  ++ " for ages " ++ age
  ++ ". Duration: " ++ string_of_Z (floor minutes)
  ++ " minutes. Include these characters: " ++ characters
  ++ ". Moral: " ++ moral
  ++ ". Educational goals: " ++ join ", " goals.

(** What the conversion of a value to a string throws when the value
    is, or holds, an object with a member of its own called [toString]. *)
Definition unconvertible : exn :=
  TypeError "Cannot convert object to primitive value".

Definition validated_story (title topic age : string) (minutes : Q)
           (characters : list json) (moral : string) (goals : list string) : json :=
  JObj [ ("title", JStr title);
         ("topic", JStr topic);
         ("target_age", JStr age);
         ("minutes", JNum minutes);
         ("characters", JArr characters);
         ("moral", JStr moral);
         ("educational_goals", JArr (map JStr goals)) ].

(** *** The streaming relay *)

Definition sse_headers : list (string * string) :=
  [ ("Content-Type", "text/event-stream; charset=utf-8");
    ("Cache-Control", "no-cache, no-transform");
    ("Connection", "keep-alive");
    ("X-Accel-Buffering", "no") ].

(** The response of a stream that was relayed to its end. *)
Definition relayed (frames : list string) : response :=
  Response 200 sse_headers true None frames true.

Definition ask_request (model_name : string) (question : json) : gateway_request :=
  Request model_name
          [ Message "system" (JStr ask_system_prompt); Message "user" question ]
          None true.

(** The chunks of a stream that emits the given fragments. *)
Definition chunks_of (fragments : list string) : list chunk :=
  map (fun f => [Some f]) fragments.

(** The two data frames and the terminal frame, as written on the wire. *)
Definition hel_frame : string :=
  "data: {" ++ quote ++ "content" ++ quote ++ ":" ++ quote ++ "Hel" ++ quote ++ "}"
  ++ newline ++ newline.

Definition lo_frame : string :=
  "data: {" ++ quote ++ "content" ++ quote ++ ":" ++ quote ++ "lo" ++ quote ++ "}"
  ++ newline ++ newline.

(** *** What a handler leaves alone, and what it depends on *)

(** [stable m]: running [m] changes neither the environment, nor
    [MODEL], nor the client that [getOpenAI] hands out, nor the store of
    the rate limiter. *)
Definition stable {A} (m : M A) : Prop :=
  forall st,
    env (proc (snd (m st))) = env (proc st)
    /\ MODEL (proc (snd (m st))) = MODEL (proc st)
    /\ usable_client (proc (snd (m st))) = usable_client (proc st)
    /\ hits (proc (snd (m st))) = hits (proc st).

(** Two states are [similar] when they differ at most in the trace, in
    whether the client is already cached, and in the store of the rate
    limiter. *)
Definition similar (st1 st2 : state) : Prop :=
  res st1 = res st2
  /\ MODEL (proc st1) = MODEL (proc st2)
  /\ usable_client (proc st1) = usable_client (proc st2).

(** [agree m]: from similar states, [m] has the same outcome and ends in
    similar states. *)
Definition agree {A} (m : M A) : Prop :=
  forall st1 st2, similar st1 st2 ->
    fst (m st1) = fst (m st2) /\ similar (snd (m st1)) (snd (m st2)).

Definition observation (e : event) : bool :=
  match e with
  | EvNew _ => false
  | _ => true
  end.

(** *** Behind the rate limiter *)

(** A response with further headers set ahead of its own. *)
Definition prefixed (hs : list (string * string)) (r : response) : response :=
  Response (statusCode r) (hs ++ headers r) (headersSent r) (body r) (written r) (ended r).

Definition under (hs : list (string * string)) (st : state) : state :=
  State (proc st) (prefixed hs (res st)).

(** [framed m]: headers that are already set on the response when [m]
    starts stay where they are and change nothing else. *)
Definition framed {A} (m : M A) : Prop :=
  forall hs st, m (under hs st) = (fst (m st), under hs (snd (m st))).

(** The answer of the rate limiter to a client that is over the limit,
    after the given [RateLimit] headers. *)
Definition limited (hs : list (string * string)) : response :=
  Response 429 (hs ++ [("Content-Type", "text/html; charset=utf-8")]) true
           (Some (Page "Too many requests, please try again later.")) [] true.

End Expected.

(** ** The routes without a gateway call *)

Module Routes.
Import JS Zod Runtime Server.
Local Open Scope handler_scope.

(** [!!process.env.OPENAI_API_KEY] *)
Definition has_key (e : environment) : bool :=
  match nonempty (OPENAI_API_KEY e) with
  | Some _ => true
  | None => false
  end.

(** [app.get("/healthz", ...)]; [now] is [new Date().toISOString()]. *)
Definition healthz (now : string) : M unit :=
  res_json (Document (JObj [ ("status", JStr "healthy"); ("timestamp", JStr now) ])).

(** [app.get("/__selfcheck", ...)] *)
Definition selfcheck (now : string) : M unit :=
  model_name <- gets (fun st => MODEL (proc st)) ;;
  configured <- gets (fun st => has_key (env (proc st))) ;;
  res_json (Document (JObj [ ("status", JStr "ok");
                             ("model", JStr model_name);
                             ("hasOpenAI", JBool configured);
                             ("timestamp", JStr now) ])).

End Routes.

(** ** The schemas of [server.js] that differ from the listing *)

Module ServerJs.
Import JS Zod.

Definition StoryReq : schema :=
  z_object
    [ ("title", z_default (z_string []) (JStr "Adventure in Volcano Valley"));
      ("topic", z_default (z_string []) (JStr "volcano science"));
      ("target_age", z_default (z_string []) (JStr "6–10"));
      ("minutes", z_default (z_number [NInt; NMin (1 # 1); NMax (15 # 1)]) (JNum (3 # 1)));
      ("characters", z_default (z_array z_any) (JArr []));
      ("moral", z_default (z_string []) (JStr "Curiosity + safety"));
      ("educational_goals",
       z_default (z_array (z_string []))
                 (JArr [ JStr "Basic volcano structure";
                         JStr "Safety around volcanoes";
                         JStr "Scientific observation" ])) ].

Definition StoryRes : schema :=
  z_object
    [ ("title", z_string []);
      ("opening", z_string []);
      ("scenes", z_array (z_object [ ("description", z_string []);
                                     ("dialogue", z_string []);
                                     ("visual_notes", z_string []);
                                     ("duration_seconds", z_number []) ]));
      ("closing", z_string []);
      ("total_duration", z_number []);
      ("educational_points", z_array (z_string []));
      ("safety_notes", z_array (z_string [])) ].

End ServerJs.

(** ** [server.backup.js]

    The earlier server: its client is constructed when the module is
    loaded, [/api/ask] insists on a string, and the answer is streamed
    as plain text.  The client and [MODEL] are constants of the module,
    here parameters; the gateway also receives the [temperature], which
    the recorded event leaves out. *)

Module Backup.
Import JS Zod Runtime Server.
Local Open Scope handler_scope.

Section Handlers.

Variable number_repr : Q -> string.
Variable openai_client : client.
Variable MODEL_name : string.

(** [chat.completions.create] with [stream: true], by request and
    temperature. *)
Variable create_stream : client -> gateway_request -> Q -> stream_reply.

(** [e?.status ?? null] *)
Variable status_of : exn -> json.

(** [app.get("/healthz", ...)] *)
Definition healthz : M unit := res_json (Document (JObj [ ("ok", JBool true) ])).

(** [req.body || {}] *)
Definition body_or_empty (req_body : json) : json :=
  if truthy req_body then req_body else JObj [].

(** [child_age = "8-12"] in the destructuring pattern: the default
    stands in for [undefined] only. *)
Definition child_age_of (b : json) : json :=
  match get "child_age" b with
  | Some v => v
  | None => JStr "8-12"
  end.

Definition system_prompt : string :=
  "You are a STEM-for-kids helper for parents. Keep answers friendly, concise, age-appropriate. If chemicals/heat are involved, include a 1-line safety note and 'adult supervision'.".

(** The template of the user message; [question] is a string by then. *)
Definition user_prompt (question : string) (child_age : json) : M string :=
  age <- to_string number_repr child_age ;;
  ret ("QUESTION: " ++ question ++ newline ++ "CHILD_AGE: " ++ age).

Definition ask_request (user : string) : gateway_request :=
  Request MODEL_name
          [ Message "system" (JStr system_prompt);
            Message "user" (JStr user) ]
          None true.

Definition temperature : Q := 7 # 10.

Definition stream_headers : list (string * string) :=
  [ ("Content-Type", "text/event-stream; charset=utf-8");
    ("Cache-Control", "no-cache, no-transform");
    ("Connection", "keep-alive") ].

Definition closing_note : string := newline ++ "[stream closed due to error]".

(** [await openai.chat.completions.create({ ..., stream: true, temperature: 0.7 })] *)
Definition chat_stream (r : gateway_request) : M (list chunk * option string) :=
  emit (EvCreate openai_client r) ;;;
  match create_stream openai_client r temperature with
  | StreamRejected reason => throw (Error reason)
  | Stream chunks failure => ret (chunks, failure)
  end.

(** The body of [for await (const part of stream)]:
    [if (delta) res.write(delta)]. *)
Definition forward (c : chunk) : M unit :=
  match chunk_content c with
  | Some delta => if truthy (JStr delta) then res_write delta else ret tt
  | None => ret tt
  end.

Fixpoint for_await (chunks : list chunk) (failure : option string) : M unit :=
  match chunks with
  | [] =>
      match failure with
      | Some reason => throw (Error reason)
      | None => ret tt
      end
  | c :: rest => forward c ;;; for_await rest failure
  end.

(** [res.end(data)] *)
Definition res_end_with (data : string) : M unit := res_write data ;;; res_end.

(** [app.post("/api/ask", ...)] *)
Definition ask (req_body : json) : M unit :=
  let b := body_or_empty req_body in
  match get "question" b with
  | Some (JStr question) =>
      if truthy (JStr question) then
        try_catch
          (res_writeHead 200 stream_headers ;;;
           user <- user_prompt question (child_age_of b) ;;
           s <- chat_stream (ask_request user) ;;
           for_await (fst s) (snd s) ;;;
           res_end)
          (fun e =>
             sent <- gets (fun st => headersSent (res st)) ;;
             if sent : bool
             then try_catch (res_end_with closing_note) (fun _ => ret tt)
             else
               res_status 500 ;;;
               res_json (Document (JObj [ ("error", JStr "ask_failed");
                                          ("status", status_of e) ])))
      else res_status 400 ;;; res_json (ErrorBody "question is required" None)
  | _ => res_status 400 ;;; res_json (ErrorBody "question is required" None)
  end.

End Handlers.

End Backup.

(** ** Further notions *)

Module Further.
Import JS Zod Runtime Server Endpoint Expected.
Local Open Scope handler_scope.

(** *** Streams *)

(** The fragments of a stream that [/api/ask] passes on: per chunk, the
    content of the first choice when it is a non-empty string. *)
Definition forwarded (chunks : list chunk) : list string :=
  flat_map (fun c => match chunk_content c with
                     | Some fragment => if truthy (JStr fragment) then [fragment] else []
                     | None => []
                     end) chunks.

(** A stream that does not end normally, with the chunks it delivered. *)
Definition interrupted (reply : stream_reply) : option (list chunk) :=
  match reply with
  | StreamRejected _ => Some []
  | Stream chunks (Some _) => Some chunks
  | Stream _ None => None
  end.

(** The response object of [/api/ask] once the headers are out and the
    given frames are written. *)
Definition streaming (code : Z) (frames : list string) (finished : bool) : response :=
  Response code sse_headers true None frames finished.

Fixpoint all_chars (f : ascii -> bool) (s : string) : bool :=
  match s with
  | EmptyString => true
  | String c rest => f c && all_chars f rest
  end.

(** No control character, in particular no line break. *)
Definition printable (s : string) : bool :=
  all_chars (fun c => (32 <=? N_of_ascii c)%N) s.

(** *** The blocking endpoints *)

Definition system_prompt (e : blocking) : string :=
  match e with
  | Character => character_system_prompt
  | Story => story_system_prompt
  end.

(** The request a blocking endpoint sends for a user instruction. *)
Definition blocking_request (e : blocking) (model_name user : string) : gateway_request :=
  Request model_name
          [ Message "system" (JStr (system_prompt e)); Message "user" (JStr user) ]
          (Some "json_object") false.

(** [user] is the user instruction composed from a validated request. *)
Definition composes (number_repr : Q -> string) (e : blocking) (request : json)
           (user : string) : Prop :=
  forall st, composer number_repr e request st = (Done user, st).

(** Composing the user instruction from a validated request throws. *)
Definition fails_to_compose (number_repr : Q -> string) (e : blocking) (request : json)
           (error : exn) : Prop :=
  forall st, composer number_repr e request st = (Thrown error, st).

(** Whether the user instruction can be composed from a validated
    request: the characters of a story request are converted to strings,
    and the conversion throws for a character that is, or holds, an
    object with a member of its own called [toString]. *)
Definition convertible (number_repr : Q -> string) (e : blocking) (request : json) : bool :=
  match e with
  | Character => true
  | Story =>
      match get "characters" request with
      | Some (JArr items) =>
          match Array_join number_repr ", " items with
          | Some _ => true
          | None => false
          end
      | _ => true
      end
  end.

(** What a blocking endpoint answers, by cases on the reply of the
    gateway. *)
Definition blocking_outcome (e : blocking) (number_repr : Q -> string)
           (JSON_parse : string -> option json)
           (reply : completion_reply) (p1 : process) : state :=
  let label := failure_label e in
  match reply with
  | Rejected reason => State p1 (failure label (Text reason))
  | Completion [] =>
      State p1 (failure label (Text "Cannot read properties of undefined (reading 'message')"))
  | Completion (content :: _) =>
      let parsed := safeParseJSON number_repr JSON_parse (of_content content) in
      if truthy parsed then
        let p2 := logged (EvParse (response_schema e) parsed) p1 in
        match safeParse (response_schema e) parsed with
        | Valid result => State p2 (answer (document result))
        | Invalid issues => State p2 (failure label (Issues issues))
        end
      else State p1 (failure label (Text "Failed to parse OpenAI response"))
  end.

(** The members a response must carry: those without a default. *)
Definition required_members (e : blocking) : list string :=
  match e with
  | Character =>
      [ "name"; "species_or_type"; "visual_description"; "personality";
        "stem_domain"; "do_not_copy" ]
  | Story =>
      [ "title"; "opening"; "scenes"; "closing"; "moral"; "educational_goals";
        "total_duration" ]
  end.

(** *** Requests *)

(** A member that is absent or a string. *)
Definition string_or_absent (v : option json) : bool :=
  match v with
  | None => true
  | Some (JStr _) => true
  | Some _ => false
  end.

(** A member that is absent or a non-empty string. *)
Definition text_or_absent (v : option json) : bool :=
  match v with
  | None => true
  | Some (JStr s) => negb (String.eqb s EmptyString)
  | Some _ => false
  end.

(** The payloads [CharacterReq] lets through. *)
Definition character_payload (b : json) : bool :=
  match b with
  | JObj fields =>
      text_or_absent (lookup "prompt" fields)
      && string_or_absent (lookup "audience" fields)
      && string_or_absent (lookup "style" fields)
      && string_or_absent (lookup "constraints" fields)
  | _ => false
  end.

Definition validated_character (prompt audience style constraints : string) : json :=
  JObj [ ("prompt", JStr prompt);
         ("audience", JStr audience);
         ("style", JStr style);
         ("constraints", JStr constraints) ].

Definition character_template (prompt audience style constraints : string) : string :=
  "Design a character with these requirements: " ++ prompt
  ++ ". Target audience: " ++ audience
  ++ ". Style: " ++ style
  ++ ". Constraints: " ++ constraints.

(** What [res.json] throws once the headers are out. *)
Definition headers_sent_error : exn :=
  Error "Cannot set headers after they are sent to the client".

(** *** [server.backup.js] *)

(** The question [/api/ask] of [server.backup.js] lets through: a
    non-empty string. *)
Definition askable (req_body : json) : option string :=
  match get "question" (Backup.body_or_empty req_body) with
  | Some (JStr question) => if truthy (JStr question) then Some question else None
  | _ => None
  end.

(** The plain-text response of [server.backup.js] with the given pieces
    written and the response ended. *)
Definition plain (pieces : list string) : response :=
  Response 200
           [ ("Content-Type", "text/event-stream; charset=utf-8");
             ("Cache-Control", "no-cache, no-transform");
             ("Connection", "keep-alive") ]
           true None pieces true.

(** The user message of [/api/ask] of [server.backup.js]. *)
Definition backup_request (model_name question age : string) : gateway_request :=
  Request model_name
          [ Message "system" (JStr Backup.system_prompt);
            Message "user"
                    (JStr ("QUESTION: " ++ question ++ newline ++ "CHILD_AGE: " ++ age)) ]
          None true.

(** *** Schemas *)

(** Whether a parse succeeds, and with what, does not depend on the
    path: the path only labels the issues. *)
Definition path_free (s : schema) : Prop :=
  forall p p' input output,
    zparse s p input = Valid output -> zparse s p' input = Valid output.

(** Parsing again what a parse returned returns it again. *)
Definition settled (s : schema) : Prop :=
  forall p p' input output,
    zparse s p input = Valid (Some output) ->
    zparse s p' (Some output) = Valid (Some output).

Fixpoint unique (keys : list string) : bool :=
  match keys with
  | [] => true
  | k :: rest => negb (existsb (String.eqb k) rest) && unique rest
  end.

(** Every object of the schema names each of its members once. *)
Fixpoint distinct_keys (s : schema) : bool :=
  match s with
  | z_array item => distinct_keys item
  | z_object shape =>
      unique (map fst shape)
      && forallb (fun member => match member with
                                | (_, field) => distinct_keys field
                                end) shape
  | z_optional inner => distinct_keys inner
  | z_default inner _ => distinct_keys inner
  | _ => true
  end.

(** The schemas of the listing. *)
Definition schemas : list schema := [CharacterReq; CharacterRes; StoryReq; StoryRes].

End Further.

(** * Properties *)

(** ** Facts about the schema interpreter *)

Module ZodFacts.
Import JS Zod.

Lemma safeParse_object shape fields :
  safeParse (z_object shape) (JObj fields)
  = let (issues, out) := parse_members shape [] fields in finish issues (JObj out).
Proof. reflexivity. Qed.

Lemma finish_invalid issues output l : finish issues output = Invalid l -> l <> [].
Proof. destruct issues; simpl; intros H; inversion H; discriminate. Qed.

Lemma checked_invalid input issues l : checked input issues = Invalid l -> l <> [].
Proof. destruct issues; simpl; intros H; inversion H; discriminate. Qed.

(** A failed parse always names at least one issue. *)
Lemma invalid_nonempty s : forall p input l, zparse s p input = Invalid l -> l <> [].
Proof.
  induction s; intros p input l H; simpl in H.
  - destruct input as [[]|]; try (inversion H; discriminate).
    eapply checked_invalid; eassumption.
  - destruct input as [[]|]; try (inversion H; discriminate).
    eapply checked_invalid; eassumption.
  - discriminate.
  - destruct input as [[]|]; try (inversion H; discriminate).
    destruct (parse_elements (zparse s) p items 0).
    eapply finish_invalid; eassumption.
  - destruct input as [[]|]; try (inversion H; discriminate).
    match type of H with
    | (let (_, _) := ?m in _) = _ => destruct m
    end.
    eapply finish_invalid; eassumption.
  - destruct input; [eauto | discriminate].
  - destruct input; eauto.
Qed.

(** A value that is present is never parsed to [undefined]. *)
Lemma present_stays_defined s : forall p x, zparse s p (Some x) <> Valid None.
Proof.
  induction s; intros p x; simpl.
  - destruct x; try discriminate. destruct (flat_map _ _); discriminate.
  - destruct x; try discriminate. destruct (flat_map _ _); discriminate.
  - discriminate.
  - destruct x; try discriminate.
    destruct (parse_elements _ _ _ _) as [[|] ?]; discriminate.
  - destruct x; try discriminate.
    match goal with
    | |- (let (_, _) := ?m in _) <> _ => destruct m as [[|] ?]
    end; discriminate.
  - apply IHs.
  - apply IHs.
Qed.

Lemma always_defined_output s p input :
  always_defined s = true -> zparse s p input <> Valid None.
Proof.
  destruct s; simpl; try discriminate; intros _.
  - destruct input as [[]|]; try discriminate; destruct (flat_map _ _); discriminate.
  - destruct input as [[]|]; try discriminate; destruct (flat_map _ _); discriminate.
  - destruct input as [[]|]; try discriminate.
    destruct (parse_elements _ _ _ _) as [[|] ?]; discriminate.
  - destruct input as [[]|]; try discriminate.
    match goal with
    | |- (let (_, _) := ?m in _) <> _ => destruct m as [[|] ?]
    end; discriminate.
  - destruct input; apply present_stays_defined.
Qed.

Lemma parse_members_cons k field shape p fields :
  parse_members ((k, field) :: shape) p fields
  = add_member k (zparse field (p ++ [PKey k])%list (lookup k fields))
               (parse_members shape p fields).
Proof. reflexivity. Qed.

(** One invalid member makes the object invalid. *)
Lemma parse_members_invalid shape p fields k field l :
  In (k, field) shape ->
  zparse field (p ++ [PKey k])%list (lookup k fields) = Invalid l ->
  fst (parse_members shape p fields) <> [].
Proof.
  induction shape as [|[k' field'] shape IH]; intros Hin Hbad; [destruct Hin|].
  rewrite parse_members_cons.
  destruct Hin as [Heq | Hin].
  - inversion Heq; subst. rewrite Hbad.
    destruct (parse_members shape p fields) as [issues out]; simpl.
    pose proof (invalid_nonempty _ _ _ Hbad) as Hl.
    destruct l; [congruence | discriminate].
  - specialize (IH Hin Hbad).
    destruct (parse_members shape p fields) as [issues out]; simpl in *.
    destruct (zparse field' _ _) as [[v|]|e]; simpl; auto.
    destruct e; simpl; [assumption | discriminate].
Qed.

Lemma parse_members_valid shape p fields out :
  forallb (fun member => always_defined (snd member)) shape = true ->
  parse_members shape p fields = ([], out) ->
  Forall2 (member_parsed p fields) shape out.
Proof.
  revert out.
  induction shape as [|[k field] shape IH]; intros out Hdef H.
  - inversion H. constructor.
  - simpl in Hdef. apply andb_prop in Hdef as [Hk Hrest].
    rewrite parse_members_cons in H.
    destruct (parse_members shape p fields) as [issues rest].
    unfold add_member in H.
    destruct (zparse field _ _) as [[v|]|e] eqn:E.
    + inversion H; subst. constructor.
      * split; [reflexivity | exact E].
      * apply IH; auto.
    + exfalso. eapply always_defined_output; eassumption.
    + exfalso. inversion H as [[Happ Hout]].
      apply app_eq_nil in Happ as [He _].
      eapply invalid_nonempty; eassumption.
Qed.

(** What the member schemas of the server accept. *)
Lemma string_member checks p input v :
  zparse (z_string checks) p input = Valid (Some v) ->
  input = Some v /\ exists s, v = JStr s.
Proof.
  simpl. destruct input as [[]|]; try discriminate.
  destruct (flat_map _ _); simpl; [|discriminate].
  intros H; inversion H; subst. eauto.
Qed.

Lemma defaulted_string_member checks d p input v :
  zparse (z_default (z_string checks) (JStr d)) p input = Valid (Some v) ->
  exists s, v = JStr s /\ (input = Some v \/ (input = None /\ s = d)).
Proof.
  simpl. destruct input as [j|].
  - intros H. apply (string_member checks p (Some j)) in H as [Hin [s Hs]].
    exists s. auto.
  - destruct (flat_map _ _); simpl; [|discriminate].
    intros H; inversion H; subst. eauto.
Qed.

Lemma strings_unchanged p items : forall i issues out,
  parse_elements (zparse (z_string [])) p items i = (issues, out) ->
  issues = [] -> out = items /\ Forall (fun x => exists s, x = JStr s) items.
Proof.
  induction items as [|x items IH]; intros i issues out H Hnil; simpl in H.
  - inversion H; auto.
  - destruct (parse_elements _ p items (S i)) as [issues' out'] eqn:E.
    destruct x; simpl in H; inversion H; subst; try discriminate.
    destruct (IH _ _ _ E eq_refl) as [-> Hall]. split; eauto.
Qed.

Lemma anything_unchanged p items : forall i,
  parse_elements (zparse z_any) p items i = ([], items).
Proof.
  induction items as [|x items IH]; intros i; simpl; [reflexivity|].
  rewrite IH. reflexivity.
Qed.



Lemma lookup_defined_key k fields : lookup k fields <> None -> In k (map fst fields).
Proof.
  induction fields as [|[k' v'] rest IH]; simpl; [congruence|].
  destruct (String.eqb k' k) eqn:E; [|auto].
  apply String.eqb_eq in E. auto.
Qed.

Lemma object_valid shape fields result :
  forallb (fun member => always_defined (snd member)) shape = true ->
  safeParse (z_object shape) (JObj fields) = Valid (Some result) ->
  exists out, result = JObj out /\ Forall2 (member_parsed [] fields) shape out.
Proof.
  intros Hdef H. rewrite safeParse_object in H.
  destruct (parse_members shape [] fields) as [issues out] eqn:E.
  destruct issues; simpl in H; [|discriminate].
  inversion H; subst. exists out. split; [reflexivity|].
  apply parse_members_valid; assumption.
Qed.

Lemma object_expected shape input result :
  safeParse (z_object shape) input = Valid (Some result) ->
  exists fields, input = JObj fields.
Proof. destruct input; simpl; try discriminate. eauto. Qed.


End ZodFacts.

(** ** Facts about the handler monad and the client handle *)

Module HandleFacts.
Import JS Zod Runtime Server Expected.
Local Open Scope handler_scope.

Lemma getOpenAI_succeeds st c :
  usable_client (proc st) = Some c ->
  getOpenAI st = (Done c, State (ensured (proc st)) (res st)).
Proof.
  destruct st as [p r].
  cbv [getOpenAI bind gets ret throw new_OpenAI set_openai emit logged modify with_proc
       proc res usable_client ensured].
  destruct (openai p) as [c0|].
  - intros H; inversion H; subst. destruct p; reflexivity.
  - destruct (nonempty (OPENAI_API_KEY (env p))) as [k|]; [|discriminate].
    intros H; inversion H; subst. reflexivity.
Qed.

Lemma getOpenAI_fails st :
  usable_client (proc st) = None ->
  getOpenAI st = (Thrown (Error "OPENAI_API_KEY not set"), st).
Proof.
  destruct st as [p r].
  cbv [getOpenAI bind gets ret throw proc res usable_client].
  destruct (openai p); [discriminate|].
  destruct (nonempty (OPENAI_API_KEY (env p))); [discriminate | reflexivity].
Qed.

Lemma ensured_openai p c : usable_client p = Some c -> openai (ensured p) = Some c.
Proof.
  unfold usable_client, ensured. destruct (openai p) eqn:E.
  - intros H; inversion H; subst. exact E.
  - destruct (nonempty _); [|discriminate]. intros H; inversion H; reflexivity.
Qed.

Lemma ensured_twice p c : usable_client p = Some c -> ensured (ensured p) = ensured p.
Proof.
  intros H. apply ensured_openai in H.
  unfold ensured at 1. rewrite H. reflexivity.
Qed.

Lemma constructions_app t1 t2 :
  constructions (t1 ++ t2) = (constructions t1 + constructions t2)%nat.
Proof. unfold constructions. rewrite filter_app, length_app. reflexivity. Qed.

Lemma gateway_calls_app t1 t2 :
  gateway_calls (t1 ++ t2) = (gateway_calls t1 ++ gateway_calls t2)%list.
Proof. unfold gateway_calls. apply flat_map_app. Qed.

Lemma validations_app t1 t2 :
  validations (t1 ++ t2) = (validations t1 ++ validations t2)%list.
Proof. unfold validations. apply flat_map_app. Qed.

Lemma ensured_gateway_calls p :
  gateway_calls (trace (ensured p)) = gateway_calls (trace p).
Proof.
  unfold ensured. destruct (openai p); [reflexivity|].
  destruct (nonempty _); [|reflexivity].
  simpl. rewrite gateway_calls_app. simpl. apply app_nil_r.
Qed.

Section Combinators.
Context {A B : Type}.

Lemma stable_ret (a : A) : stable (ret a).
Proof. intros st; simpl; auto. Qed.

Lemma stable_throw (e : exn) : stable (@throw A e).
Proof. intros st; simpl; auto. Qed.

Lemma stable_gets (f : state -> A) : stable (gets f).
Proof. intros st; simpl; auto. Qed.

Lemma stable_bind (m : M A) (k : A -> M B) :
  stable m -> (forall a, stable (k a)) -> stable (bind m k).
Proof.
  intros Hm Hk st. unfold bind. specialize (Hm st).
  destruct (m st) as [[a|e] st']; simpl in *; [|exact Hm].
  destruct (Hk a st') as (H1 & H2 & H3 & H4). destruct Hm as (G1 & G2 & G3 & G4).
  repeat split; congruence.
Qed.

Lemma stable_try (m : M A) (h : exn -> M A) :
  stable m -> (forall e, stable (h e)) -> stable (try_catch m h).
Proof.
  intros Hm Hh st. unfold try_catch. specialize (Hm st).
  destruct (m st) as [[a|e] st']; simpl in *; [exact Hm|].
  destruct (Hh e st') as (H1 & H2 & H3 & H4). destruct Hm as (G1 & G2 & G3 & G4).
  repeat split; congruence.
Qed.

Lemma agree_ret (a : A) : agree (ret a).
Proof. intros st1 st2 H; simpl; auto. Qed.

Lemma agree_throw (e : exn) : agree (@throw A e).
Proof. intros st1 st2 H; simpl; auto. Qed.

Lemma agree_bind (m : M A) (k : A -> M B) :
  agree m -> (forall a, agree (k a)) -> agree (bind m k).
Proof.
  intros Hm Hk st1 st2 H. unfold bind. specialize (Hm st1 st2 H).
  destruct (m st1) as [[a1|e1] st1'], (m st2) as [[a2|e2] st2'];
    simpl in *; destruct Hm as [Hout Hsim]; inversion Hout; subst;
    [apply Hk; assumption | auto].
Qed.

Lemma agree_try (m : M A) (h : exn -> M A) :
  agree m -> (forall e, agree (h e)) -> agree (try_catch m h).
Proof.
  intros Hm Hh st1 st2 H. unfold try_catch. specialize (Hm st1 st2 H).
  destruct (m st1) as [[a1|e1] st1'], (m st2) as [[a2|e2] st2'];
    simpl in *; destruct Hm as [Hout Hsim]; inversion Hout; subst;
    [auto | apply Hh; assumption].
Qed.
End Combinators.

Lemma stable_with_res (f : response -> response) : stable (modify (with_res f)).
Proof. intros st; simpl; auto. Qed.

Lemma agree_with_res (f : response -> response) : agree (modify (with_res f)).
Proof.
  intros st1 st2 (H1 & H2 & H3); simpl. split; [reflexivity|].
  repeat split; simpl; congruence.
Qed.

Lemma usable_client_logged e p :
  observation e = true -> usable_client (logged e p) = usable_client p.
Proof.
  intros H. unfold usable_client, logged; simpl.
  rewrite constructions_app.
  destruct e; try discriminate; simpl; rewrite Nat.add_0_r; reflexivity.
Qed.

Lemma stable_emit e : observation e = true -> stable (emit e).
Proof.
  intros H st. unfold emit, modify, with_proc; cbn [fst snd proc res].
  repeat split. apply (usable_client_logged e (proc st) H).
Qed.

Lemma agree_emit e : observation e = true -> agree (emit e).
Proof.
  intros H st1 st2 (H1 & H2 & H3).
  unfold emit, modify, with_proc; cbn [fst snd proc res].
  split; [reflexivity|]. repeat split; auto.
  cbn [proc].
  rewrite (usable_client_logged e (proc st1) H), (usable_client_logged e (proc st2) H).
  assumption.
Qed.

Lemma agree_sent : agree (gets (fun st => headersSent (res st))).
Proof. intros st1 st2 (H1 & H2 & H3); simpl. rewrite H1. repeat split; auto. Qed.

Lemma agree_model : agree (gets (fun st => MODEL (proc st))).
Proof. intros st1 st2 (H1 & H2 & H3); simpl. rewrite H2. repeat split; auto. Qed.

Lemma usable_client_ensured p : usable_client (ensured p) = usable_client p.
Proof.
  unfold usable_client at 2. unfold ensured.
  destruct (openai p) eqn:E.
  - unfold usable_client. rewrite E. reflexivity.
  - destruct (nonempty _) eqn:K; [reflexivity|].
    unfold usable_client. rewrite E, K. reflexivity.
Qed.

Lemma ensured_frame p : env (ensured p) = env p /\ MODEL (ensured p) = MODEL p.
Proof.
  unfold ensured. destruct (openai p); auto. destruct (nonempty _); auto.
Qed.

Lemma ensured_hits p : hits (ensured p) = hits p.
Proof.
  unfold ensured. destruct (openai p); auto. destruct (nonempty _); auto.
Qed.

Lemma stable_getOpenAI : stable getOpenAI.
Proof.
  intros st. destruct (usable_client (proc st)) as [c|] eqn:E.
  - rewrite (getOpenAI_succeeds st E); simpl.
    destruct (ensured_frame (proc st)). repeat split; auto.
    + rewrite usable_client_ensured. exact E.
    + apply ensured_hits.
  - rewrite (getOpenAI_fails st E); simpl. auto.
Qed.

Lemma agree_getOpenAI : agree getOpenAI.
Proof.
  intros st1 st2 (H1 & H2 & H3).
  destruct (usable_client (proc st1)) as [c|] eqn:E.
  - rewrite (getOpenAI_succeeds st1 E).
    rewrite (getOpenAI_succeeds st2 (eq_sym H3)); simpl.
    split; [reflexivity|]. repeat split; simpl; auto.
    + destruct (ensured_frame (proc st1)), (ensured_frame (proc st2)); congruence.
    + rewrite !usable_client_ensured. congruence.
  - rewrite (getOpenAI_fails st1 E).
    rewrite (getOpenAI_fails st2 (eq_sym H3)); simpl.
    split; [reflexivity|]. repeat split; auto. congruence.
Qed.

End HandleFacts.


(** ** Running the handlers *)

Module HandlerFacts.
Import JS Zod Runtime Server Endpoint Expected Further ZodFacts HandleFacts.
Local Open Scope handler_scope.

Lemma bind_done {A B} (m : M A) (k : A -> M B) st a st' :
  m st = (Done a, st') -> bind m k st = k a st'.
Proof. intros H. unfold bind. rewrite H. reflexivity. Qed.

Lemma bind_thrown {A B} (m : M A) (k : A -> M B) st e st' :
  m st = (Thrown e, st') -> bind m k st = (Thrown e, st').
Proof. intros H. unfold bind. rewrite H. reflexivity. Qed.

Lemma try_done {A} (m : M A) (h : exn -> M A) st a st' :
  m st = (Done a, st') -> try_catch m h st = (Done a, st').
Proof. intros H. unfold try_catch. rewrite H. reflexivity. Qed.

Lemma try_thrown {A} (m : M A) (h : exn -> M A) st e st' :
  m st = (Thrown e, st') -> try_catch m h st = h e st'.
Proof. intros H. unfold try_catch. rewrite H. reflexivity. Qed.

Lemma schema_parse_valid s d v st :
  safeParse s d = Valid v ->
  schema_parse s d st = (Done v, State (logged (EvParse s d) (proc st)) (res st)).
Proof. intros H. unfold schema_parse, bind, emit, modify, with_proc, ret. rewrite H. reflexivity. Qed.

Lemma schema_parse_invalid s d l st :
  safeParse s d = Invalid l ->
  schema_parse s d st
  = (Thrown (ZodError l), State (logged (EvParse s d) (proc st)) (res st)).
Proof. intros H. unfold schema_parse, bind, emit, modify, with_proc, throw. rewrite H. reflexivity. Qed.

(** The [catch] clause of a blocking endpoint, from a response whose
    headers are not out yet. *)
Lemma report_failure label e p :
  (res_status 500 ;;; res_json (ErrorBody label (Some (message_of e))))
    (State p fresh_response)
  = (Done tt, State p (failure label (message_of e))).
Proof. reflexivity. Qed.

(** A request that fails validation: the only thing that happens is the
    call of [parse]; the [catch] clause answers. *)
Lemma invalid_request_run number_repr JSON_parse create e b issues p :
  safeParse (request_schema e) b = Invalid issues ->
  run (handler number_repr JSON_parse create e b) p
  = (Done tt, State (logged (EvParse (request_schema e) b) p)
                    (failure (failure_label e) (Issues issues))).
Proof.
  intros H. unfold run.
  destruct e; unfold handler, character, story;
    (erewrite try_thrown
      by (erewrite bind_thrown by (apply schema_parse_invalid; exact H); reflexivity));
    apply (report_failure _ (ZodError issues)).
Qed.

Lemma character_members fields request :
  safeParse CharacterReq (JObj fields) = Valid (Some request) ->
  exists prompt audience style constraints,
    request = validated_character prompt audience style constraints
    /\ (lookup "prompt" fields = Some (JStr prompt)
        \/ (lookup "prompt" fields = None
            /\ prompt = "Create a kid-friendly STEM character."))
    /\ (lookup "audience" fields = Some (JStr audience)
        \/ (lookup "audience" fields = None /\ audience = "ages 6–10"))
    /\ (lookup "style" fields = Some (JStr style)
        \/ (lookup "style" fields = None /\ style = "bright 2D cartoon"))
    /\ (lookup "constraints" fields = Some (JStr constraints)
        \/ (lookup "constraints" fields = None
            /\ constraints = "original; no resemblance to existing IP")).
Proof.
  intros H. apply object_valid in H as (out & -> & Hall); [|reflexivity].
  repeat match goal with
         | H : Forall2 _ (_ :: _) _ |- _ => inversion H; clear H; subst
         | H : Forall2 _ [] _ |- _ => inversion H; clear H; subst
         | H : member_parsed _ _ _ ?entry |- _ =>
             destruct entry; destruct H as [? H]; cbn [fst snd] in *; subst
         end.
  repeat match goal with
         | H : zparse (z_default (z_string _) (JStr _)) _ _ = Valid (Some _) |- _ =>
             apply defaulted_string_member in H as (? & -> & ?)
         end.
  do 4 eexists. split; [reflexivity|]. repeat split; assumption.
Qed.

(** The four members of a validated character request are strings, so
    the template is filled without a conversion that could throw. *)
Lemma character_prompt_valid number_repr b request :
  safeParse CharacterReq b = Valid (Some request) ->
  forall st, character_user_prompt number_repr request st
             = (Done (character_text number_repr request), st).
Proof.
  intros H st. destruct (object_expected _ _ H) as [fields ->].
  destruct (character_members _ H) as (p & a & s & c & -> & _).
  reflexivity.
Qed.

Lemma character_run number_repr JSON_parse create p b body c :
  safeParse CharacterReq b = Valid (Some body) ->
  usable_client p = Some c ->
  let request := character_request number_repr (MODEL p) body in
  run (character number_repr JSON_parse create b) p
  = (Done tt,
     character_outcome number_repr JSON_parse (create c request)
       (logged (EvCreate c request) (ensured (logged (EvParse CharacterReq b) p)))).
Proof.
  intros Hvalid Hclient request.
  assert (Hc : usable_client (logged (EvParse CharacterReq b) p) = Some c)
    by (rewrite usable_client_logged; auto).
  assert (Hmodel : MODEL (ensured (logged (EvParse CharacterReq b) p)) = MODEL p)
    by (destruct (ensured_frame (logged (EvParse CharacterReq b) p)) as [_ ->]; reflexivity).
  unfold run, character, try_catch.
  erewrite bind_done by (apply schema_parse_valid; exact Hvalid).
  erewrite bind_done by (apply getOpenAI_succeeds; exact Hc).
  unfold bind at 1. unfold gets at 1. cbn [proc res].
  unfold bind at 1. unfold object_of at 1. unfold ret at 1.
  erewrite bind_done by (apply (character_prompt_valid number_repr _ Hvalid)).
  rewrite Hmodel.
  fold (character_request number_repr (MODEL p) body). fold request.
  unfold bind at 1. unfold chat_create at 1. unfold bind at 1, emit, modify, with_proc.
  cbn [proc res].
  unfold character_outcome.
  destruct (create c request) as [reason | [|content others]]; try reflexivity.
  unfold ret at 1. unfold bind at 1. unfold first_content, ret at 1.
  cbv zeta.
  destruct (truthy (safeParseJSON number_repr JSON_parse (of_content content)));
    [|reflexivity].
  cbn [negb]. unfold bind at 1, schema_parse, bind at 1, emit, modify, with_proc.
  cbn [proc res].
  destruct (safeParse CharacterRes _) as [result|issues]; reflexivity.
Qed.

(** *** Every handler is stable and agrees with itself *)

Ltac handler_step stable_bind' stable_try' leaf :=
  first
    [ leaf
    | apply stable_bind'; [| intro]
    | apply stable_try'; [| intro]
    | progress cbv beta zeta
    | match goal with
      | |- _ (match ?x with _ => _ end) => destruct x
      end ].

Ltac stable_leaf :=
  first [ apply stable_ret | apply stable_throw | apply stable_gets
        | apply stable_with_res | apply stable_getOpenAI
        | apply stable_emit; reflexivity ].

Ltac agree_leaf :=
  first [ apply agree_ret | apply agree_throw | apply agree_sent | apply agree_model
        | apply agree_with_res | apply agree_getOpenAI
        | apply agree_emit; reflexivity ].

Ltac unfold_handlers :=
  unfold handler, character, story, ask, character_user_prompt, story_user_prompt,
    call_join, interp, to_string, schema_parse,
    object_of, chat_create, chat_stream, first_content, destructure, sendSSEHeaders,
    forward, res_status, res_json, res_writeHead, res_write, res_end.

Ltac stable_tac := unfold_handlers; repeat handler_step @stable_bind @stable_try stable_leaf.
Ltac agree_tac := unfold_handlers; repeat handler_step @agree_bind @agree_try agree_leaf.

Section Handlers.
Variable number_repr : Q -> string.
Variable JSON_parse : string -> option json.
Variable create : client -> gateway_request -> completion_reply.
Variable create_stream : client -> gateway_request -> stream_reply.

Lemma stable_blocking e b : stable (handler number_repr JSON_parse create e b).
Proof. destruct e; stable_tac. Qed.

Lemma agree_blocking e b : agree (handler number_repr JSON_parse create e b).
Proof. destruct e; agree_tac. Qed.

Lemma stable_for_await chunks failure : stable (for_await number_repr chunks failure).
Proof. induction chunks as [|c rest IH]; simpl; [stable_tac | stable_tac; exact IH]. Qed.

Lemma stable_ask b : stable (ask number_repr create_stream b).
Proof.
  unfold ask, destructure, sendSSEHeaders, chat_stream,
    res_status, res_json, res_writeHead, res_write, res_end.
  repeat first [ apply stable_for_await
               | handler_step @stable_bind @stable_try stable_leaf ].
Qed.
End Handlers.

End HandlerFacts.

(** ** Request validation gates the gateway *)

Module Validation.
Import JS Zod Runtime Server Endpoint Expected ZodFacts HandleFacts HandlerFacts.

Lemma object_invalid shape fields :
  fst (parse_members shape [] fields) <> [] ->
  exists issues,
    issues <> [] /\ safeParse (z_object shape) (JObj fields) = Invalid issues.
Proof.
  intros H. rewrite safeParse_object.
  destruct (parse_members shape [] fields) as [issues out]; simpl in H.
  exists issues. split; [assumption|].
  destruct issues; [congruence | reflexivity].
Qed.

Lemma minutes_rejected p q :
  ~ (is_integer q = true /\ 1 <= q /\ q <= 15)%Q ->
  exists l,
    zparse (z_default (z_number [NInt; NMin (1 # 1); NMax (15 # 1)]) (JNum (3 # 1)))
           p (Some (JNum q)) = Invalid l.
Proof.
  intros H. simpl. unfold num_issue.
  destruct (is_integer q) eqn:Hint;
    destruct (Qle_bool (1 # 1) q) eqn:Hmin;
    destruct (Qle_bool q (15 # 1)) eqn:Hmax;
    simpl; eauto.
  exfalso. apply H. repeat split.
  - apply Qle_bool_iff. exact Hmin.
  - apply Qle_bool_iff. exact Hmax.
Qed.

(** What both blocking endpoints do with a request that fails
    validation: they answer with status 500 and an error body that
    carries the label of the endpoint and the issues found; nothing but
    the call of [parse] has happened by then: no client was constructed
    and the gateway was not called. *)
Lemma invalid_request_answered_before_gateway
        number_repr JSON_parse create e b issues p :
  safeParse (request_schema e) b = Invalid issues ->
  let h := handler number_repr JSON_parse create e b in
  reply_of h p = failure (failure_label e) (Issues issues)
  /\ server_error (statusCode (reply_of h p))
  /\ trace (after h p) = (trace p ++ [EvParse (request_schema e) b])%list
  /\ gateway_calls (trace (after h p)) = gateway_calls (trace p)
  /\ constructions (trace (after h p)) = constructions (trace p)
  /\ openai (after h p) = openai p.
Proof.
  intros H h. unfold reply_of, after, h.
  rewrite (invalid_request_run number_repr JSON_parse create e b p H).
  cbn [snd res proc]. unfold logged; cbn [trace openai].
  split; [reflexivity|].
  split; [unfold server_error, failure; cbn [statusCode]; lia|].
  split; [reflexivity|].
  split; [rewrite gateway_calls_app; simpl; apply app_nil_r|].
  split; [rewrite constructions_app; simpl; apply Nat.add_0_r | reflexivity].
Qed.

Lemma invalid_request_answered_before_gateway_witness :
  let b := JObj [("prompt", JNum (5 # 1))] in
  let issues := [Issue (invalid_type "string" "number") [PKey "prompt"]] in
  let p := start Stub.configured in
  let h := handler Stub.number_repr JsonText.JSON_parse Stub.unreachable Character b in
  safeParse CharacterReq b = Invalid issues
  /\ reply_of h p = failure "Character generation failed" (Issues issues)
  /\ server_error (statusCode (reply_of h p))
  /\ trace (after h p) = (trace p ++ [EvParse CharacterReq b])%list
  /\ gateway_calls (trace (after h p)) = gateway_calls (trace p)
  /\ constructions (trace (after h p)) = constructions (trace p)
  /\ openai (after h p) = openai p.
Proof.
  split; [reflexivity|].
  apply (invalid_request_answered_before_gateway
           Stub.number_repr JsonText.JSON_parse Stub.unreachable Character
           (JObj [("prompt", JNum (5 # 1))])).
  reflexivity.
Defined.

(** C1: a request to [/api/character] whose payload fails validation
    should be answered with a client error before the gateway is
    called.  For the payload whose [prompt] is the number 5, validation
    fails and the gateway is not called, but the answer has status 500
    and the label of a failed generation: it is not a client error. *)
Theorem invalid_request_is_not_a_client_error :
  let b := JObj [("prompt", JNum (5 # 1))] in
  let p := start Stub.configured in
  let h := handler Stub.number_repr JsonText.JSON_parse Stub.unreachable Character b in
  safeParse CharacterReq b = Invalid [Issue (invalid_type "string" "number") [PKey "prompt"]]
  /\ gateway_calls (trace (after h p)) = []
  /\ constructions (trace (after h p)) = 0%nat
  /\ reply_of h p
     = failure "Character generation failed"
               (Issues [Issue (invalid_type "string" "number") [PKey "prompt"]])
  /\ statusCode (reply_of h p) = 500
  /\ ~ client_error (statusCode (reply_of h p)).
Proof.
  cbv zeta.
  assert (E : reply_of (handler Stub.number_repr JsonText.JSON_parse Stub.unreachable
                                Character (JObj [("prompt", JNum (5 # 1))]))
                       (start Stub.configured)
              = failure "Character generation failed"
                        (Issues [Issue (invalid_type "string" "number") [PKey "prompt"]]))
    by reflexivity.
  split; [reflexivity|]. split; [reflexivity|]. split; [reflexivity|].
  rewrite E. split; [reflexivity|]. split; [reflexivity|].
  unfold client_error, failure; cbn [statusCode]. lia.
Qed.

(** C2: a story request whose [minutes] is a number outside the
    integers 1..15 fails validation, and the handler answers without the
    gateway having been called: the only thing recorded is the call of
    [parse]. *)
Theorem out_of_range_minutes_never_reaches_gateway
        number_repr JSON_parse create fields q p :
  lookup "minutes" fields = Some (JNum q) ->
  ~ (is_integer q = true /\ 1 <= q /\ q <= 15)%Q ->
  let h := story number_repr JSON_parse create (JObj fields) in
  (exists issues,
      issues <> []
      /\ safeParse StoryReq (JObj fields) = Invalid issues
      /\ reply_of h p = failure "Story generation failed" (Issues issues))
  /\ trace (after h p) = (trace p ++ [EvParse StoryReq (JObj fields)])%list
  /\ gateway_calls (trace (after h p)) = gateway_calls (trace p).
Proof.
  intros Hminutes Hrange h.
  destruct (minutes_rejected ([] ++ [PKey "minutes"]) Hrange) as [l Hl].
  destruct (@object_invalid
              [ ("title", z_default (z_string []) (JStr "Adventure in Volcano Valley"));
                ("topic", z_default (z_string []) (JStr "volcano science"));
                ("target_age", z_default (z_string []) (JStr "6–10"));
                ("minutes", z_default (z_number [NInt; NMin (1 # 1); NMax (15 # 1)])
                                      (JNum (3 # 1)));
                ("characters", z_default (z_array z_any) (JArr []));
                ("moral", z_default (z_string []) (JStr "Curiosity + safety"));
                ("educational_goals",
                 z_default (z_array (z_string []))
                           (JArr [ JStr "Basic volcano formation";
                                   JStr "Safety around natural phenomena";
                                   JStr "Scientific observation skills" ])) ]
              fields) as (issues & Hne & Hbad).
  { eapply parse_members_invalid.
    - right; right; right; left; reflexivity.
    - rewrite Hminutes. exact Hl. }
  fold StoryReq in Hbad.
  pose proof (invalid_request_run number_repr JSON_parse create Story (JObj fields) p Hbad)
    as Hrun.
  unfold reply_of, after, h. change (handler number_repr JSON_parse create Story)
    with (story number_repr JSON_parse create) in Hrun.
  rewrite Hrun. cbn [snd res proc]. unfold logged; cbn [trace].
  split; [exists issues; auto|].
  split; [reflexivity|].
  rewrite gateway_calls_app; simpl; apply app_nil_r.
Qed.

Lemma out_of_range_minutes_never_reaches_gateway_witness :
  let fields := [("minutes", JNum (16 # 1))] in
  let p := start Stub.configured in
  let h := story Stub.number_repr JsonText.JSON_parse (Stub.fixed "{}") (JObj fields) in
  (exists issues,
      issues <> []
      /\ safeParse StoryReq (JObj fields) = Invalid issues
      /\ reply_of h p = failure "Story generation failed" (Issues issues))
  /\ trace (after h p) = (trace p ++ [EvParse StoryReq (JObj fields)])%list
  /\ gateway_calls (trace (after h p)) = gateway_calls (trace p).
Proof.
  apply (out_of_range_minutes_never_reaches_gateway
           Stub.number_repr JsonText.JSON_parse (Stub.fixed "{}")
           [("minutes", JNum (16 # 1))] (q := 16 # 1)).
  - reflexivity.
  - intros (_ & _ & H). unfold Qle in H. simpl in H. lia.
Defined.

End Validation.

(** ** The blocking relay of [/api/character] *)

Module Blocking.
Import JS Zod Runtime Server Endpoint Expected ZodFacts HandleFacts HandlerFacts.

Lemma character_outcome_calls number_repr JSON_parse reply p1 :
  gateway_calls (trace (proc (character_outcome number_repr JSON_parse reply p1)))
  = gateway_calls (trace p1).
Proof.
  unfold character_outcome.
  destruct reply as [reason | [|content others]]; try reflexivity.
  cbv zeta. destruct (truthy _); [|reflexivity].
  destruct (safeParse CharacterRes _) as [result|issues];
    cbn [proc]; unfold logged; cbn [trace];
    rewrite gateway_calls_app; simpl; apply app_nil_r.
Qed.

(** C7: the empty object passes the character schema, every field takes
    its default, and the user prompt sent to the gateway is composed
    from these defaults. *)
Theorem empty_request_takes_defaults number_repr JSON_parse create p c :
  usable_client p = Some c ->
  let h := character number_repr JSON_parse create (JObj []) in
  safeParse CharacterReq (JObj []) = Valid (Some default_request)
  /\ (forall st,
        character_user_prompt number_repr default_request st = (Done default_prompt, st))
  /\ gateway_calls (trace (after h p))
     = (gateway_calls (trace p)
        ++ [ Request (MODEL p)
                     [ Message "system" (JStr character_system_prompt);
                       Message "user" (JStr default_prompt) ]
                     (Some "json_object") false ])%list.
Proof.
  intros Hclient h.
  split; [reflexivity|]. split; [intros st; reflexivity|].
  unfold after, h.
  rewrite (@character_run number_repr JSON_parse create p (JObj []) default_request c
             eq_refl Hclient).
  cbn [snd]. rewrite character_outcome_calls.
  unfold logged at 1; cbn [trace].
  rewrite gateway_calls_app, ensured_gateway_calls.
  unfold logged; cbn [trace]. rewrite gateway_calls_app. simpl.
  rewrite app_nil_r. reflexivity.
Qed.

Lemma empty_request_takes_defaults_witness :
  let p := start Stub.configured in
  let h := character Stub.number_repr JsonText.JSON_parse (Stub.fixed "{}") (JObj []) in
  usable_client p = Some (Client "sk-test" 0)
  /\ safeParse CharacterReq (JObj []) = Valid (Some default_request)
  /\ (forall st,
        character_user_prompt Stub.number_repr default_request st
        = (Done default_prompt, st))
  /\ gateway_calls (trace (after h p))
     = (gateway_calls (trace p)
        ++ [ Request (MODEL p)
                     [ Message "system" (JStr character_system_prompt);
                       Message "user" (JStr default_prompt) ]
                     (Some "json_object") false ])%list.
Proof.
  split; [reflexivity|].
  apply (@empty_request_takes_defaults
           Stub.number_repr JsonText.JSON_parse (Stub.fixed "{}")
           (start Stub.configured) (Client "sk-test" 0)).
  reflexivity.
Defined.

(** C3 (amended): when the gateway's reply to a valid character request
    is malformed (not JSON, falsy JSON, or JSON the response schema
    rejects), the endpoint answers with status 500 and an error body
    labelled "Character generation failed" whose detail is the reason;
    it does not answer 200 and sends no document, so no default stands
    in for the missing answer. *)
Theorem malformed_reply_is_reported
        number_repr JSON_parse create b request p c text others details :
  safeParse CharacterReq b = Valid (Some request) ->
  usable_client p = Some c ->
  create c (character_request number_repr (MODEL p) request)
  = Completion (Some text :: others) ->
  malformed JSON_parse text details ->
  let r := reply_of (character number_repr JSON_parse create b) p in
  r = failure "Character generation failed" details
  /\ server_error (statusCode r)
  /\ statusCode r <> 200
  /\ category r = Some "Character generation failed"
  /\ (forall result, body r <> Some (Document result)).
Proof.
  intros Hvalid Hclient Hreply Hbad r.
  assert (E : r = failure "Character generation failed" details).
  { unfold r, reply_of.
    rewrite (@character_run number_repr JSON_parse create p b request c Hvalid Hclient).
    cbv zeta. rewrite Hreply. cbn [snd].
    unfold character_outcome, safeParseJSON, of_content. cbn [ToString].
    destruct Hbad as [Hnone | j Hsome Hfalsy | j issues Hsome Htruthy Hshape];
      [rewrite Hnone | rewrite Hsome, Hfalsy | rewrite Hsome, Htruthy, Hshape];
      reflexivity. }
  rewrite E. unfold failure, server_error, category; cbn [statusCode body].
  repeat split; try lia; try discriminate.
Qed.

Lemma malformed_reply_is_reported_witness :
  let p := start Stub.configured in
  let r := reply_of (character Stub.number_repr JsonText.JSON_parse
                               (Stub.fixed "not json") (JObj [])) p in
  malformed JsonText.JSON_parse "not json" (Text "Failed to parse OpenAI response")
  /\ r = failure "Character generation failed" (Text "Failed to parse OpenAI response")
  /\ server_error (statusCode r)
  /\ statusCode r <> 200
  /\ category r = Some "Character generation failed"
  /\ (forall result, body r <> Some (Document result)).
Proof.
  assert (H : malformed JsonText.JSON_parse "not json"
                        (Text "Failed to parse OpenAI response"))
    by (apply not_json; reflexivity).
  split; [exact H|].
  apply (@malformed_reply_is_reported
           Stub.number_repr JsonText.JSON_parse (Stub.fixed "not json")
           (JObj []) default_request (start Stub.configured) (Client "sk-test" 0)
           "not json" [] (Text "Failed to parse OpenAI response"));
    [reflexivity | reflexivity | reflexivity | exact H].
Defined.

(** C3 as stated fails: for a reply that is not JSON, the label of the
    error body is not [MalformedUpstreamResponse]; it is the label the
    endpoint also uses when the gateway cannot be reached. *)
Lemma malformed_reply_has_no_category_of_its_own :
  let p := start Stub.configured in
  let malformed_reply :=
    reply_of (character Stub.number_repr JsonText.JSON_parse
                        (Stub.fixed "not json") (JObj [])) p in
  let unreachable_reply :=
    reply_of (character Stub.number_repr JsonText.JSON_parse
                        Stub.unreachable (JObj [])) p in
  JsonText.JSON_parse "not json" = None
  /\ category malformed_reply <> Some "MalformedUpstreamResponse"
  /\ category malformed_reply = category unreachable_reply.
Proof.
  cbv zeta. split; [reflexivity|].
  assert (E : category
                (reply_of (character Stub.number_repr JsonText.JSON_parse
                                     (Stub.fixed "not json") (JObj []))
                          (start Stub.configured))
              = Some "Character generation failed") by reflexivity.
  rewrite E. split; [discriminate | reflexivity].
Qed.

(** *** What the response schema does to a character sheet *)







End Blocking.

(** ** The prompt of [/api/story] *)

Module Prompt.
Import JS Zod Runtime Server Endpoint Expected ZodFacts HandleFacts HandlerFacts.

Lemma minutes_member p input v :
  zparse (z_default (z_number [NInt; NMin (1 # 1); NMax (15 # 1)]) (JNum (3 # 1))) p input
  = Valid (Some v) ->
  exists q, v = JNum q /\ (is_integer q = true /\ 1 <= q /\ q <= 15)%Q.
Proof.
  destruct input as [j|]; simpl.
  - destruct j; try discriminate. unfold num_issue.
    destruct (is_integer q) eqn:Hint;
      destruct (Qle_bool (1 # 1) q) eqn:Hmin;
      destruct (Qle_bool q (15 # 1)) eqn:Hmax;
      simpl; try discriminate.
    intros H; inversion H; subst. exists q.
    repeat split; try apply Qle_bool_iff; assumption.
  - intros H; inversion H; subst. exists (3 # 1).
    repeat split; unfold Qle; simpl; lia.
Qed.

Lemma characters_member p input v :
  zparse (z_default (z_array z_any) (JArr [])) p input = Valid (Some v) ->
  exists items, v = JArr items.
Proof.
  destruct input as [j|]; simpl.
  - destruct j; try discriminate. rewrite anything_unchanged. simpl.
    intros H; inversion H; eauto.
  - intros H; inversion H; eauto.
Qed.

Lemma strings_as_map items :
  Forall (fun x => exists s, x = JStr s) items -> exists l, items = map JStr l.
Proof.
  induction 1 as [|x items [s ->] _ [l ->]].
  - exists []; reflexivity.
  - exists (s :: l); reflexivity.
Qed.

Lemma goals_member d p input v :
  zparse (z_default (z_array (z_string [])) (JArr (map JStr d))) p input = Valid (Some v) ->
  exists goals, v = JArr (map JStr goals).
Proof.
  assert (G : forall items,
             zparse (z_array (z_string [])) p (Some (JArr items)) = Valid (Some v) ->
             exists goals, v = JArr (map JStr goals)).
  { intros items. simpl.
    destruct (parse_elements _ p items 0) as [issues out] eqn:E.
    destruct issues; simpl; [|discriminate].
    intros H; inversion H; subst.
    destruct (strings_unchanged _ _ _ E eq_refl) as [-> Hall].
    destruct (strings_as_map Hall) as [l ->]. eauto. }
  destruct input as [j|].
  - destruct j; try discriminate. apply G.
  - apply G.
Qed.

Lemma small_integer_rendering number_repr q :
  (is_integer q = true /\ 1 <= q /\ q <= 15)%Q ->
  Number_toString number_repr q = string_of_Z (floor q).
Proof.
  intros (Hint & Hmin & Hmax).
  unfold Qle in Hmin, Hmax. simpl in Hmin, Hmax.
  assert (Hlow : 1 <= floor q).
  { unfold floor. apply Z.div_le_lower_bound; lia. }
  assert (Hhigh : floor q <= 15).
  { unfold floor. apply Z.div_le_upper_bound; lia. }
  assert (Hle : (Z.abs (floor q) <=? 2 ^ 53) = true).
  { apply Z.leb_le. change (2 ^ 53) with 9007199254740992. lia. }
  unfold Number_toString. rewrite Hint, Hle. reflexivity.
Qed.

Lemma all_of_strings names : all_of (map (fun s : string => Some s) names) = Some names.
Proof.
  induction names as [|name names IH]; simpl; [reflexivity|].
  rewrite IH. reflexivity.
Qed.

Lemma join_strings number_repr sep names :
  Array_join number_repr sep (map JStr names) = Some (join sep names).
Proof.
  unfold Array_join. rewrite map_map. cbn [join_item ToString].
  rewrite all_of_strings. reflexivity.
Qed.

Lemma story_members fields request :
  safeParse StoryReq (JObj fields) = Valid (Some request) ->
  exists title topic age minutes characters moral goals,
    request = validated_story title topic age minutes characters moral goals
    /\ (is_integer minutes = true /\ 1 <= minutes /\ minutes <= 15)%Q.
Proof.
  intros H. apply object_valid in H as (out & -> & Hall); [|reflexivity].
  repeat match goal with
         | H : Forall2 _ (_ :: _) _ |- _ => inversion H; clear H; subst
         | H : Forall2 _ [] _ |- _ => inversion H; clear H; subst
         | H : member_parsed _ _ _ ?entry |- _ =>
             destruct entry; destruct H as [? H]; cbn [fst snd] in *; subst
         end.
  repeat match goal with
         | H : zparse (z_default (z_string _) (JStr _)) _ _ = Valid (Some _) |- _ =>
             apply defaulted_string_member in H as (? & -> & _)
         | H : zparse (z_default (z_number _) _) _ _ = Valid (Some _) |- _ =>
             apply minutes_member in H as (? & -> & ?)
         | H : zparse (z_default (z_array z_any) _) _ _ = Valid (Some _) |- _ =>
             apply characters_member in H as (? & ->)
         | H : zparse (z_default (z_array (z_string [])) _) _ _ = Valid (Some _) |- _ =>
             apply (goals_member [ "Basic volcano formation";
                                   "Safety around natural phenomena";
                                   "Scientific observation skills" ]) in H as (? & ->)
         end.
  do 7 eexists. split; [reflexivity | assumption].
Qed.

(** Composing the user instruction from a validated story request: the
    template is filled, unless the conversion of a character throws. *)
Lemma story_prompt_run number_repr title topic age minutes characters moral goals :
  (is_integer minutes = true /\ 1 <= minutes /\ minutes <= 15)%Q ->
  forall st,
    story_user_prompt number_repr
      (validated_story title topic age minutes characters moral goals) st
    = match Array_join number_repr ", " characters with
      | Some joined => (Done (story_template topic age minutes joined moral goals), st)
      | None => (Thrown unconvertible, st)
      end.
Proof.
  intros Hminutes st. unfold story_user_prompt, validated_story.
  change (get "characters" (JObj _)) with (Some (JArr characters)).
  change (get "educational_goals" (JObj _)) with (Some (JArr (map JStr goals))).
  change (get "topic" (JObj _)) with (Some (JStr topic)).
  change (get "target_age" (JObj _)) with (Some (JStr age)).
  change (get "minutes" (JObj _)) with (Some (JNum minutes)).
  change (get "moral" (JObj _)) with (Some (JStr moral)).
  unfold call_join, bind, ret, interp, to_string. cbn [ToString].
  rewrite (small_integer_rendering number_repr Hminutes), join_strings.
  destruct (Array_join number_repr ", " characters); reflexivity.
Qed.

(** C6 (amended): the user instruction of the story endpoint is a
    function of the validated request alone (composing it neither reads
    nor changes the state), and it renders the topic, the target age,
    the minutes, the characters, the moral and the educational goals, but
    not the title: the strings verbatim, the minutes in decimal, the
    goals and the characters that are strings joined by a comma and a
    space.  (Characters of another kind are converted to strings first;
    when that conversion throws, so does the composer.) *)
Theorem story_prompt_template number_repr b request :
  safeParse StoryReq b = Valid (Some request) ->
  exists title topic age minutes characters moral goals,
    request = validated_story title topic age minutes characters moral goals
    /\ (is_integer minutes = true /\ 1 <= minutes /\ minutes <= 15)%Q
    /\ (forall names,
           characters = map JStr names ->
           forall st,
             story_user_prompt number_repr request st
             = (Done ("Create a story about " ++ topic
                      ++ " for ages " ++ age
                      ++ ". Duration: " ++ string_of_Z (floor minutes)
                      ++ " minutes. Include these characters: " ++ join ", " names
                      ++ ". Moral: " ++ moral
                      ++ ". Educational goals: " ++ join ", " goals), st))
    /\ (forall st,
           story_user_prompt number_repr request st
           = match Array_join number_repr ", " characters with
             | Some joined =>
                 (Done (story_template topic age minutes joined moral goals), st)
             | None =>
                 (Thrown (TypeError "Cannot convert object to primitive value"), st)
             end).
Proof.
  intros H. destruct (object_expected _ _ H) as [fields ->].
  destruct (story_members _ H)
    as (title & topic & age & minutes & characters & moral & goals & -> & Hminutes).
  exists title, topic, age, minutes, characters, moral, goals.
  split; [reflexivity|]. split; [exact Hminutes|]. split.
  - intros names -> st.
    rewrite (story_prompt_run number_repr title topic age (map JStr names) moral goals
               Hminutes st).
    rewrite join_strings. reflexivity.
  - intros st.
    exact (story_prompt_run number_repr title topic age characters moral goals Hminutes st).
Qed.

Lemma story_prompt_template_witness :
  let b := JObj [ ("title", JStr "Moonlight Lab");
                  ("minutes", JNum (5 # 1));
                  ("characters", JArr [JStr "Vera"; JStr "Otto"]) ] in
  let goals := [ "Basic volcano formation";
                 "Safety around natural phenomena";
                 "Scientific observation skills" ] in
  let request :=
    validated_story "Moonlight Lab" "volcano science" "6–10" (5 # 1)
                    [JStr "Vera"; JStr "Otto"] "Curiosity + safety" goals in
  safeParse StoryReq b = Valid (Some request)
  /\ exists title topic age minutes characters moral goals,
      request = validated_story title topic age minutes characters moral goals
      /\ (is_integer minutes = true /\ 1 <= minutes /\ minutes <= 15)%Q
      /\ (forall names,
             characters = map JStr names ->
             forall st,
               story_user_prompt Stub.number_repr request st
               = (Done ("Create a story about " ++ topic
                        ++ " for ages " ++ age
                        ++ ". Duration: " ++ string_of_Z (floor minutes)
                        ++ " minutes. Include these characters: " ++ join ", " names
                        ++ ". Moral: " ++ moral
                        ++ ". Educational goals: " ++ join ", " goals), st))
      /\ (forall st,
             story_user_prompt Stub.number_repr request st
             = match Array_join Stub.number_repr ", " characters with
               | Some joined =>
                   (Done (story_template topic age minutes joined moral goals), st)
               | None =>
                   (Thrown (TypeError "Cannot convert object to primitive value"), st)
               end).
Proof.
  split; [reflexivity|].
  apply (@story_prompt_template Stub.number_repr
           (JObj [ ("title", JStr "Moonlight Lab");
                   ("minutes", JNum (5 # 1));
                   ("characters", JArr [JStr "Vera"; JStr "Otto"]) ])).
  reflexivity.
Defined.

(** C6 as stated fails: the title of a validated story request does not
    occur in the user instruction composed from it. *)
Lemma story_prompt_omits_title :
  let b := JObj [ ("title", JStr "Moonlight Lab");
                  ("characters", JArr [JStr "Vera"]) ] in
  let st := State (start Stub.configured) fresh_response in
  exists request prompt,
    safeParse StoryReq b = Valid (Some request)
    /\ get "title" request = Some (JStr "Moonlight Lab")
    /\ story_user_prompt Stub.number_repr request st = (Done prompt, st)
    /\ prompt
       = "Create a story about volcano science for ages 6–10. Duration: 3 minutes. Include these characters: Vera. Moral: Curiosity + safety. Educational goals: Basic volcano formation, Safety around natural phenomena, Scientific observation skills"
    /\ index 0 "Moonlight Lab" prompt = None.
Proof.
  cbv zeta. do 2 eexists.
  split; [vm_compute; reflexivity|].
  split; [reflexivity|].
  split; [vm_compute; reflexivity|].
  split; [reflexivity|].
  vm_compute. reflexivity.
Qed.

End Prompt.

(** ** The streaming relay of [/api/ask] *)

Module Streaming.
Import JS Zod Runtime Server Endpoint Expected ZodFacts HandleFacts HandlerFacts.

Lemma for_await_fragments number_repr fragments : forall p code hs sent b written ended,
  Forall (fun f => f <> EmptyString) fragments ->
  for_await number_repr (chunks_of fragments) None
            (State p (Response code hs sent b written ended))
  = (Done tt,
     State p (Response code hs
                       (match fragments with [] => sent | _ => true end) b
                       (written ++ map (data_frame number_repr) fragments) ended)).
Proof.
  induction fragments as [|f rest IH]; intros p code hs sent b written ended Hall.
  - simpl. rewrite app_nil_r. reflexivity.
  - inversion Hall as [|? ? Hf Hrest]; subst.
    cbn [chunks_of map for_await]. unfold bind at 1.
    unfold forward, chunk_content. cbn [truthy].
    destruct (String.eqb f EmptyString) eqn:E;
      [apply String.eqb_eq in E; contradiction|].
    cbn [negb]. unfold res_write, modify, with_res. cbn [proc res statusCode headers
      headersSent body Runtime.written Runtime.ended].
    fold (chunks_of rest). rewrite (IH _ _ _ _ _ _ _ Hrest).
    rewrite <- app_assoc. cbn [map app].
    destruct rest; reflexivity.
Qed.

Lemma frames_differ number_repr f : data_frame number_repr f <> done_frame.
Proof. unfold data_frame, done_frame. simpl. discriminate. Qed.

(** C4: with a usable client and a non-empty question, when the gateway
    streams fragments (none of them empty) and ends, the endpoint writes
    one data frame per fragment, in the order received, each being
    [data: ] followed by the JSON object whose [content] is the fragment
    and by two line feeds; then it writes the terminal frame, the literal
    [data: [DONE]] and two line feeds, which differs from every data
    frame, and ends the response.  For the fragments [Hel] and [lo] these
    are exactly the two data frames with content [Hel] and [lo], then the
    terminal frame. *)
Theorem ask_relays_fragments_in_order
        number_repr create_stream b question p c fragments :
  get "question" b = Some question ->
  truthy question = true ->
  usable_client p = Some c ->
  create_stream c (ask_request (MODEL p) question) = Stream (chunks_of fragments) None ->
  Forall (fun f => f <> EmptyString) fragments ->
  let r := reply_of (ask number_repr create_stream b) p in
  let frame := fun f =>
    "data: " ++ JSON_stringify number_repr (JObj [("content", JStr f)])
    ++ newline ++ newline in
  r = relayed (map frame fragments ++ ["data: [DONE]" ++ newline ++ newline])
  /\ ended r = true
  /\ Forall (fun data => data <> "data: [DONE]" ++ newline ++ newline) (map frame fragments)
  /\ (fragments = ["Hel"; "lo"] ->
      written r = [hel_frame; lo_frame; "data: [DONE]" ++ newline ++ newline]).
Proof.
  intros Hq Htruthy Hclient Hstream Hall r frame.
  assert (E : r = relayed (map (data_frame number_repr) fragments ++ [done_frame])).
  { unfold r, reply_of, run, ask, try_catch.
    assert (Hd : destructure "question" b (State p fresh_response)
                 = (Done (Some question), State p fresh_response)).
    { destruct b; simpl in Hq; try discriminate. unfold destructure, ret.
      cbn [get]. rewrite Hq. reflexivity. }
    erewrite bind_done by exact Hd. cbv beta iota. rewrite Htruthy.
    erewrite bind_done by (apply getOpenAI_succeeds; exact Hclient).
    unfold bind at 1, sendSSEHeaders, res_writeHead, bind at 1, gets.
    cbn [proc res fresh_response headersSent].
    unfold modify, with_res. cbn [proc res].
    unfold bind at 1. cbn [proc].
    destruct (ensured_frame p) as [_ ->].
    unfold bind at 1, chat_stream, bind at 1, emit, modify, with_proc. cbn [proc res].
    fold (ask_request (MODEL p) question). rewrite Hstream.
    unfold ret at 1. cbn [fst snd].
    unfold bind at 1. cbn [statusCode headers body written ended fresh_response app].
    rewrite (for_await_fragments number_repr _ _ _ _ _ _ _ Hall).
    reflexivity. }
  split; [exact E|]. rewrite E. split; [reflexivity|]. split.
  - apply Forall_forall. intros data Hin. apply in_map_iff in Hin as (f & <- & _).
    apply (@frames_differ number_repr f).
  - intros ->. reflexivity.
Qed.

Lemma ask_relays_fragments_in_order_witness :
  let b := JObj [("question", JStr "Why is the sky blue?")] in
  let p := start Stub.configured in
  let r := reply_of (ask Stub.number_repr (Stub.fragments ["Hel"; "lo"]) b) p in
  let frame := fun f =>
    "data: " ++ JSON_stringify Stub.number_repr (JObj [("content", JStr f)])
    ++ newline ++ newline in
  Forall (fun f => f <> EmptyString) ["Hel"; "lo"]
  /\ r = relayed (map frame ["Hel"; "lo"] ++ ["data: [DONE]" ++ newline ++ newline])
  /\ ended r = true
  /\ Forall (fun data => data <> "data: [DONE]" ++ newline ++ newline)
            (map frame ["Hel"; "lo"])
  /\ (["Hel"; "lo"] = ["Hel"; "lo"] ->
      written r = [hel_frame; lo_frame; "data: [DONE]" ++ newline ++ newline]).
Proof.
  assert (H : Forall (fun f => f <> EmptyString) ["Hel"; "lo"])
    by (repeat constructor; discriminate).
  split; [exact H|].
  apply (@ask_relays_fragments_in_order
           Stub.number_repr (Stub.fragments ["Hel"; "lo"])
           (JObj [("question", JStr "Why is the sky blue?")])
           (JStr "Why is the sky blue?") (start Stub.configured) (Client "sk-test" 0)
           ["Hel"; "lo"]);
    [reflexivity | reflexivity | reflexivity | reflexivity | exact H].
Defined.

End Streaming.

(** ** Repeating a request *)

Module LimiterFacts.
Import JS Zod Runtime Server Endpoint Expected ZodFacts HandleFacts HandlerFacts.
Local Open Scope handler_scope.

Lemma hits_of_set key n store : hits_of key (set_hits key n store) = n.
Proof.
  induction store as [|[k old] rest IH]; simpl.
  - rewrite String.eqb_refl. reflexivity.
  - destruct (String.eqb k key) eqn:E; simpl; rewrite E; [reflexivity | exact IH].
Qed.

Lemma hits_of_counted key p : hits_of key (hits (counted key p)) = S (hits_of key (hits p)).
Proof. unfold counted; cbn [hits]. apply hits_of_set. Qed.

Lemma usable_client_counted key p : usable_client (counted key p) = usable_client p.
Proof. reflexivity. Qed.

(** The rate limiter in front of a route: it counts the request, sets
    its headers, and either answers 429 or passes the request on. *)
Lemma rateLimit_run quota_headers key now next p :
  let n := S (hits_of key (hits p)) in
  run (rateLimit quota_headers key now next) p
  = if (60 <? n)%nat
    then (Done tt, State (counted key p) (limited (quota_headers n now)))
    else next (under (quota_headers n now) (State (counted key p) fresh_response)).
Proof.
  intros n. unfold run, rateLimit, increment.
  unfold bind at 1. unfold bind at 1. unfold modify at 1, with_proc at 1, gets at 1.
  cbn [proc res]. rewrite hits_of_counted. fold n.
  unfold bind at 1, res_set, bind at 1, gets at 1. cbn [proc res fresh_response headersSent].
  unfold modify at 1, with_res at 1. cbn [proc res statusCode headers headersSent body
    Runtime.written Runtime.ended app].
  unfold max_hits, under, prefixed.
  cbn [proc res statusCode headers headersSent body Runtime.written Runtime.ended
       fresh_response].
  rewrite app_nil_r.
  destruct (60 <? n)%nat; reflexivity.
Qed.

Section Combinators.
Context {A B : Type}.

Lemma framed_ret (a : A) : framed (ret a).
Proof. intros hs st; reflexivity. Qed.

Lemma framed_throw (e : exn) : framed (@throw A e).
Proof. intros hs st; reflexivity. Qed.

Lemma framed_gets (f : state -> A) :
  (forall hs st, f (under hs st) = f st) -> framed (gets f).
Proof. intros H hs st. unfold gets. rewrite H. reflexivity. Qed.

Lemma framed_bind (m : M A) (k : A -> M B) :
  framed m -> (forall a, framed (k a)) -> framed (bind m k).
Proof.
  intros Hm Hk hs st. unfold bind. rewrite (Hm hs st).
  destruct (m st) as [[a|e] st']; cbn [fst snd]; [apply Hk | reflexivity].
Qed.

Lemma framed_try (m : M A) (h : exn -> M A) :
  framed m -> (forall e, framed (h e)) -> framed (try_catch m h).
Proof.
  intros Hm Hh hs st. unfold try_catch. rewrite (Hm hs st).
  destruct (m st) as [[a|e] st']; cbn [fst snd]; [reflexivity | apply Hh].
Qed.
End Combinators.

Lemma framed_with_proc (f : process -> process) : framed (modify (with_proc f)).
Proof. intros hs st; reflexivity. Qed.

Lemma framed_with_res (f : response -> response) :
  (forall hs r, f (prefixed hs r) = prefixed hs (f r)) -> framed (modify (with_res f)).
Proof.
  intros H hs st. unfold modify, with_res, under. cbn [proc res fst snd]. rewrite H.
  reflexivity.
Qed.

Ltac framed_leaf :=
  first [ apply framed_ret | apply framed_throw
        | apply framed_gets; reflexivity
        | apply framed_with_proc
        | apply framed_with_res; intros; unfold prefixed;
          cbn [statusCode headers headersSent body Runtime.written Runtime.ended];
          rewrite ?app_assoc; reflexivity ].

Ltac framed_tac :=
  unfold_handlers; unfold getOpenAI, new_OpenAI, set_openai, emit;
  repeat handler_step @framed_bind @framed_try framed_leaf.

Section Handlers.
Variable number_repr : Q -> string.
Variable JSON_parse : string -> option json.
Variable create : client -> gateway_request -> completion_reply.

Lemma framed_blocking e b : framed (handler number_repr JSON_parse create e b).
Proof. destruct e; framed_tac. Qed.
End Handlers.

(** A blocking endpoint behind the rate limiter, for a client within
    the limit: the answer is the one of the route, after the headers of
    the limiter; the process is the one the route leaves, with the hit
    counted.  What the route answers does not depend on the hits counted
    so far. *)
Lemma admitted_run number_repr JSON_parse create quota_headers key now e b p :
  let h := handler number_repr JSON_parse create e b in
  let n := S (hits_of key (hits p)) in
  (n <= 60)%nat ->
  run (rateLimit quota_headers key now h) p
  = (fst (run h p),
     State (after h (counted key p)) (prefixed (quota_headers n now) (reply_of h p))).
Proof.
  intros h n Hn. rewrite rateLimit_run. fold n.
  destruct (60 <? n)%nat eqn:E; [apply Nat.ltb_lt in E; lia|].
  unfold h. rewrite framed_blocking. fold h.
  assert (Hsim : similar (State (counted key p) fresh_response) (State p fresh_response)).
  { repeat split. }
  destruct (agree_blocking number_repr JSON_parse create e b Hsim) as [Hout (Hres & _)].
  fold h in Hout, Hres.
  unfold under, reply_of, after, run. rewrite Hout, Hres. reflexivity.
Qed.

End LimiterFacts.

(** ** The rate limiter in front of the routes *)

Module Limiter.
Import JS Zod Runtime Server Endpoint Expected ZodFacts HandleFacts HandlerFacts LimiterFacts.

(** X19: a client that has already made 60 requests in the window is
    answered by the rate limiter itself, whatever route the request is
    for: status 429 and the text "Too many requests, please try again
    later.", after the limiter's headers.  The route does not run:
    nothing is validated, no client is constructed, the gateway is not
    called; only the client's count goes up. *)
Theorem over_the_limit_is_refused quota_headers key now next p :
  (60 <= hits_of key (hits p))%nat ->
  let served := rateLimit quota_headers key now next in
  let n := S (hits_of key (hits p)) in
  run served p
  = (Done tt,
     State (counted key p)
           (Response 429
                     (quota_headers n now ++ [("Content-Type", "text/html; charset=utf-8")])
                     true (Some (Page "Too many requests, please try again later."))
                     [] true))
  /\ trace (after served p) = trace p
  /\ openai (after served p) = openai p
  /\ hits_of key (hits (after served p)) = n.
Proof.
  intros Hover served n.
  assert (E : run served p = (Done tt, State (counted key p) (limited (quota_headers n now)))).
  { unfold served. rewrite rateLimit_run. fold n.
    destruct (60 <? n)%nat eqn:Hlt; [reflexivity|].
    apply Nat.ltb_ge in Hlt. unfold n in Hlt. lia. }
  unfold after. rewrite E. cbn [snd proc].
  split; [reflexivity|]. split; [reflexivity|]. split; [reflexivity|].
  apply hits_of_counted.
Qed.

Lemma over_the_limit_is_refused_witness :
  let p := Process Stub.configured None "gpt-4o-mini" [] [("203.0.113.7", 60%nat)] in
  let h := handler Stub.number_repr JsonText.JSON_parse (Stub.fixed "{}") Character (JObj []) in
  let served := rateLimit Stub.quota_headers "203.0.113.7" 30000 h in
  (60 <= hits_of "203.0.113.7" (hits p))%nat
  /\ run served p
     = (Done tt,
        State (counted "203.0.113.7" p)
              (Response 429
                        (Stub.quota_headers 61 30000
                         ++ [("Content-Type", "text/html; charset=utf-8")])
                        true (Some (Page "Too many requests, please try again later."))
                        [] true))
  /\ trace (after served p) = trace p
  /\ openai (after served p) = openai p
  /\ hits_of "203.0.113.7" (hits (after served p)) = 61%nat.
Proof.
  split; [simpl; lia|].
  apply (@over_the_limit_is_refused Stub.quota_headers "203.0.113.7" 30000
           (handler Stub.number_repr JsonText.JSON_parse (Stub.fixed "{}") Character (JObj []))
           (Process Stub.configured None "gpt-4o-mini" [] [("203.0.113.7", 60%nat)])).
  simpl. lia.
Defined.

End Limiter.

Module Repeat.
Import JS Zod Runtime Server Endpoint Expected ZodFacts HandleFacts HandlerFacts LimiterFacts.

(** The route handler by itself, run again in the process its first run
    left behind: same response, same outcome. *)
Lemma handler_repeatable number_repr JSON_parse create e b p :
  let h := handler number_repr JSON_parse create e b in
  reply_of h (after h p) = reply_of h p
  /\ fst (run h (after h p)) = fst (run h p).
Proof.
  intros h. unfold reply_of, after, run.
  pose proof (stable_blocking number_repr JSON_parse create e b
                              (State p fresh_response)) as (_ & Hmodel & Hclient & _).
  fold h in Hmodel, Hclient.
  assert (Hsim : similar (State (proc (snd (h (State p fresh_response)))) fresh_response)
                         (State p fresh_response)).
  { repeat split; assumption. }
  destruct (agree_blocking number_repr JSON_parse create e b Hsim) as [Hout (Hres & _)].
  split; assumption.
Qed.

(** C8 (amended): a request to [/api/character] or [/api/story] that a
    client repeats, against the same gateway function, while the rate
    limiter lets both requests pass (the client has made fewer than 59
    requests in the window before), gets the same outcome and the same
    response but for the headers of the rate limiter: status, body,
    written data and ending are equal, and the headers are those of the
    route after the limiter's headers for the first and for the second
    hit.  What the route itself changes in the process (the cached
    client, the trace) does not reach the response. *)
Theorem blocking_endpoint_repeatable
        number_repr JSON_parse create quota_headers key now later e b p :
  let h := handler number_repr JSON_parse create e b in
  let first := rateLimit quota_headers key now h in
  let second := rateLimit quota_headers key later h in
  let n := S (hits_of key (hits p)) in
  (S n <= 60)%nat ->
  reply_of first p = prefixed (quota_headers n now) (reply_of h p)
  /\ reply_of second (after first p) = prefixed (quota_headers (S n) later) (reply_of h p)
  /\ statusCode (reply_of second (after first p)) = statusCode (reply_of first p)
  /\ body (reply_of second (after first p)) = body (reply_of first p)
  /\ written (reply_of second (after first p)) = written (reply_of first p)
  /\ ended (reply_of second (after first p)) = ended (reply_of first p)
  /\ fst (run second (after first p)) = fst (run first p)
  /\ reply_of h (after h p) = reply_of h p.
Proof.
  intros h first second n Hn.
  assert (H1 : run first p
               = (fst (run h p),
                  State (after h (counted key p))
                        (prefixed (quota_headers n now) (reply_of h p)))).
  { unfold first, h.
    rewrite (@admitted_run number_repr JSON_parse create quota_headers key now e b p)
      by (fold n; lia).
    reflexivity. }
  set (p1 := after h (counted key p)).
  assert (Hhits : hits_of key (hits p1) = n).
  { unfold p1, after, run.
    destruct (stable_blocking number_repr JSON_parse create e b
                              (State (counted key p) fresh_response))
      as (_ & _ & _ & Hh).
    fold h in Hh. cbn [proc] in Hh. rewrite Hh. apply hits_of_counted. }
  assert (Hsame : fst (run h p1) = fst (run h p) /\ reply_of h p1 = reply_of h p).
  { unfold p1, reply_of, after, run.
    destruct (stable_blocking number_repr JSON_parse create e b
                              (State (counted key p) fresh_response))
      as (_ & Hmodel & Hclient & _).
    fold h in Hmodel, Hclient. cbn [proc] in Hmodel, Hclient.
    assert (Hsim : similar (State (proc (snd (h (State (counted key p) fresh_response))))
                                  fresh_response)
                           (State p fresh_response)).
    { repeat split; cbn [proc res]; [rewrite Hmodel | rewrite Hclient]; reflexivity. }
    destruct (agree_blocking number_repr JSON_parse create e b Hsim) as [Hout (Hres & _)].
    split; assumption. }
  assert (H2 : run second p1
               = (fst (run h p),
                  State (after h (counted key p1))
                        (prefixed (quota_headers (S n) later) (reply_of h p)))).
  { unfold second, h.
    rewrite (@admitted_run number_repr JSON_parse create quota_headers key later e b p1)
      by (rewrite Hhits; lia).
    fold h. rewrite Hhits. destruct Hsame as [-> ->]. reflexivity. }
  assert (Hafter : after first p = p1) by (unfold after; rewrite H1; reflexivity).
  assert (R1 : reply_of first p = prefixed (quota_headers n now) (reply_of h p))
    by (unfold reply_of at 1; rewrite H1; reflexivity).
  assert (R2 : reply_of second p1 = prefixed (quota_headers (S n) later) (reply_of h p))
    by (unfold reply_of at 1; rewrite H2; reflexivity).
  rewrite Hafter, R1, R2, H1, H2. cbn [fst statusCode body written ended prefixed].
  split; [reflexivity|]. split; [reflexivity|]. split; [reflexivity|].
  split; [reflexivity|]. split; [reflexivity|]. split; [reflexivity|].
  split; [reflexivity|].
  apply (@handler_repeatable number_repr JSON_parse create e b p).
Qed.

Lemma blocking_endpoint_repeatable_witness :
  let h := handler Stub.number_repr JsonText.JSON_parse (Stub.fixed "{}") Character (JObj []) in
  let first := rateLimit Stub.quota_headers "203.0.113.7" 1000 h in
  let second := rateLimit Stub.quota_headers "203.0.113.7" 2000 h in
  let p := start Stub.configured in
  (2 <= 60)%nat
  /\ reply_of first p = prefixed (Stub.quota_headers 1 1000) (reply_of h p)
  /\ reply_of second (after first p) = prefixed (Stub.quota_headers 2 2000) (reply_of h p)
  /\ statusCode (reply_of second (after first p)) = statusCode (reply_of first p)
  /\ body (reply_of second (after first p)) = body (reply_of first p)
  /\ written (reply_of second (after first p)) = written (reply_of first p)
  /\ ended (reply_of second (after first p)) = ended (reply_of first p)
  /\ fst (run second (after first p)) = fst (run first p)
  /\ reply_of h (after h p) = reply_of h p.
Proof.
  split; [lia|].
  apply (@blocking_endpoint_repeatable
           Stub.number_repr JsonText.JSON_parse (Stub.fixed "{}") Stub.quota_headers
           "203.0.113.7" 1000 2000 Character (JObj []) (start Stub.configured)).
  simpl. lia.
Defined.

(** C8 as stated fails: a client that repeats one and the same request
    to [/api/character], against a gateway that always returns the same
    document, gets the document and status 200 sixty times, and on the
    sixty-first request within the minute status 429 from the rate
    limiter (once the window is over the request is answered 200
    again); between the first and the second request the [RateLimit]
    headers already differ. *)
Lemma repeated_request_is_refused :
  let text := JSON_stringify Stub.number_repr Stub.sheet in
  let h := handler Stub.number_repr JsonText.JSON_parse (Stub.fixed text) Character (JObj []) in
  let served := rateLimit Stub.quota_headers "203.0.113.7" 1000 h in
  let p := start Stub.configured in
  let p60 := Nat.iter 60 (after served) p in
  statusCode (reply_of served p) = 200
  /\ body (reply_of served p) = Some (Document Stub.sheet)
  /\ statusCode (reply_of served (Nat.iter 59 (after served) p)) = 200
  /\ statusCode (reply_of served p60) = 429
  /\ body (reply_of served p60) = Some (Page "Too many requests, please try again later.")
  /\ reply_of served p60 <> reply_of served p
  /\ length (gateway_calls (trace (after served p60))) = 60%nat
  /\ statusCode (reply_of served (window_over "203.0.113.7" p60)) = 200
  /\ headers (reply_of served (after served p)) <> headers (reply_of served p).
Proof.
  cbv zeta.
  split; [vm_compute; reflexivity|].
  split; [vm_compute; reflexivity|].
  split; [vm_compute; reflexivity|].
  split; [vm_compute; reflexivity|].
  split; [vm_compute; reflexivity|].
  split; [vm_compute; discriminate|].
  split; [vm_compute; reflexivity|].
  split; [vm_compute; reflexivity|].
  vm_compute. discriminate.
Qed.

End Repeat.

(** ** The client handle *)

Module Handle.
Import JS Zod Runtime Server Endpoint Expected ZodFacts HandleFacts HandlerFacts
       LimiterFacts.

Lemma getOpenAI_cached_times c n : forall st,
  openai (proc st) = Some c ->
  getOpenAI_times n st = (Done (repeat c n), st).
Proof.
  induction n as [|n IH]; intros st H; [reflexivity|].
  assert (Hget : getOpenAI st = (Done c, st)).
  { destruct st as [p r]. cbv [getOpenAI bind gets ret proc]. simpl in H.
    rewrite H. reflexivity. }
  cbn [getOpenAI_times]. erewrite bind_done by exact Hget.
  erewrite bind_done by (apply IH; exact H). reflexivity.
Qed.

(** C9 (amended): with the credential set, any number of calls of
    [getOpenAI] in a row return one and the same client, and after the
    first call the state no longer changes: when no client was cached
    the first call constructs it (one construction) and stores it, when
    one was cached nothing is constructed at all; the later calls
    neither construct nor change anything, the store of the rate limiter
    included.  That store is state the requests share as well: every
    request that comes in raises the count of its client by one,
    whatever route it is for (the routes leave the store alone). *)
Theorem client_constructed_once p r key n :
  nonempty (OPENAI_API_KEY (env p)) = Some key ->
  exists c,
    getOpenAI_times (S n) (State p r) = (Done (repeat c (S n)), State (ensured p) r)
    /\ openai (ensured p) = Some c
    /\ getOpenAI_times n (State (ensured p) r) = (Done (repeat c n), State (ensured p) r)
    /\ (openai p = None ->
        c = Client key (constructions (trace p))
        /\ trace (ensured p) = (trace p ++ [EvNew c])%list
        /\ constructions (trace (ensured p)) = S (constructions (trace p)))
    /\ (forall cached, openai p = Some cached -> c = cached /\ ensured p = p)
    /\ hits (ensured p) = hits p
    /\ (forall quota_headers client now next q,
           stable next ->
           hits_of client (hits (after (rateLimit quota_headers client now next) q))
           = S (hits_of client (hits q))).
Proof.
  intros Hkey.
  assert (Husable : exists c, usable_client (proc (State p r)) = Some c).
  { unfold usable_client; cbn [proc]. rewrite Hkey. destruct (openai p); eauto. }
  destruct Husable as [c Husable]. exists c.
  assert (Hopen : openai (ensured p) = Some c) by (apply ensured_openai; exact Husable).
  assert (Hlater : forall m,
             getOpenAI_times m (State (ensured p) r)
             = (Done (repeat c m), State (ensured p) r))
    by (intros m; apply getOpenAI_cached_times; exact Hopen).
  split.
  { cbn [getOpenAI_times].
    erewrite bind_done by (apply getOpenAI_succeeds; exact Husable).
    cbn [proc res]. erewrite bind_done by (apply Hlater). reflexivity. }
  split; [exact Hopen|]. split; [apply Hlater|]. split; [|split].
  - intros Hnone. unfold usable_client in Husable; cbn [proc] in Husable.
    rewrite Hnone, Hkey in Husable. inversion Husable; subst. split; [reflexivity|].
    unfold ensured. rewrite Hnone, Hkey. cbn [trace]. split; [reflexivity|].
    rewrite constructions_app.
    change (constructions [EvNew (Client key (constructions (trace p)))]) with 1%nat.
    lia.
  - intros cached Hcached. unfold usable_client in Husable; cbn [proc] in Husable.
    rewrite Hcached in Husable. inversion Husable; subst. split; [reflexivity|].
    unfold ensured. rewrite Hcached. reflexivity.
  - split; [apply ensured_hits|].
    intros quota_headers client now next q Hnext. unfold after.
    rewrite rateLimit_run.
    destruct (60 <? S (hits_of client (hits q)))%nat.
    + cbn [snd proc]. apply hits_of_counted.
    + destruct (Hnext (under (quota_headers (S (hits_of client (hits q))) now)
                             (State (counted client q) fresh_response)))
        as (_ & _ & _ & Hh).
      rewrite Hh. cbn [under proc]. apply hits_of_counted.
Qed.

Lemma client_constructed_once_witness :
  let p := start Stub.configured in
  nonempty (OPENAI_API_KEY (env p)) = Some "sk-test"
  /\ exists c,
      getOpenAI_times 3 (State p fresh_response)
      = (Done (repeat c 3), State (ensured p) fresh_response)
      /\ openai (ensured p) = Some c
      /\ getOpenAI_times 2 (State (ensured p) fresh_response)
         = (Done (repeat c 2), State (ensured p) fresh_response)
      /\ (openai p = None ->
          c = Client "sk-test" (constructions (trace p))
          /\ trace (ensured p) = (trace p ++ [EvNew c])%list
          /\ constructions (trace (ensured p)) = S (constructions (trace p)))
      /\ (forall cached, openai p = Some cached -> c = cached /\ ensured p = p)
      /\ hits (ensured p) = hits p
      /\ (forall quota_headers client now next q,
             stable next ->
             hits_of client (hits (after (rateLimit quota_headers client now next) q))
             = S (hits_of client (hits q))).
Proof.
  split; [reflexivity|].
  apply (@client_constructed_once (start Stub.configured) fresh_response "sk-test" 2).
  reflexivity.
Defined.

(** C9 as stated fails: the client handle is not the only state the
    requests share.  A request to [/healthz], which never touches the
    handle, changes the process all the same, since the rate limiter
    counts it; and the count reaches later requests: after sixty of them
    the same client is answered 429. *)
Lemma hit_counter_is_shared_state :
  let served := rateLimit Stub.quota_headers "203.0.113.7" 1000
                          (Routes.healthz "2025-01-01T00:00:00.000Z") in
  let p := start Stub.configured in
  openai p = None
  /\ openai (after served p) = None
  /\ hits p = []
  /\ hits (after served p) = [("203.0.113.7", 1%nat)]
  /\ after served p <> p
  /\ statusCode (reply_of served p) = 200
  /\ statusCode (reply_of served (Nat.iter 60 (after served) p)) = 429.
Proof.
  cbv zeta.
  split; [reflexivity|]. split; [reflexivity|]. split; [reflexivity|].
  split; [reflexivity|].
  split; [vm_compute; discriminate|].
  split; [reflexivity|].
  vm_compute. reflexivity.
Qed.

End Handle.

(** ** The duplicate [server.js] *)

Module Duplicate.
Import JS Zod Runtime Server Endpoint Expected ZodFacts HandleFacts HandlerFacts.

(** C10 (amended): in [server.js], a request to [/api/character] whose
    body is a JSON object, the empty object included, is parsed once
    more; the object converts to the text [[object Object]], which is
    not JSON (or its conversion throws, which the helper catches as
    well), so the handler answers 400 "Invalid JSON" and the process is
    left as it was: the body is not validated, no client is constructed
    and the gateway is not called. *)
Theorem object_body_rejected_js
        number_repr JSON_parse create request_js continue_js catch_js fields p :
  JSON_parse "[object Object]" = None ->
  let h := character_js number_repr JSON_parse create request_js continue_js catch_js
                        (JObj fields) in
  run h p = (Done tt, State p (refusal "Invalid JSON"))
  /\ validations (trace (after h p)) = validations (trace p)
  /\ gateway_calls (trace (after h p)) = gateway_calls (trace p)
  /\ constructions (trace (after h p)) = constructions (trace p).
Proof.
  intros Hparse h.
  assert (E : run h p = (Done tt, State p (refusal "Invalid JSON"))).
  { unfold h, run, character_js, try_catch, safeParseJSON. cbn [ToString].
    destruct (lookup "toString" fields); [reflexivity|].
    rewrite Hparse. reflexivity. }
  unfold after. rewrite E. cbn [snd proc]. auto.
Qed.

Lemma object_body_rejected_js_witness :
  let p := start Stub.configured in
  let h := character_js Stub.number_repr JsonText.JSON_parse (Stub.fixed "{}")
                        Stub.request_js Stub.continue_js Stub.catch_js (JObj []) in
  JsonText.JSON_parse "[object Object]" = None
  /\ run h p = (Done tt, State p (refusal "Invalid JSON"))
  /\ validations (trace (after h p)) = validations (trace p)
  /\ gateway_calls (trace (after h p)) = gateway_calls (trace p)
  /\ constructions (trace (after h p)) = constructions (trace p).
Proof.
  split; [reflexivity|].
  apply (@object_body_rejected_js
           Stub.number_repr JsonText.JSON_parse (Stub.fixed "{}")
           Stub.request_js Stub.continue_js Stub.catch_js [] (start Stub.configured)).
  reflexivity.
Defined.

(** C10 as stated fails for payloads that are not objects: the array
    whose only element is the string [{}] converts to the text [{}],
    which parses to the empty object; it is validated and the gateway is
    called. *)
Lemma array_body_reaches_gateway_js :
  let b := JArr [JStr "{}"] in
  let p := start Stub.configured in
  let h := character_js Stub.number_repr JsonText.JSON_parse (Stub.fixed "{}")
                        Stub.request_js Stub.continue_js Stub.catch_js b in
  safeParseJSON Stub.number_repr JsonText.JSON_parse b = JObj []
  /\ validations (trace (after h p)) = [(CharacterReq, JObj [])]
  /\ List.length (gateway_calls (trace (after h p))) = 1%nat
  /\ category (reply_of h p) <> Some "Invalid JSON".
Proof.
  cbv zeta.
  split; [reflexivity|]. split; [reflexivity|]. split; [reflexivity|].
  vm_compute. discriminate.
Qed.

End Duplicate.

(** ** More on [/api/ask] *)

Module AskFacts.
Import JS Zod Runtime Server Endpoint Expected Further ZodFacts HandleFacts HandlerFacts.

Lemma for_await_run number_repr chunks failure : forall p code hs b w e,
  for_await number_repr chunks failure (State p (Response code hs true b w e))
  = (match failure with
     | None => Done tt
     | Some reason => Thrown (Error reason)
     end,
     State p (Response code hs true b
                       (w ++ map (data_frame number_repr) (forwarded chunks)) e)).
Proof.
  induction chunks as [|c rest IH]; intros p code hs b w e.
  - cbn [for_await forwarded flat_map map]. rewrite app_nil_r.
    destruct failure; reflexivity.
  - cbn [for_await]. unfold bind at 1, forward.
    unfold forwarded; cbn [flat_map]; fold (forwarded rest).
    destruct (chunk_content c) as [fragment|].
    + destruct (truthy (JStr fragment)).
      * unfold res_write, modify, with_res.
        cbn [proc res statusCode headers headersSent body written ended].
        rewrite IH. rewrite map_app, app_assoc. reflexivity.
      * unfold ret. cbn [app]. apply IH.
    + unfold ret. cbn [app]. apply IH.
Qed.

(** The endpoint on a truthy question with a usable client, by cases on
    what the gateway streams. *)
Lemma ask_run number_repr create_stream b question p c :
  get "question" b = Some question ->
  truthy question = true ->
  usable_client p = Some c ->
  let request := ask_request (MODEL p) question in
  let p1 := logged (EvCreate c request) (ensured p) in
  run (ask number_repr create_stream b) p
  = match create_stream c request with
    | StreamRejected _ => (Thrown headers_sent_error, State p1 (streaming 500 [] false))
    | Stream chunks None =>
        (Done tt,
         State p1 (streaming 200 (map (data_frame number_repr) (forwarded chunks)
                                  ++ [done_frame]) true))
    | Stream chunks (Some _) =>
        (Thrown headers_sent_error,
         State p1 (streaming 500 (map (data_frame number_repr) (forwarded chunks)) false))
    end.
Proof.
  intros Hq Htruthy Hclient request p1.
  unfold run, ask, try_catch.
  assert (Hd : destructure "question" b (State p fresh_response)
               = (Done (Some question), State p fresh_response)).
  { destruct b; simpl in Hq; try discriminate. unfold destructure, ret.
    cbn [get]. rewrite Hq. reflexivity. }
  erewrite bind_done by exact Hd. cbv beta iota. rewrite Htruthy.
  erewrite bind_done by (apply getOpenAI_succeeds; exact Hclient).
  unfold bind at 1, sendSSEHeaders, res_writeHead, bind at 1, gets.
  cbn [proc res fresh_response headersSent].
  unfold modify, with_res. cbn [proc res].
  unfold bind at 1. cbn [proc].
  destruct (ensured_frame p) as [_ ->].
  unfold bind at 1, chat_stream, bind at 1, emit, modify, with_proc. cbn [proc res].
  fold (ask_request (MODEL p) question). fold request. fold p1.
  destruct (create_stream c request) as [reason | chunks failure].
  - reflexivity.
  - unfold ret at 1. cbn [fst snd].
    unfold bind at 1. cbn [statusCode headers body written ended fresh_response app].
    rewrite for_await_run. destruct failure; reflexivity.
Qed.

End AskFacts.

Module Ask.
Import JS Zod Runtime Server Endpoint Expected Further ZodFacts HandleFacts HandlerFacts
       AskFacts.

(** X1: a request to [/api/ask] whose [question] is missing or falsy
    ([null], [false], 0, the empty string) is answered 400 "Question is
    required", and the process is left as it was: no client is
    constructed and the gateway is not called, whatever the state of the
    credential. *)
Theorem ask_refuses_missing_question number_repr create_stream b p :
  b <> JNull ->
  truthy_opt (get "question" b) = false ->
  run (ask number_repr create_stream b) p
  = (Done tt, State p (refusal "Question is required")).
Proof.
  intros Hnull Hfalsy. unfold run, ask, try_catch.
  assert (Hd : destructure "question" b (State p fresh_response)
               = (Done (get "question" b), State p fresh_response)).
  { destruct b; try reflexivity. congruence. }
  erewrite bind_done by exact Hd. cbv beta.
  destruct (get "question" b) as [q|]; [|reflexivity].
  simpl in Hfalsy. rewrite Hfalsy. reflexivity.
Qed.

Lemma ask_refuses_missing_question_witness :
  let b := JObj [("question", JStr EmptyString)] in
  let p := start Stub.configured in
  b <> JNull
  /\ truthy_opt (get "question" b) = false
  /\ run (ask Stub.number_repr (Stub.fragments ["Hel"]) b) p
     = (Done tt, State p (refusal "Question is required")).
Proof.
  split; [discriminate|]. split; [reflexivity|].
  apply (@ask_refuses_missing_question Stub.number_repr (Stub.fragments ["Hel"])
           (JObj [("question", JStr EmptyString)]) (start Stub.configured));
    [discriminate | reflexivity].
Defined.

(** X2: with a truthy question but no credential and no cached client,
    [/api/ask] answers with a JSON error, status 500, label "Ask
    endpoint failed" and detail "OPENAI_API_KEY not set": the event
    stream is never opened and the gateway is not called. *)
Theorem ask_without_credential number_repr create_stream b question p :
  get "question" b = Some question ->
  truthy question = true ->
  usable_client p = None ->
  run (ask number_repr create_stream b) p
  = (Done tt, State p (failure "Ask endpoint failed" (Text "OPENAI_API_KEY not set"))).
Proof.
  intros Hq Htruthy Hclient. unfold run, ask, try_catch.
  assert (Hd : destructure "question" b (State p fresh_response)
               = (Done (Some question), State p fresh_response)).
  { destruct b; simpl in Hq; try discriminate. unfold destructure, ret.
    cbn [get]. rewrite Hq. reflexivity. }
  erewrite bind_done by exact Hd. cbv beta iota. rewrite Htruthy.
  erewrite bind_thrown by (apply getOpenAI_fails; exact Hclient).
  reflexivity.
Qed.

Lemma ask_without_credential_witness :
  let b := JObj [("question", JStr "Why is the sky blue?")] in
  let p := start Stub.unconfigured in
  get "question" b = Some (JStr "Why is the sky blue?")
  /\ usable_client p = None
  /\ run (ask Stub.number_repr (Stub.fragments ["Hel"]) b) p
     = (Done tt, State p (failure "Ask endpoint failed" (Text "OPENAI_API_KEY not set"))).
Proof.
  split; [reflexivity|]. split; [reflexivity|].
  apply (@ask_without_credential Stub.number_repr (Stub.fragments ["Hel"])
           (JObj [("question", JStr "Why is the sky blue?")])
           (JStr "Why is the sky blue?") (start Stub.unconfigured));
    reflexivity.
Defined.

(** X3: whatever chunks the gateway streams before it ends normally,
    [/api/ask] passes on, in order, the content of the first choice of
    every chunk where that content is a non-empty string, and nothing
    else: chunks without content or with empty content produce no frame.
    Each frame is [data: ], the JSON object whose [content] is the
    fragment, and two line feeds.  The terminal frame follows, which is
    the literal [data: [DONE]] and two line feeds; the response is ended,
    and the gateway was called once, with the question as it came. *)
Theorem ask_skips_empty_chunks number_repr create_stream b question p c chunks :
  get "question" b = Some question ->
  truthy question = true ->
  usable_client p = Some c ->
  create_stream c (ask_request (MODEL p) question) = Stream chunks None ->
  let h := ask number_repr create_stream b in
  let frame := fun f =>
    "data: " ++ JSON_stringify number_repr (JObj [("content", JStr f)])
    ++ newline ++ newline in
  reply_of h p
  = streaming 200 (map frame (forwarded chunks) ++ ["data: [DONE]" ++ newline ++ newline])
              true
  /\ fst (run h p) = Done tt
  /\ gateway_calls (trace (after h p))
     = (gateway_calls (trace p) ++ [ask_request (MODEL p) question])%list.
Proof.
  intros Hq Htruthy Hclient Hstream h frame.
  unfold reply_of, after, h.
  rewrite (ask_run number_repr create_stream b p Hq Htruthy Hclient).
  cbv zeta. rewrite Hstream. cbn [fst snd res proc].
  split; [reflexivity|]. split; [reflexivity|].
  unfold logged; cbn [trace].
  rewrite gateway_calls_app, ensured_gateway_calls. reflexivity.
Qed.

Lemma ask_skips_empty_chunks_witness :
  let b := JObj [("question", JNum (42 # 1))] in
  let p := start Stub.configured in
  let chunks := [ [None]; [Some "Hel"]; []; [Some EmptyString];
                  [Some "lo"; Some "ignored"] ] in
  let h := ask Stub.number_repr (fun _ _ => Stream chunks None) b in
  let frame := fun f =>
    "data: " ++ JSON_stringify Stub.number_repr (JObj [("content", JStr f)])
    ++ newline ++ newline in
  forwarded chunks = ["Hel"; "lo"]
  /\ reply_of h p
     = streaming 200 (map frame (forwarded chunks)
                      ++ ["data: [DONE]" ++ newline ++ newline]) true
  /\ fst (run h p) = Done tt
  /\ gateway_calls (trace (after h p))
     = (gateway_calls (trace p) ++ [ask_request (MODEL p) (JNum (42 # 1))])%list.
Proof.
  split; [reflexivity|].
  apply (@ask_skips_empty_chunks Stub.number_repr
           (fun _ _ => Stream [ [None]; [Some "Hel"]; []; [Some EmptyString];
                                [Some "lo"; Some "ignored"] ] None)
           (JObj [("question", JNum (42 # 1))]) (JNum (42 # 1))
           (start Stub.configured) (Client "sk-test" 0));
    reflexivity.
Defined.

(** X4: when the gateway refuses the streaming call or the stream breaks
    off, the event-stream headers of [/api/ask] are already out, so the
    [catch] clause cannot send its error body: [res.json] throws and the
    error leaves the handler.  The frames written before the break
    stand, no terminal frame follows, and the response is not ended. *)
Theorem ask_interrupted_stream_stays_open
        number_repr create_stream b question p c chunks :
  get "question" b = Some question ->
  truthy question = true ->
  usable_client p = Some c ->
  interrupted (create_stream c (ask_request (MODEL p) question)) = Some chunks ->
  let h := ask number_repr create_stream b in
  fst (run h p) = Thrown headers_sent_error
  /\ written (reply_of h p) = map (data_frame number_repr) (forwarded chunks)
  /\ ~ In done_frame (written (reply_of h p))
  /\ ended (reply_of h p) = false
  /\ body (reply_of h p) = None.
Proof.
  intros Hq Htruthy Hclient Hbroken h.
  unfold reply_of, h.
  rewrite (ask_run number_repr create_stream b p Hq Htruthy Hclient).
  cbv zeta.
  assert (Hfree : ~ In done_frame (map (data_frame number_repr) (forwarded chunks))).
  { intros Hin. apply in_map_iff in Hin as (f & Hf & _).
    revert Hf. unfold data_frame, done_frame. simpl. discriminate. }
  destruct (create_stream c (ask_request (MODEL p) question))
    as [reason | received [reason|]]; simpl in Hbroken; inversion Hbroken; subst;
    cbn [fst snd res streaming written ended body map forwarded flat_map];
    repeat split; auto.
Qed.

Lemma ask_interrupted_stream_stays_open_witness :
  let b := JObj [("question", JStr "Why is the sky blue?")] in
  let p := start Stub.configured in
  let reply := Stream [[Some "Hel"]] (Some "socket hang up") in
  let h := ask Stub.number_repr (fun _ _ => reply) b in
  interrupted reply = Some [[Some "Hel"]]
  /\ fst (run h p) = Thrown headers_sent_error
  /\ written (reply_of h p) = map (data_frame Stub.number_repr) (forwarded [[Some "Hel"]])
  /\ ~ In done_frame (written (reply_of h p))
  /\ ended (reply_of h p) = false
  /\ body (reply_of h p) = None.
Proof.
  split; [reflexivity|].
  apply (@ask_interrupted_stream_stays_open Stub.number_repr
           (fun _ _ => Stream [[Some "Hel"]] (Some "socket hang up"))
           (JObj [("question", JStr "Why is the sky blue?")])
           (JStr "Why is the sky blue?") (start Stub.configured) (Client "sk-test" 0)
           [[Some "Hel"]]);
    reflexivity.
Defined.

End Ask.

(** ** Frames *)

Module Frames.
Import JS Zod Runtime Server Endpoint Expected Further.

Lemma all_chars_app f s t : all_chars f (s ++ t) = all_chars f s && all_chars f t.
Proof.
  induction s as [|c s IH]; simpl; [reflexivity|].
  rewrite IH. apply andb_assoc.
Qed.

Lemma escape_char_printable c : printable (escape_char c) = true.
Proof.
  destruct c as [[] [] [] [] [] [] [] []]; reflexivity.
Qed.

Lemma escape_printable s : printable (escape s) = true.
Proof.
  induction s as [|c s IH]; [reflexivity|].
  cbn [escape]. pose proof (escape_char_printable c) as Hc.
  unfold printable in *. rewrite all_chars_app, IH, Hc. reflexivity.
Qed.

(** X5: whatever the fragment, its data frame is the text [data: ], a
    payload without any control character, and two line feeds: a line
    break inside a fragment is escaped, so it cannot end the frame
    early. *)
Theorem data_frame_has_no_inner_line_break number_repr fragment :
  exists payload,
    data_frame number_repr fragment = "data: " ++ payload ++ newline ++ newline
    /\ payload = JSON_stringify number_repr (JObj [("content", JStr fragment)])
    /\ printable payload = true.
Proof.
  eexists. split; [reflexivity|]. split; [reflexivity|].
  cbn [JSON_stringify map join fst snd]. unfold quote_string.
  pose proof (escape_printable fragment) as Hf.
  unfold printable in *. rewrite !all_chars_app, Hf.
  reflexivity.
Qed.

End Frames.

(** ** More on the blocking endpoints *)

Module BlockingFacts.
Import JS Zod Runtime Server Endpoint Expected Further ZodFacts HandleFacts HandlerFacts.

(** Whether the user instruction of a validated request composes is
    decided by its characters. *)
Lemma composition number_repr e b request :
  safeParse (request_schema e) b = Valid (Some request) ->
  if convertible number_repr e request
  then exists user, composes number_repr e request user
  else fails_to_compose number_repr e request unconvertible.
Proof.
  intros H. destruct e; cbn [request_schema] in H.
  - exists (character_text number_repr request).
    exact (character_prompt_valid number_repr _ H).
  - destruct (object_expected _ _ H) as [fields ->].
    destruct (Prompt.story_members _ H)
      as (title & topic & age & minutes & characters & moral & goals & -> & Hminutes).
    pose proof (Prompt.story_prompt_run number_repr title topic age characters moral goals
                  Hminutes) as Hrun.
    unfold convertible, validated_story.
    change (get "characters" (JObj _)) with (Some (JArr characters)). cbv beta iota.
    destruct (Array_join number_repr ", " characters) as [joined|].
    + exists (story_template topic age minutes joined moral goals). exact Hrun.
    + exact Hrun.
Qed.

Lemma convertible_composes number_repr e b request :
  safeParse (request_schema e) b = Valid (Some request) ->
  convertible number_repr e request = true ->
  exists user, composes number_repr e request user.
Proof.
  intros H Hconv. pose proof (@composition number_repr e b request H) as Hcomp.
  rewrite Hconv in Hcomp. exact Hcomp.
Qed.

Ltac enter_blocking Hvalid Hc :=
  unfold handler, character, story, try_catch;
  erewrite bind_done by (apply schema_parse_valid; exact Hvalid);
  erewrite bind_done by (apply getOpenAI_succeeds; exact Hc);
  unfold bind at 1; unfold gets at 1; cbn [proc res];
  unfold bind at 1; unfold object_of at 1; unfold ret at 1.

(** A blocking endpoint on a valid request with a usable client, when
    the user instruction composes. *)
Lemma blocking_run number_repr JSON_parse create e p b request c user :
  safeParse (request_schema e) b = Valid (Some request) ->
  usable_client p = Some c ->
  composes number_repr e request user ->
  run (handler number_repr JSON_parse create e b) p
  = (Done tt,
     blocking_outcome e number_repr JSON_parse
       (create c (blocking_request e (MODEL p) user))
       (logged (EvCreate c (blocking_request e (MODEL p) user))
               (ensured (logged (EvParse (request_schema e) b) p)))).
Proof.
  intros Hvalid Hclient Huser.
  assert (Hc : usable_client (logged (EvParse (request_schema e) b) p) = Some c)
    by (rewrite usable_client_logged; auto).
  assert (Hmodel : MODEL (ensured (logged (EvParse (request_schema e) b) p)) = MODEL p)
    by (destruct (ensured_frame (logged (EvParse (request_schema e) b) p)) as [_ ->];
        reflexivity).
  unfold run, composes in *.
  destruct e; cbn [request_schema composer] in *; enter_blocking Hvalid Hc;
    (erewrite bind_done by (apply Huser));
    rewrite Hmodel;
    match goal with
    | |- context [Request (MODEL p) [Message "system" (JStr ?sys); _] _ _] =>
        first [ change (Request (MODEL p)
                          [Message "system" (JStr sys); Message "user" (JStr user)]
                          (Some "json_object") false)
                  with (blocking_request Character (MODEL p) user)
              | change (Request (MODEL p)
                          [Message "system" (JStr sys); Message "user" (JStr user)]
                          (Some "json_object") false)
                  with (blocking_request Story (MODEL p) user) ]
    end;
    unfold bind at 1; unfold chat_create at 1; unfold bind at 1, emit, modify, with_proc;
    cbn [proc res];
    unfold blocking_outcome; cbn [failure_label response_schema];
    match goal with
    | |- context [create c ?r] => destruct (create c r) as [reason | [|text others]]
    end; try reflexivity;
    unfold ret at 1; unfold bind at 1; unfold first_content, ret at 1;
    cbv zeta;
    destruct (truthy (safeParseJSON number_repr JSON_parse (of_content text)));
    try reflexivity;
    cbn [negb]; unfold bind at 1, schema_parse, bind at 1, emit, modify, with_proc;
    cbn [proc res];
    match goal with
    | |- context [safeParse ?s ?d] => destruct (safeParse s d) as [result|issues]
    end; reflexivity.
Qed.

(** A blocking endpoint on a valid request with a usable client, when
    composing the user instruction throws: the client is there (it may
    just have been constructed), the gateway is not called, and the
    [catch] clause answers. *)
Lemma blocking_run_uncomposed number_repr JSON_parse create e p b request c error :
  safeParse (request_schema e) b = Valid (Some request) ->
  usable_client p = Some c ->
  fails_to_compose number_repr e request error ->
  run (handler number_repr JSON_parse create e b) p
  = (Done tt,
     State (ensured (logged (EvParse (request_schema e) b) p))
           (failure (failure_label e) (message_of error))).
Proof.
  intros Hvalid Hclient Huser.
  assert (Hc : usable_client (logged (EvParse (request_schema e) b) p) = Some c)
    by (rewrite usable_client_logged; auto).
  unfold run, fails_to_compose in *.
  destruct e; cbn [request_schema composer] in *; enter_blocking Hvalid Hc;
    (erewrite bind_thrown by (apply Huser)); reflexivity.
Qed.

Lemma blocking_outcome_calls e number_repr JSON_parse reply p1 :
  gateway_calls (trace (proc (blocking_outcome e number_repr JSON_parse reply p1)))
  = gateway_calls (trace p1)
  /\ constructions (trace (proc (blocking_outcome e number_repr JSON_parse reply p1)))
     = constructions (trace p1).
Proof.
  unfold blocking_outcome.
  destruct reply as [reason | [|content others]]; try (split; reflexivity).
  cbv zeta. destruct (truthy _); [|split; reflexivity].
  destruct (safeParse (response_schema e) _) as [result|issues];
    cbn [proc]; unfold logged; cbn [trace];
    rewrite gateway_calls_app, constructions_app; simpl;
    rewrite app_nil_r, Nat.add_0_r; split; reflexivity.
Qed.

(** A blocking endpoint on a valid request without a usable client. *)
Lemma blocking_run_without_client number_repr JSON_parse create e p b v :
  safeParse (request_schema e) b = Valid v ->
  usable_client p = None ->
  run (handler number_repr JSON_parse create e b) p
  = (Done tt, State (logged (EvParse (request_schema e) b) p)
                    (failure (failure_label e) (Text "OPENAI_API_KEY not set"))).
Proof.
  intros Hvalid Hclient.
  assert (Hc : usable_client (proc (State (logged (EvParse (request_schema e) b) p)
                                          fresh_response)) = None)
    by (cbn [proc]; rewrite usable_client_logged; auto).
  unfold run.
  destruct e; unfold handler, character, story;
    (erewrite try_thrown
      by (erewrite bind_done by (apply schema_parse_valid; exact Hvalid);
          erewrite bind_thrown by (apply getOpenAI_fails; exact Hc);
          reflexivity));
    reflexivity.
Qed.

(** The issues of an invalid member are among those of the object. *)
Lemma parse_members_issues shape p fields k field l :
  In (k, field) shape ->
  zparse field (p ++ [PKey k])%list (lookup k fields) = Invalid l ->
  incl l (fst (parse_members shape p fields)).
Proof.
  induction shape as [|[k' field'] shape IH]; intros Hin Hbad; [destruct Hin|].
  rewrite parse_members_cons.
  destruct Hin as [Heq | Hin].
  - inversion Heq; subst. rewrite Hbad.
    destruct (parse_members shape p fields) as [issues out]; simpl.
    apply incl_appl, incl_refl.
  - specialize (IH Hin Hbad).
    destruct (parse_members shape p fields) as [issues out]; simpl in *.
    destruct (zparse field' _ _) as [[v|]|e]; simpl; auto.
    apply incl_appr. exact IH.
Qed.

End BlockingFacts.

Module BlockingMore.
Import JS Zod Runtime Server Endpoint Expected Further ZodFacts HandleFacts HandlerFacts
       BlockingFacts Routes.

(** X6: without a credential and without a cached client, a valid
    request to [/api/character] or [/api/story] is answered with status
    500 and the detail "OPENAI_API_KEY not set"; the gateway is not
    called and nothing is constructed.  [/healthz] answers 200 in that
    same process, and leaves it as it is. *)
Theorem gateway_routes_need_credential number_repr JSON_parse create e b v p now :
  safeParse (request_schema e) b = Valid v ->
  usable_client p = None ->
  let h := handler number_repr JSON_parse create e b in
  reply_of h p = failure (failure_label e) (Text "OPENAI_API_KEY not set")
  /\ gateway_calls (trace (after h p)) = gateway_calls (trace p)
  /\ constructions (trace (after h p)) = constructions (trace p)
  /\ openai (after h p) = openai p
  /\ run (healthz now) p
     = (Done tt, State p (success (JObj [ ("status", JStr "healthy");
                                          ("timestamp", JStr now) ]))).
Proof.
  intros Hvalid Hclient h. unfold reply_of, after, h.
  rewrite (blocking_run_without_client number_repr JSON_parse create e p b Hvalid Hclient).
  cbn [snd res proc]. unfold logged; cbn [trace openai].
  split; [reflexivity|].
  split; [rewrite gateway_calls_app; simpl; apply app_nil_r|].
  split; [rewrite constructions_app; simpl; apply Nat.add_0_r|].
  split; reflexivity.
Qed.

Lemma gateway_routes_need_credential_witness :
  let p := start (Env (Some EmptyString) None) in
  let h := handler Stub.number_repr JsonText.JSON_parse (Stub.fixed "{}") Story (JObj []) in
  usable_client p = None
  /\ reply_of h p = failure "Story generation failed" (Text "OPENAI_API_KEY not set")
  /\ gateway_calls (trace (after h p)) = gateway_calls (trace p)
  /\ constructions (trace (after h p)) = constructions (trace p)
  /\ openai (after h p) = openai p
  /\ run (healthz "2025-01-01T00:00:00.000Z") p
     = (Done tt, State p (success (JObj [ ("status", JStr "healthy");
                                          ("timestamp", JStr "2025-01-01T00:00:00.000Z") ]))).
Proof.
  split; [reflexivity|].
  eapply (@gateway_routes_need_credential
            Stub.number_repr JsonText.JSON_parse (Stub.fixed "{}") Story (JObj []) _
            (start (Env (Some EmptyString) None)) "2025-01-01T00:00:00.000Z");
    reflexivity.
Defined.

(** The gateway calls of a blocking endpoint on a valid request whose
    user instruction composes. *)
Lemma composed_calls number_repr JSON_parse create e b request p c user :
  safeParse (request_schema e) b = Valid (Some request) ->
  usable_client p = Some c ->
  composes number_repr e request user ->
  gateway_calls (trace (after (handler number_repr JSON_parse create e b) p))
  = (gateway_calls (trace p) ++ [blocking_request e (MODEL p) user])%list.
Proof.
  intros Hvalid Hclient Huser. unfold after.
  rewrite (@blocking_run number_repr JSON_parse create e p b request c user Hvalid Hclient Huser). cbn [snd].
  destruct (blocking_outcome_calls e number_repr JSON_parse
              (create c (blocking_request e (MODEL p) user))
              (logged (EvCreate c (blocking_request e (MODEL p) user))
                      (ensured (logged (EvParse (request_schema e) b) p)))) as [-> _].
  unfold logged at 1; cbn [trace].
  rewrite gateway_calls_app, ensured_gateway_calls.
  unfold logged; cbn [trace]. rewrite gateway_calls_app. simpl.
  rewrite app_nil_r. reflexivity.
Qed.

(** X7: a valid request to a blocking endpoint with a usable client
    calls the gateway at most once, whatever the gateway replies (no
    retry, no second call after a malformed reply).  It calls it exactly
    once when the user instruction composes; the request then names
    [MODEL], asks for a JSON object without streaming, and carries the
    system instruction of the endpoint and the composed user
    instruction.  It does not call it at all when a character of a story
    request cannot be converted to a string: the endpoint then answers
    with status 500 and the message of the [TypeError]. *)
Theorem blocking_endpoint_calls_gateway_once
        number_repr JSON_parse create e b request p c :
  safeParse (request_schema e) b = Valid (Some request) ->
  usable_client p = Some c ->
  let h := handler number_repr JSON_parse create e b in
  if convertible number_repr e request
  then exists user,
         composes number_repr e request user
         /\ gateway_calls (trace (after h p))
            = (gateway_calls (trace p)
               ++ [ Request (MODEL p)
                            [ Message "system" (JStr (system_prompt e));
                              Message "user" (JStr user) ]
                            (Some "json_object") false ])%list
  else gateway_calls (trace (after h p)) = gateway_calls (trace p)
       /\ reply_of h p
          = failure (failure_label e) (Text "Cannot convert object to primitive value").
Proof.
  intros Hvalid Hclient h.
  pose proof (@composition number_repr e b request Hvalid) as Hcomp.
  destruct (convertible number_repr e request).
  - destruct Hcomp as [user Huser]. exists user. split; [exact Huser|].
    exact (@composed_calls number_repr JSON_parse create e b request p c user Hvalid Hclient Huser).
  - unfold after, reply_of, h.
    rewrite (@blocking_run_uncomposed number_repr JSON_parse create e p b request c unconvertible Hvalid Hclient Hcomp).
    cbn [snd proc res]. split; [|reflexivity].
    rewrite ensured_gateway_calls. unfold logged; cbn [trace].
    rewrite gateway_calls_app. simpl. apply app_nil_r.
Qed.

Lemma blocking_endpoint_calls_gateway_once_witness :
  let p := start Stub.configured in
  let plain := JObj [("topic", JStr "tides")] in
  let odd := JObj [("characters", JArr [JObj [("toString", JNum (1 # 1))]])] in
  let h := handler Stub.number_repr JsonText.JSON_parse (Stub.fixed "not json") Story in
  (exists request, safeParse StoryReq plain = Valid (Some request))
  /\ (exists request, safeParse StoryReq odd = Valid (Some request))
  /\ (exists user,
        gateway_calls (trace (after (h plain) p))
        = (gateway_calls (trace p)
           ++ [ Request (MODEL p)
                        [ Message "system" (JStr (system_prompt Story));
                          Message "user" (JStr user) ]
                        (Some "json_object") false ])%list)
  /\ gateway_calls (trace (after (h odd) p)) = gateway_calls (trace p)
  /\ reply_of (h odd) p
     = failure "Story generation failed" (Text "Cannot convert object to primitive value").
Proof.
  split; [eexists; reflexivity|].
  split; [eexists; reflexivity|].
  split.
  - destruct (@blocking_endpoint_calls_gateway_once
                Stub.number_repr JsonText.JSON_parse (Stub.fixed "not json") Story
                (JObj [("topic", JStr "tides")]) _ (start Stub.configured)
                (Client "sk-test" 0) eq_refl eq_refl) as (user & _ & H).
    exists user. exact H.
  - exact (@blocking_endpoint_calls_gateway_once
             Stub.number_repr JsonText.JSON_parse (Stub.fixed "not json") Story
             (JObj [("characters", JArr [JObj [("toString", JNum (1 # 1))]])]) _
             (start Stub.configured) (Client "sk-test" 0) eq_refl eq_refl).
Defined.

(** X8: when the gateway rejects the call of a blocking endpoint (it is
    unreachable, or answers with a failure status), for a request whose
    user instruction composes, the endpoint answers with status 500, its
    own label, and the reason of the rejection as detail.  The gateway
    was called once: there is no second attempt. *)
Theorem gateway_rejection_is_reported
        number_repr JSON_parse create e b request p c reason :
  safeParse (request_schema e) b = Valid (Some request) ->
  convertible number_repr e request = true ->
  usable_client p = Some c ->
  (forall r, create c r = Rejected reason) ->
  let h := handler number_repr JSON_parse create e b in
  reply_of h p = failure (failure_label e) (Text reason)
  /\ statusCode (reply_of h p) = 500
  /\ List.length (gateway_calls (trace (after h p)))
     = S (List.length (gateway_calls (trace p))).
Proof.
  intros Hvalid Hconv Hclient Hreject h.
  destruct (@convertible_composes number_repr e b request Hvalid Hconv) as [user Huser].
  assert (Hreply : reply_of h p = failure (failure_label e) (Text reason)).
  { unfold reply_of, h.
    rewrite (@blocking_run number_repr JSON_parse create e p b request c user Hvalid Hclient Huser), Hreject.
    reflexivity. }
  split; [exact Hreply|]. split; [rewrite Hreply; reflexivity|].
  unfold h. rewrite (@composed_calls number_repr JSON_parse create e b request p c user Hvalid Hclient Huser).
  rewrite length_app. simpl. lia.
Qed.

Lemma gateway_rejection_is_reported_witness :
  let p := start Stub.configured in
  let h := handler Stub.number_repr JsonText.JSON_parse Stub.unreachable Character (JObj []) in
  reply_of h p = failure "Character generation failed" (Text "connect ECONNREFUSED")
  /\ statusCode (reply_of h p) = 500
  /\ List.length (gateway_calls (trace (after h p)))
     = S (List.length (gateway_calls (trace p))).
Proof.
  eapply (@gateway_rejection_is_reported
            Stub.number_repr JsonText.JSON_parse Stub.unreachable Character (JObj []) _
            (start Stub.configured) (Client "sk-test" 0) "connect ECONNREFUSED");
    [reflexivity | reflexivity | reflexivity | intros r; reflexivity].
Defined.

(** X9: for every payload that passes [CharacterReq], the user
    instruction of [/api/character] is the fixed template filled with
    the four fields of the validated request, verbatim; each of them is
    the payload's own string where the payload has one, and the declared
    default where it has none. *)
Theorem character_prompt_template number_repr fields request :
  safeParse CharacterReq (JObj fields) = Valid (Some request) ->
  exists prompt audience style constraints,
    request = validated_character prompt audience style constraints
    /\ (forall st,
          character_user_prompt number_repr request st
          = (Done (character_template prompt audience style constraints), st))
    /\ (lookup "prompt" fields = Some (JStr prompt)
        \/ (lookup "prompt" fields = None
            /\ prompt = "Create a kid-friendly STEM character."))
    /\ (lookup "audience" fields = Some (JStr audience)
        \/ (lookup "audience" fields = None /\ audience = "ages 6–10"))
    /\ (lookup "style" fields = Some (JStr style)
        \/ (lookup "style" fields = None /\ style = "bright 2D cartoon"))
    /\ (lookup "constraints" fields = Some (JStr constraints)
        \/ (lookup "constraints" fields = None
            /\ constraints = "original; no resemblance to existing IP")).
Proof.
  intros H.
  destruct (character_members _ H)
    as (prompt & audience & style & constraints & -> & Hrest).
  exists prompt, audience, style, constraints.
  split; [reflexivity|]. split; [intros st; reflexivity | exact Hrest].
Qed.

Lemma character_prompt_template_witness :
  let fields := [ ("prompt", JStr "A fox who loves tides"); ("style", JStr "watercolour") ] in
  let request :=
    validated_character "A fox who loves tides" "ages 6–10" "watercolour"
                        "original; no resemblance to existing IP" in
  safeParse CharacterReq (JObj fields) = Valid (Some request)
  /\ exists prompt audience style constraints,
      request = validated_character prompt audience style constraints
      /\ (forall st,
            character_user_prompt Stub.number_repr request st
            = (Done (character_template prompt audience style constraints), st))
      /\ (lookup "prompt" fields = Some (JStr prompt)
          \/ (lookup "prompt" fields = None
              /\ prompt = "Create a kid-friendly STEM character."))
      /\ (lookup "audience" fields = Some (JStr audience)
          \/ (lookup "audience" fields = None /\ audience = "ages 6–10"))
      /\ (lookup "style" fields = Some (JStr style)
          \/ (lookup "style" fields = None /\ style = "bright 2D cartoon"))
      /\ (lookup "constraints" fields = Some (JStr constraints)
          \/ (lookup "constraints" fields = None
              /\ constraints = "original; no resemblance to existing IP")).
Proof.
  split; [reflexivity|].
  apply (@character_prompt_template Stub.number_repr
           [ ("prompt", JStr "A fox who loves tides"); ("style", JStr "watercolour") ]).
  reflexivity.
Defined.

End BlockingMore.

Module ResponseShape.
Import JS Zod Runtime Server Endpoint Expected Further ZodFacts HandleFacts HandlerFacts
       BlockingFacts.

Lemma required_member_issue e k fields shape :
  response_schema e = z_object shape ->
  In k (required_members e) ->
  lookup k fields = None ->
  exists expected,
    In (Issue (invalid_type expected "undefined") [PKey k])
       (fst (parse_members shape [] fields)).
Proof.
  intros Hshape Hk Hnone.
  destruct e; inversion Hshape; subst; clear Hshape;
    simpl in Hk;
    repeat (destruct Hk as [<- | Hk];
            [ eexists;
              match goal with
              | |- In (Issue _ [PKey ?key]) _ =>
                  eapply (@parse_members_issues _ [] fields key _ _)
              end;
              [ repeat first [left; reflexivity | right]
              | cbn [app]; rewrite Hnone; reflexivity
              | left; reflexivity ]
            | ]);
    contradiction.
Qed.

(** X10: the members of a response that have no default are required:
    when the gateway's JSON object, in reply to a request whose user
    instruction composes, lacks one of them (six for a character, all
    seven for a story), the endpoint answers with status 500, and the
    issues in its detail name the missing member by its path. *)
Theorem missing_member_is_named
        number_repr JSON_parse create e b request p c text others fields k :
  safeParse (request_schema e) b = Valid (Some request) ->
  convertible number_repr e request = true ->
  usable_client p = Some c ->
  (forall r, create c r = Completion (Some text :: others)) ->
  JSON_parse text = Some (JObj fields) ->
  In k (required_members e) ->
  lookup k fields = None ->
  exists issues expected,
    reply_of (handler number_repr JSON_parse create e b) p
    = failure (failure_label e) (Issues issues)
    /\ In (Issue (invalid_type expected "undefined") [PKey k]) issues.
Proof.
  intros Hvalid Hconv Hclient Hreply Hparse Hk Hnone.
  destruct (@convertible_composes number_repr e b request Hvalid Hconv) as [user Huser].
  pose proof (@blocking_run number_repr JSON_parse create e p b request c user Hvalid Hclient Huser) as Hrun.
  assert (Hshape : exists shape, response_schema e = z_object shape)
    by (destruct e; eexists; reflexivity).
  destruct Hshape as [shape Hshape].
  destruct (required_member_issue e k fields Hshape Hk Hnone) as [expected Hin].
  assert (Hbad : safeParse (response_schema e) (JObj fields)
                 = Invalid (fst (parse_members shape [] fields))).
  { rewrite Hshape, safeParse_object.
    destruct (parse_members shape [] fields) as [issues out]; simpl in *.
    destruct issues; [destruct Hin | reflexivity]. }
  exists (fst (parse_members shape [] fields)), expected.
  split; [|exact Hin].
  unfold reply_of. rewrite Hrun, Hreply. cbn [snd].
  unfold blocking_outcome, safeParseJSON, of_content. cbn [ToString].
  rewrite Hparse. cbn [truthy]. rewrite Hbad. reflexivity.
Qed.

Lemma missing_member_is_named_witness :
  let text := JSON_stringify Stub.number_repr (JObj [("title", JStr "Tides")]) in
  let p := start Stub.configured in
  JsonText.JSON_parse text = Some (JObj [("title", JStr "Tides")])
  /\ exists issues expected,
      reply_of (handler Stub.number_repr JsonText.JSON_parse (Stub.fixed text) Story
                        (JObj [])) p
      = failure "Story generation failed" (Issues issues)
      /\ In (Issue (invalid_type expected "undefined") [PKey "scenes"]) issues.
Proof.
  split; [vm_compute; reflexivity|].
  eapply (@missing_member_is_named
            Stub.number_repr JsonText.JSON_parse
            (Stub.fixed (JSON_stringify Stub.number_repr (JObj [("title", JStr "Tides")])))
            Story (JObj []) _ (start Stub.configured) (Client "sk-test" 0)
            (JSON_stringify Stub.number_repr (JObj [("title", JStr "Tides")])) []
            [("title", JStr "Tides")] "scenes");
    [ reflexivity | reflexivity | reflexivity | intros r; reflexivity
    | vm_compute; reflexivity | simpl; tauto | reflexivity ].
Defined.

(** X11: once a client is cached, the blocking endpoints go through it
    without looking at the environment again: whatever the credential
    is by then (changed, emptied, removed), a valid request whose user
    instruction composes is sent to the gateway through the cached
    client, nothing is constructed, and the cached client stays. *)
Theorem cached_client_outlives_credential
        number_repr JSON_parse create e b request p c :
  safeParse (request_schema e) b = Valid (Some request) ->
  convertible number_repr e request = true ->
  openai p = Some c ->
  let h := handler number_repr JSON_parse create e b in
  (exists user, In (EvCreate c (blocking_request e (MODEL p) user)) (trace (after h p)))
  /\ constructions (trace (after h p)) = constructions (trace p)
  /\ openai (after h p) = Some c.
Proof.
  intros Hvalid Hconv Hcached h.
  assert (Hclient : usable_client p = Some c)
    by (unfold usable_client; rewrite Hcached; reflexivity).
  destruct (@convertible_composes number_repr e b request Hvalid Hconv) as [user Huser].
  pose proof (@blocking_run number_repr JSON_parse create e p b request c user Hvalid Hclient Huser) as Hrun.
  assert (Hsame : ensured (logged (EvParse (request_schema e) b) p)
                  = logged (EvParse (request_schema e) b) p)
    by (unfold ensured, logged; cbn [openai]; rewrite Hcached; reflexivity).
  unfold after, h. rewrite Hrun, Hsame. cbn [snd].
  set (p1 := logged (EvCreate c (blocking_request e (MODEL p) user))
                    (logged (EvParse (request_schema e) b) p)).
  assert (Hin : In (EvCreate c (blocking_request e (MODEL p) user)) (trace p1))
    by (unfold p1, logged; cbn [trace]; apply in_or_app; right; left; reflexivity).
  assert (Hopen : openai p1 = Some c) by exact Hcached.
  assert (Hcount : constructions (trace p1) = constructions (trace p)).
  { unfold p1, logged; cbn [trace]. unfold constructions.
    rewrite !filter_app, !length_app. simpl. lia. }
  destruct (blocking_outcome_calls e number_repr JSON_parse
              (create c (blocking_request e (MODEL p) user)) p1) as [_ Hc].
  rewrite Hc, Hcount.
  split; [exists user|split; [reflexivity|]];
    unfold blocking_outcome;
    destruct (create c (blocking_request e (MODEL p) user)) as [reason | [|reply rest]];
    cbv zeta; try assumption;
    destruct (truthy _); try assumption;
    destruct (safeParse (response_schema e) _); cbn [proc]; unfold logged;
    cbn [trace openai]; try assumption; apply in_or_app; left; exact Hin.
Qed.

Lemma cached_client_outlives_credential_witness :
  let c := Client "sk-old" 0 in
  let p := Process (Env None None) (Some c) "gpt-4o-mini" [EvNew c] [] in
  let h := handler Stub.number_repr JsonText.JSON_parse (Stub.fixed "{}") Character
                   (JObj []) in
  (exists user, In (EvCreate c (blocking_request Character (MODEL p) user))
                   (trace (after h p)))
  /\ constructions (trace (after h p)) = constructions (trace p)
  /\ openai (after h p) = Some c.
Proof.
  eapply (@cached_client_outlives_credential
            Stub.number_repr JsonText.JSON_parse (Stub.fixed "{}") Character (JObj []) _
            (Process (Env None None) (Some (Client "sk-old" 0)) "gpt-4o-mini"
                     [EvNew (Client "sk-old" 0)] [])
            (Client "sk-old" 0));
    reflexivity.
Defined.

End ResponseShape.

(** ** More on the schemas *)

Module SchemaFacts.
Import JS Zod Runtime Server Endpoint Expected Further ZodFacts.

(** Induction over schemas, members of objects included. *)
Section Induction.

Variable P : schema -> Prop.
Hypothesis Hstring : forall checks, P (z_string checks).
Hypothesis Hnumber : forall checks, P (z_number checks).
Hypothesis Hany : P z_any.
Hypothesis Harray : forall item, P item -> P (z_array item).
Hypothesis Hobject :
  forall shape, Forall (fun member => P (snd member)) shape -> P (z_object shape).
Hypothesis Hoptional : forall inner, P inner -> P (z_optional inner).
Hypothesis Hdefault : forall inner value, P inner -> P (z_default inner value).

Fixpoint schema_induction (s : schema) : P s :=
  match s with
  | z_string checks => Hstring checks
  | z_number checks => Hnumber checks
  | z_any => Hany
  | z_array item => Harray (schema_induction item)
  | z_object shape =>
      Hobject
        ((fix members (l : list (string * schema))
            : Forall (fun member => P (snd member)) l :=
            match l with
            | [] => Forall_nil _
            | member :: rest =>
                Forall_cons member
                  (match member return P (snd member) with
                   | (_, field) => schema_induction field
                   end)
                  (members rest)
            end) shape)
  | z_optional inner => Hoptional (schema_induction inner)
  | z_default inner value => Hdefault value (schema_induction inner)
  end.

End Induction.

Lemma str_issues_path p p' s checks :
  flat_map (str_issue p s) checks = [] -> flat_map (str_issue p' s) checks = [].
Proof.
  induction checks as [|[n] checks IH]; simpl; [reflexivity|].
  destruct (String.length s <? n)%nat; simpl; [discriminate | exact IH].
Qed.

Lemma num_issues_path p p' q checks :
  flat_map (num_issue p q) checks = [] -> flat_map (num_issue p' q) checks = [].
Proof.
  induction checks as [|c checks IH]; simpl; [reflexivity|].
  destruct c; simpl.
  - destruct (is_integer q); simpl; [exact IH | discriminate].
  - destruct (Qle_bool q0 q); simpl; [exact IH | discriminate].
  - destruct (Qle_bool q q0); simpl; [exact IH | discriminate].
Qed.

Lemma checked_valid input issues output :
  checked input issues = Valid output -> issues = [] /\ output = input.
Proof. destruct issues; simpl; intros H; inversion H; auto. Qed.

Lemma finish_valid issues value output :
  finish issues value = Valid output -> issues = [] /\ output = Some value.
Proof. destruct issues; simpl; intros H; inversion H; auto. Qed.

Lemma add_member_valid k r issues out result :
  add_member k r (issues, out) = ([], result) ->
  issues = []
  /\ ((exists v, r = Valid (Some v) /\ result = (k, v) :: out)
      \/ (r = Valid None /\ result = out)
      \/ r = Invalid []).
Proof.
  unfold add_member. destruct r as [[v|]|e]; intros H; inversion H; subst.
  - split; [reflexivity|]. left. eauto.
  - split; [reflexivity|]. right; left. auto.
  - match goal with
    | H : (_ ++ _)%list = [] |- _ => apply app_eq_nil in H as [-> ->]
    end.
    split; [reflexivity|]. right; right. reflexivity.
Qed.

Lemma elements_path item p p' items :
  path_free item ->
  forall i i' out,
    parse_elements (zparse item) p items i = ([], out) ->
    parse_elements (zparse item) p' items i' = ([], out).
Proof.
  intros Hitem. induction items as [|x items IH]; intros i i' out H; simpl in *.
  - exact H.
  - destruct (parse_elements (zparse item) p items (S i)) as [issues rest] eqn:E.
    destruct (zparse item (p ++ [PIdx i]) (Some x)) as [[v|]|e] eqn:Ex.
    + inversion H; subst.
      rewrite (IH _ (S i') _ E).
      rewrite (Hitem _ (p' ++ [PIdx i'])%list _ _ Ex). reflexivity.
    + exfalso. eapply present_stays_defined; eassumption.
    + exfalso. inversion H as [[Happ Hout]].
      apply app_eq_nil in Happ as [He _].
      eapply invalid_nonempty; eassumption.
Qed.

Lemma members_path shape p p' fields :
  Forall (fun member => path_free (snd member)) shape ->
  forall out,
    parse_members shape p fields = ([], out) ->
    parse_members shape p' fields = ([], out).
Proof.
  induction 1 as [|[k field] shape Hfield _ IH]; intros out H.
  - exact H.
  - cbn [snd] in Hfield. rewrite parse_members_cons in *.
    destruct (parse_members shape p fields) as [issues rest] eqn:E.
    apply add_member_valid in H as [-> Hcases].
    rewrite (IH _ eq_refl).
    destruct Hcases as [(v & Hv & ->) | [(Hv & ->) | Hv]].
    + rewrite (Hfield _ (p' ++ [PKey k])%list _ _ Hv). reflexivity.
    + rewrite (Hfield _ (p' ++ [PKey k])%list _ _ Hv). reflexivity.
    + exfalso. eapply invalid_nonempty; [exact Hv | reflexivity].
Qed.

Lemma every_schema_path_free s : path_free s.
Proof.
  induction s as [checks|checks| |item IHs|shape IHshape|inner IHs|inner value IHs]
    using schema_induction;
    intros p p' input output H; simpl in *.
  - destruct input as [[]|]; try discriminate.
    apply checked_valid in H as [Hnil ->].
    rewrite (@str_issues_path p p' _ _ Hnil). reflexivity.
  - destruct input as [[]|]; try discriminate.
    apply checked_valid in H as [Hnil ->].
    rewrite (@num_issues_path p p' _ _ Hnil). reflexivity.
  - exact H.
  - destruct input as [[]|]; try discriminate.
    destruct (parse_elements (zparse item) p items 0) as [issues out] eqn:E.
    apply finish_valid in H as [-> ->].
    rewrite (@elements_path item p p' items IHs 0%nat 0%nat out E). reflexivity.
  - destruct input as [[]|]; try discriminate.
    fold (parse_members shape p fields) in H.
    fold (parse_members shape p' fields).
    destruct (parse_members shape p fields) as [issues out] eqn:E.
    apply finish_valid in H as [-> ->].
    rewrite (@members_path shape p p' fields IHshape out E). reflexivity.
  - destruct input; [eapply IHs; eassumption | exact H].
  - destruct input; eapply IHs; eassumption.
Qed.

Lemma elements_settled item p p' items :
  settled item ->
  forall i i' out,
    parse_elements (zparse item) p items i = ([], out) ->
    parse_elements (zparse item) p' out i' = ([], out).
Proof.
  intros Hitem. induction items as [|x items IH]; intros i i' out H; simpl in *.
  - inversion H. reflexivity.
  - destruct (parse_elements (zparse item) p items (S i)) as [issues rest] eqn:E.
    destruct (zparse item (p ++ [PIdx i]) (Some x)) as [[v|]|e] eqn:Ex.
    + inversion H; subst. simpl.
      rewrite (IH _ (S i') _ E).
      rewrite (Hitem _ (p' ++ [PIdx i'])%list _ _ Ex). reflexivity.
    + exfalso. eapply present_stays_defined; eassumption.
    + exfalso. inversion H as [[Happ Hout]].
      apply app_eq_nil in Happ as [He _].
      eapply invalid_nonempty; eassumption.
Qed.

(** The members of an object are read by key. *)
Lemma members_by_key shape p fields fields' :
  (forall k, In k (map fst shape) -> lookup k fields = lookup k fields') ->
  parse_members shape p fields = parse_members shape p fields'.
Proof.
  induction shape as [|[k field] shape IH]; intros H; [reflexivity|].
  rewrite !parse_members_cons.
  rewrite IH by (intros k' Hk'; apply H; right; exact Hk').
  rewrite (H k) by (left; reflexivity). reflexivity.
Qed.

Lemma members_keys shape p fields issues out :
  parse_members shape p fields = (issues, out) ->
  forall k, In k (map fst out) -> In k (map fst shape).
Proof.
  revert issues out.
  induction shape as [|[k field] shape IH]; intros issues out H k' Hk'.
  - inversion H; subst. destruct Hk'.
  - rewrite parse_members_cons in H.
    destruct (parse_members shape p fields) as [issues' rest] eqn:E.
    unfold add_member in H.
    destruct (zparse field _ _) as [[v|]|e]; inversion H; subst.
    + destruct Hk' as [<- | Hk']; [left; reflexivity | right; eapply IH; eauto].
    + right; eapply IH; eauto.
    + right; eapply IH; eauto.
Qed.

Lemma unique_head k rest : unique (k :: rest) = true -> ~ In k rest /\ unique rest = true.
Proof.
  simpl. intros H. apply andb_prop in H as [Hk Hrest]. split; [|exact Hrest].
  intros Hin. apply negb_true_iff in Hk.
  assert (existsb (String.eqb k) rest = true)
    by (apply existsb_exists; exists k; split; [exact Hin | apply String.eqb_refl]).
  congruence.
Qed.

Lemma lookup_absent k fields : ~ In k (map fst fields) -> lookup k fields = None.
Proof.
  intros H. destruct (lookup k fields) eqn:E; [|reflexivity].
  exfalso. apply H. apply lookup_defined_key. congruence.
Qed.

Lemma lookup_skip k k' v fields : k' <> k -> lookup k ((k', v) :: fields) = lookup k fields.
Proof.
  intros H. simpl. destruct (String.eqb k' k) eqn:E; [|reflexivity].
  apply String.eqb_eq in E. contradiction.
Qed.

Lemma members_settled shape p p' fields :
  Forall (fun member => settled (snd member)) shape ->
  unique (map fst shape) = true ->
  forall out,
    parse_members shape p fields = ([], out) ->
    parse_members shape p' out = ([], out).
Proof.
  induction 1 as [|[k field] shape Hfield _ IH]; intros Hunique out H.
  - inversion H. reflexivity.
  - cbn [snd] in Hfield.
    cbn [map fst] in Hunique. apply unique_head in Hunique as [Hfresh Hunique].
    rewrite parse_members_cons in *.
    destruct (parse_members shape p fields) as [issues rest] eqn:E.
    apply add_member_valid in H as [-> Hcases].
    specialize (IH Hunique _ eq_refl).
    assert (Hrest : ~ In k (map fst rest))
      by (intros Hin; apply Hfresh; eapply members_keys; eassumption).
    destruct Hcases as [(v & Hv & ->) | [(Hv & ->) | Hv]].
    + rewrite (@members_by_key shape p' ((k, v) :: rest) rest), IH.
      * simpl lookup. rewrite String.eqb_refl.
        rewrite (Hfield _ (p' ++ [PKey k])%list _ _ Hv). reflexivity.
      * intros k' Hk'. apply lookup_skip. intros ->. contradiction.
    + rewrite IH. rewrite (@lookup_absent _ _ Hrest).
      assert (Hnone : lookup k fields = None).
      { destruct (lookup k fields) eqn:El; [|reflexivity].
        exfalso. eapply present_stays_defined; eassumption. }
      rewrite Hnone in Hv.
      pose proof (every_schema_path_free field) as Hfree.
      rewrite (Hfree _ (p' ++ [PKey k])%list _ _ Hv). reflexivity.
    + exfalso. eapply invalid_nonempty; [exact Hv | reflexivity].
Qed.

Lemma distinct_keys_settled s : distinct_keys s = true -> settled s.
Proof.
  induction s as [checks|checks| |item IHs|shape IHshape|inner IHs|inner value IHs]
    using schema_induction;
    intros Hkeys p p' input output H; simpl in *.
  - destruct input as [[]|]; try discriminate.
    apply checked_valid in H as [Hnil Hout]. inversion Hout; subst.
    rewrite (@str_issues_path p p' _ _ Hnil). reflexivity.
  - destruct input as [[]|]; try discriminate.
    apply checked_valid in H as [Hnil Hout]. inversion Hout; subst.
    rewrite (@num_issues_path p p' _ _ Hnil). reflexivity.
  - reflexivity.
  - destruct input as [[]|]; try discriminate.
    destruct (parse_elements (zparse item) p items 0) as [issues out] eqn:E.
    apply finish_valid in H as [-> Hout]. inversion Hout; subst.
    rewrite (@elements_settled item p p' items (IHs Hkeys) 0%nat 0%nat out E). reflexivity.
  - destruct input as [[]|]; try discriminate.
    fold (parse_members shape p fields) in H.
    apply andb_prop in Hkeys as [Hunique Hall].
    destruct (parse_members shape p fields) as [issues out] eqn:E.
    apply finish_valid in H as [-> Hout]. inversion Hout; subst.
    fold (parse_members shape p' out).
    assert (Hsettled : Forall (fun member => settled (snd member)) shape).
    { rewrite Forall_forall in *. intros [k field] Hin.
      apply (IHshape _ Hin). rewrite forallb_forall in Hall.
      exact (Hall _ Hin). }
    rewrite (@members_settled shape p p' fields Hsettled Hunique out E). reflexivity.
  - destruct input; [eapply IHs; eassumption | discriminate].
  - destruct input; eapply IHs; eassumption.
Qed.

End SchemaFacts.

Module Schemas.
Import JS Zod Runtime Server Endpoint Expected Further ZodFacts SchemaFacts.

(** X12: validation is idempotent for every schema of the two server
    files: a value that a schema returned is accepted by that schema
    again and returned unchanged, so a validated request can be posted
    again and a returned answer can be checked again without being
    altered a second time. *)
Theorem validation_is_idempotent s data out :
  In s (schemas ++ [ServerJs.StoryReq; ServerJs.StoryRes]) ->
  safeParse s data = Valid (Some out) ->
  safeParse s out = Valid (Some out).
Proof.
  intros Hin H. unfold safeParse in *.
  assert (Hkeys : distinct_keys s = true).
  { simpl in Hin.
    repeat (destruct Hin as [<- | Hin]; [reflexivity|]). destruct Hin. }
  exact (distinct_keys_settled s Hkeys [] [] (Some data) H).
Qed.

Lemma validation_is_idempotent_witness :
  let data := JObj [ ("minutes", JNum (7 # 1)); ("unknown", JBool true) ] in
  exists out,
    safeParse StoryReq data = Valid (Some out)
    /\ out <> data
    /\ safeParse StoryReq out = Valid (Some out).
Proof.
  eexists. split; [reflexivity|]. split; [discriminate|].
  apply (@validation_is_idempotent StoryReq
           (JObj [ ("minutes", JNum (7 # 1)); ("unknown", JBool true) ])).
  - simpl. tauto.
  - reflexivity.
Defined.

Lemma plain_member_accepted d p v :
  string_or_absent v = true ->
  exists s, zparse (z_default (z_string []) (JStr d)) p v = Valid (Some (JStr s)).
Proof.
  destruct v as [[]|]; simpl; try discriminate; eauto.
Qed.

Lemma plain_member_rejected d p v :
  string_or_absent v = false ->
  exists l, zparse (z_default (z_string []) (JStr d)) p v = Invalid l.
Proof.
  destruct v as [[]|]; simpl; try discriminate; eauto.
Qed.

Lemma prompt_member_accepted p v :
  text_or_absent v = true ->
  exists s,
    zparse (z_default (z_string [SMin 1]) (JStr "Create a kid-friendly STEM character."))
           p v = Valid (Some (JStr s)).
Proof.
  destruct v as [[]|]; simpl; try discriminate; eauto.
  destruct s; simpl; [discriminate | eauto].
Qed.

Lemma prompt_member_rejected p v :
  text_or_absent v = false ->
  exists l,
    zparse (z_default (z_string [SMin 1]) (JStr "Create a kid-friendly STEM character."))
           p v = Invalid l.
Proof.
  destruct v as [[]|]; simpl; try discriminate; eauto.
  destruct s; simpl; [eauto | discriminate].
Qed.

(** X13: [CharacterReq] accepts exactly the JSON objects whose [prompt],
    when present, is a non-empty string and whose [audience], [style]
    and [constraints], when present, are strings; members it does not
    know are ignored.  Arrays, [null] and other values are rejected, and
    so is a member that is [null]. *)
Theorem character_request_accepted_iff b :
  (exists request, safeParse CharacterReq b = Valid (Some request))
  <-> character_payload b = true.
Proof.
  split.
  - intros [request H].
    destruct (object_expected _ _ H) as [fields ->].
    destruct (character_payload (JObj fields)) eqn:E; [reflexivity|].
    exfalso. cbn [character_payload] in E.
    assert (Hbad : fst (parse_members
                          [ ("prompt", z_default (z_string [SMin 1])
                                         (JStr "Create a kid-friendly STEM character."));
                            ("audience", z_default (z_string []) (JStr "ages 6–10"));
                            ("style", z_default (z_string []) (JStr "bright 2D cartoon"));
                            ("constraints",
                             z_default (z_string [])
                                       (JStr "original; no resemblance to existing IP")) ]
                          [] fields) <> []).
    { destruct (text_or_absent (lookup "prompt" fields)) eqn:E1;
        [|destruct (prompt_member_rejected ([] ++ [PKey "prompt"]) _ E1) as [l Hl];
          eapply parse_members_invalid; [left; reflexivity | exact Hl]].
      destruct (string_or_absent (lookup "audience" fields)) eqn:E2;
        [|destruct (plain_member_rejected "ages 6–10" ([] ++ [PKey "audience"]) _ E2)
            as [l Hl];
          eapply parse_members_invalid; [right; left; reflexivity | exact Hl]].
      destruct (string_or_absent (lookup "style" fields)) eqn:E3;
        [|destruct (plain_member_rejected "bright 2D cartoon" ([] ++ [PKey "style"]) _ E3)
            as [l Hl];
          eapply parse_members_invalid; [right; right; left; reflexivity | exact Hl]].
      destruct (string_or_absent (lookup "constraints" fields)) eqn:E4;
        [discriminate|].
      destruct (plain_member_rejected "original; no resemblance to existing IP"
                                      ([] ++ [PKey "constraints"]) _ E4) as [l Hl].
      eapply parse_members_invalid; [right; right; right; left; reflexivity | exact Hl]. }
    apply Validation.object_invalid in Hbad as (issues & _ & Hinvalid).
    fold CharacterReq in Hinvalid. congruence.
  - destruct b; try discriminate. cbn [character_payload].
    intros H. apply andb_prop in H as [H H4]. apply andb_prop in H as [H H3].
    apply andb_prop in H as [H1 H2].
    destruct (prompt_member_accepted ([] ++ [PKey "prompt"]) _ H1) as [s1 E1].
    destruct (plain_member_accepted "ages 6–10" ([] ++ [PKey "audience"]) _ H2) as [s2 E2].
    destruct (plain_member_accepted "bright 2D cartoon" ([] ++ [PKey "style"]) _ H3)
      as [s3 E3].
    destruct (plain_member_accepted "original; no resemblance to existing IP"
                                    ([] ++ [PKey "constraints"]) _ H4) as [s4 E4].
    exists (validated_character s1 s2 s3 s4).
    unfold CharacterReq. rewrite safeParse_object.
    rewrite !parse_members_cons. rewrite E1, E2, E3, E4. reflexivity.
Qed.

(** What an object schema returns has none of the members of another
    schema that the first does not name. *)
Lemma foreign_output_rejected shape shape' doc out k field l :
  safeParse (z_object shape) doc = Valid (Some out) ->
  ~ In k (map fst shape) ->
  In (k, field) shape' ->
  zparse field ([] ++ [PKey k])%list None = Invalid l ->
  exists issues, safeParse (z_object shape') out = Invalid issues.
Proof.
  intros H Hfresh Hin Hbad.
  destruct (object_expected _ _ H) as [fields ->].
  rewrite safeParse_object in H.
  destruct (parse_members shape [] fields) as [issues entries] eqn:E.
  apply finish_valid in H as [-> Hout]. inversion Hout; subst.
  assert (Hnone : lookup k entries = None).
  { apply lookup_absent. intros Hk. apply Hfresh.
    eapply members_keys; eassumption. }
  destruct (@Validation.object_invalid shape' entries) as (issues & _ & Hinvalid).
  { eapply parse_members_invalid; [exact Hin | rewrite Hnone; exact Hbad]. }
  exists issues. exact Hinvalid.
Qed.

(** X14: the story answers of the two server files do not mix: what the
    [StoryRes] of the listing returns is rejected by the [StoryRes] of
    [server.js], and what the [StoryRes] of [server.js] returns is
    rejected by that of the listing (each strips the members the other
    requires). *)
Theorem story_answers_do_not_mix doc out :
  (safeParse Server.StoryRes doc = Valid (Some out) ->
   exists issues, safeParse ServerJs.StoryRes out = Invalid issues)
  /\ (safeParse ServerJs.StoryRes doc = Valid (Some out) ->
      exists issues, safeParse Server.StoryRes out = Invalid issues).
Proof.
  split; intros H.
  - eapply (@foreign_output_rejected _ _ doc out "safety_notes"); [exact H | | | ].
    + simpl. intuition discriminate.
    + do 6 right; left; reflexivity.
    + reflexivity.
  - eapply (@foreign_output_rejected _ _ doc out "moral"); [exact H | | | ].
    + simpl. intuition discriminate.
    + do 4 right; left; reflexivity.
    + reflexivity.
Qed.

Lemma story_answers_do_not_mix_witness :
  let doc := JObj [ ("title", JStr "Tides"); ("opening", JStr "Once");
                    ("scenes", JArr []); ("closing", JStr "The end");
                    ("moral", JStr "Look closely");
                    ("educational_goals", JArr []); ("total_duration", JNum (60 # 1));
                    ("educational_points", JArr []); ("safety_notes", JArr []) ] in
  exists out,
    safeParse Server.StoryRes doc = Valid (Some out)
    /\ exists issues, safeParse ServerJs.StoryRes out = Invalid issues.
Proof.
  eexists. split; [reflexivity|].
  eapply (proj1 (@story_answers_do_not_mix
                   (JObj [ ("title", JStr "Tides"); ("opening", JStr "Once");
                           ("scenes", JArr []); ("closing", JStr "The end");
                           ("moral", JStr "Look closely");
                           ("educational_goals", JArr []);
                           ("total_duration", JNum (60 # 1));
                           ("educational_points", JArr []);
                           ("safety_notes", JArr []) ]) _)).
  reflexivity.
Defined.

End Schemas.

(** ** The routes beside the gateway, and [server.backup.js] *)

Module Selfcheck.
Import JS Zod Runtime Server Endpoint Expected Further HandleFacts HandlerFacts Routes.

(** X15: [/__selfcheck] answers 200 and changes nothing; it reports the
    [MODEL] the gateway requests carry, and its [hasOpenAI] flag is true
    exactly when the credential is set and not empty.  When the flag is
    true, [getOpenAI] succeeds; when it is false and no client is
    cached, [getOpenAI] throws "OPENAI_API_KEY not set". *)
Theorem selfcheck_reports_what_getOpenAI_finds now p r :
  run (selfcheck now) p
  = (Done tt,
     State p (success (JObj [ ("status", JStr "ok");
                              ("model", JStr (MODEL p));
                              ("hasOpenAI", JBool (has_key (env p)));
                              ("timestamp", JStr now) ])))
  /\ (has_key (env p) = true <-> nonempty (OPENAI_API_KEY (env p)) <> None)
  /\ (has_key (env p) = true ->
      exists c, getOpenAI (State p r) = (Done c, State (ensured p) r))
  /\ (has_key (env p) = false ->
      openai p = None ->
      getOpenAI (State p r) = (Thrown (Error "OPENAI_API_KEY not set"), State p r)).
Proof.
  split; [reflexivity|].
  unfold has_key.
  destruct (nonempty (OPENAI_API_KEY (env p))) as [k|] eqn:E.
  - split; [split; [discriminate | reflexivity]|].
    split; [|discriminate].
    intros _.
    assert (H : exists c, usable_client (proc (State p r)) = Some c).
    { unfold usable_client; cbn [proc]. rewrite E. destruct (openai p); eauto. }
    destruct H as [c H]. exists c. apply (getOpenAI_succeeds (State p r) H).
  - split; [split; [discriminate | congruence]|].
    split; [discriminate|].
    intros _ Hnone.
    apply (getOpenAI_fails (State p r)).
    unfold usable_client; cbn [proc]. rewrite Hnone, E. reflexivity.
Qed.

End Selfcheck.

Module BackupFacts.
Import JS Zod Runtime Server Endpoint Expected Further HandleFacts HandlerFacts.

Section Facts.

Variable number_repr : Q -> string.
Variable openai_client : client.
Variable MODEL_name : string.
Variable create_stream : client -> gateway_request -> Q -> stream_reply.
Variable status_of : exn -> json.

Lemma backup_for_await_run chunks failure : forall p code hs b w e,
  Backup.for_await chunks failure (State p (Response code hs true b w e))
  = (match failure with
     | None => Done tt
     | Some reason => Thrown (Error reason)
     end,
     State p (Response code hs true b (w ++ forwarded chunks) e)).
Proof.
  induction chunks as [|c rest IH]; intros p code hs b w e.
  - cbn [Backup.for_await forwarded flat_map]. rewrite app_nil_r.
    destruct failure; reflexivity.
  - cbn [Backup.for_await]. unfold bind at 1, Backup.forward.
    unfold forwarded; cbn [flat_map]; fold (forwarded rest).
    destruct (chunk_content c) as [fragment|].
    + destruct (truthy (JStr fragment)).
      * unfold res_write, modify, with_res.
        cbn [proc res statusCode headers headersSent body written ended].
        rewrite IH. rewrite app_assoc. reflexivity.
      * unfold ret. cbn [app]. apply IH.
    + unfold ret. cbn [app]. apply IH.
Qed.

(** The endpoint on an askable question, by cases on whether the
    child's age converts to a string and on what the gateway streams. *)
Lemma backup_ask_run b question p :
  askable b = Some question ->
  run (Backup.ask number_repr openai_client MODEL_name create_stream status_of b) p
  = (Done tt,
     match ToString number_repr (Backup.child_age_of (Backup.body_or_empty b)) with
     | None => State p (plain [Backup.closing_note])
     | Some age =>
         let request := backup_request MODEL_name question age in
         State (logged (EvCreate openai_client request) p)
               (plain (match create_stream openai_client request Backup.temperature with
                       | StreamRejected _ => [Backup.closing_note]
                       | Stream chunks None => forwarded chunks
                       | Stream chunks (Some _) =>
                           (forwarded chunks ++ [Backup.closing_note])%list
                       end))
     end).
Proof.
  intros Hask. unfold askable in Hask.
  unfold run, Backup.ask.
  destruct (get "question" (Backup.body_or_empty b)) as [[| | |q| |]|];
    try discriminate.
  destruct (truthy (JStr q)) eqn:Hq; [|discriminate].
  inversion Hask; subst.
  unfold try_catch, bind at 1, res_writeHead, bind at 1, gets.
  cbn [proc res fresh_response headersSent].
  unfold modify, with_res. cbn [proc res].
  unfold bind at 1, Backup.user_prompt, bind at 1, to_string.
  destruct (ToString number_repr (Backup.child_age_of (Backup.body_or_empty b)))
    as [age|]; [|reflexivity].
  unfold ret at 1. unfold ret at 1.
  change (Backup.ask_request MODEL_name
            ("QUESTION: " ++ question ++ newline ++ "CHILD_AGE: " ++ age))
    with (backup_request MODEL_name question age).
  cbv zeta.
  unfold bind at 1, Backup.chat_stream, bind at 1, emit, modify, with_proc.
  cbn [proc res].
  destruct (create_stream openai_client (backup_request MODEL_name question age)
                          Backup.temperature)
    as [reason | chunks failure].
  - reflexivity.
  - unfold ret at 1. cbn [fst snd].
    unfold bind at 1. cbn [statusCode headers body written ended fresh_response app].
    rewrite backup_for_await_run. destruct failure; reflexivity.
Qed.

End Facts.

End BackupFacts.

Module BackupAsk.
Import JS Zod Runtime Server Endpoint Expected Further HandleFacts HandlerFacts BackupFacts.

(** X16: [/api/ask] of [server.backup.js] lets a question through only
    if it is a non-empty string: a missing question, an empty one, or
    one that is a number, an object or [null] is answered 400 "question
    is required" before any header of the stream is written and without
    calling the gateway. *)
Theorem backup_ask_requires_string
        number_repr openai_client MODEL_name create_stream status_of b p :
  askable b = None ->
  run (Backup.ask number_repr openai_client MODEL_name create_stream status_of b) p
  = (Done tt, State p (refusal "question is required")).
Proof.
  unfold askable, run, Backup.ask. intros H.
  destruct (get "question" (Backup.body_or_empty b)) as [[| | |q| |]|];
    try reflexivity.
  destruct (truthy (JStr q)); [discriminate | reflexivity].
Qed.

Lemma backup_ask_requires_string_witness :
  let b := JObj [("question", JNum (42 # 1))] in
  let p := start Stub.configured in
  askable b = None
  /\ run (Backup.ask Stub.number_repr (Client "sk-test" 0) "gpt-4o-mini"
                     (fun _ _ _ => Stream [[Some "Hel"]] None) (fun _ => JNull) b) p
     = (Done tt, State p (refusal "question is required")).
Proof.
  split; [reflexivity|].
  apply (@backup_ask_requires_string Stub.number_repr (Client "sk-test" 0) "gpt-4o-mini"
           (fun _ _ _ => Stream [[Some "Hel"]] None) (fun _ => JNull)
           (JObj [("question", JNum (42 # 1))]) (start Stub.configured)).
  reflexivity.
Defined.

(** X17: on a stream that ends normally, [/api/ask] of
    [server.backup.js] writes the non-empty contents of the first
    choices as they are, in order, without framing and without a
    terminal marker, and ends the response.  The gateway is called once;
    the user message is the question and the child's age on two lines,
    the age being converted to a string (this is for a payload whose age
    converts), and being "8-12" when the payload has none. *)
Theorem backup_ask_relays_plain_text
        number_repr openai_client MODEL_name create_stream status_of
        b question age p chunks :
  askable b = Some question ->
  ToString number_repr (Backup.child_age_of (Backup.body_or_empty b)) = Some age ->
  (forall r, create_stream openai_client r Backup.temperature = Stream chunks None) ->
  let h := Backup.ask number_repr openai_client MODEL_name create_stream status_of b in
  reply_of h p = plain (forwarded chunks)
  /\ gateway_calls (trace (after h p))
     = (gateway_calls (trace p)
        ++ [ Request MODEL_name
                     [ Message "system" (JStr Backup.system_prompt);
                       Message "user"
                               (JStr ("QUESTION: " ++ question ++ newline
                                      ++ "CHILD_AGE: " ++ age)) ]
                     None true ])%list
  /\ (get "child_age" (Backup.body_or_empty b) = None -> age = "8-12").
Proof.
  intros Hask Hage Hstream h. unfold reply_of, after, h.
  rewrite (backup_ask_run number_repr openai_client MODEL_name create_stream status_of
                          b p Hask).
  rewrite Hage. cbv zeta. rewrite Hstream. cbn [snd res proc]. unfold logged; cbn [trace].
  split; [reflexivity|]. split.
  - rewrite gateway_calls_app. reflexivity.
  - intros Hnone. unfold Backup.child_age_of in Hage. rewrite Hnone in Hage.
    inversion Hage. reflexivity.
Qed.

Lemma backup_ask_relays_plain_text_witness :
  let b := JObj [("question", JStr "Why is the sky blue?")] in
  let p := start Stub.configured in
  let chunks := [ [Some "Hel"]; [None]; [Some "lo"] ] in
  let h := Backup.ask Stub.number_repr (Client "sk-test" 0) "gpt-4o-mini"
                      (fun _ _ _ => Stream chunks None) (fun _ => JNull) b in
  askable b = Some "Why is the sky blue?"
  /\ ToString Stub.number_repr (Backup.child_age_of (Backup.body_or_empty b)) = Some "8-12"
  /\ reply_of h p = plain ["Hel"; "lo"]
  /\ gateway_calls (trace (after h p))
     = (gateway_calls (trace p)
        ++ [ Request "gpt-4o-mini"
                     [ Message "system" (JStr Backup.system_prompt);
                       Message "user"
                               (JStr ("QUESTION: " ++ "Why is the sky blue?" ++ newline
                                      ++ "CHILD_AGE: " ++ "8-12")) ]
                     None true ])%list
  /\ (get "child_age" (Backup.body_or_empty b) = None -> "8-12" = "8-12").
Proof.
  split; [reflexivity|]. split; [reflexivity|].
  apply (@backup_ask_relays_plain_text Stub.number_repr (Client "sk-test" 0) "gpt-4o-mini"
           (fun _ _ _ => Stream [ [Some "Hel"]; [None]; [Some "lo"] ] None)
           (fun _ => JNull)
           (JObj [("question", JStr "Why is the sky blue?")])
           "Why is the sky blue?" "8-12" (start Stub.configured)
           [ [Some "Hel"]; [None]; [Some "lo"] ]);
    [reflexivity | reflexivity | intros r; reflexivity].
Defined.

(** X18: in [server.backup.js] the headers of the stream are written
    before the user message is composed and the gateway is called, so a
    failure from then on never becomes the 500 "ask_failed" answer: the
    response keeps status 200 and is ended with the note
    "[stream closed due to error]" on a line of its own.  When the
    child's age cannot be converted to a string, the note is all that
    is written and the gateway is not called; when the gateway refuses
    the call or the stream breaks off, the note follows what was
    relayed. *)
Theorem backup_ask_failure_keeps_status_200
        number_repr openai_client MODEL_name create_stream status_of b question p :
  askable b = Some question ->
  let h := Backup.ask number_repr openai_client MODEL_name create_stream status_of b in
  match ToString number_repr (Backup.child_age_of (Backup.body_or_empty b)) with
  | Some age =>
      forall chunks,
        interrupted (create_stream openai_client (backup_request MODEL_name question age)
                                   Backup.temperature) = Some chunks ->
        reply_of h p
        = Response 200
                   [ ("Content-Type", "text/event-stream; charset=utf-8");
                     ("Cache-Control", "no-cache, no-transform");
                     ("Connection", "keep-alive") ]
                   true None
                   (forwarded chunks ++ [newline ++ "[stream closed due to error]"]) true
        /\ fst (run h p) = Done tt
        /\ gateway_calls (trace (after h p))
           = (gateway_calls (trace p) ++ [backup_request MODEL_name question age])%list
  | None =>
      reply_of h p
      = Response 200
                 [ ("Content-Type", "text/event-stream; charset=utf-8");
                   ("Cache-Control", "no-cache, no-transform");
                   ("Connection", "keep-alive") ]
                 true None [newline ++ "[stream closed due to error]"] true
      /\ fst (run h p) = Done tt
      /\ gateway_calls (trace (after h p)) = gateway_calls (trace p)
  end.
Proof.
  intros Hask h. unfold reply_of, after, h.
  rewrite (backup_ask_run number_repr openai_client MODEL_name create_stream status_of
                          b p Hask).
  destruct (ToString number_repr (Backup.child_age_of (Backup.body_or_empty b)))
    as [age|].
  - intros chunks Hbroken. cbv zeta. cbn [fst snd res proc].
    unfold logged; cbn [trace]. rewrite gateway_calls_app.
    destruct (create_stream openai_client _ Backup.temperature)
      as [reason | received [reason|]]; simpl in Hbroken; inversion Hbroken; subst;
      repeat split; reflexivity.
  - cbn [fst snd res proc]. repeat split; reflexivity.
Qed.

Lemma backup_ask_failure_keeps_status_200_witness :
  let p := start Stub.configured in
  let refused := Backup.ask Stub.number_repr (Client "sk-test" 0) "gpt-4o-mini"
                            (fun _ _ _ => StreamRejected "401") (fun _ => JNull)
                            (JObj [("question", JStr "Why is the sky blue?")]) in
  let odd := Backup.ask Stub.number_repr (Client "sk-test" 0) "gpt-4o-mini"
                        (fun _ _ _ => Stream [[Some "Hel"]] None) (fun _ => JNull)
                        (JObj [ ("question", JStr "Why is the sky blue?");
                                ("child_age", JObj [("toString", JNum (1 # 1))]) ]) in
  (reply_of refused p = plain [newline ++ "[stream closed due to error]"]
   /\ fst (run refused p) = Done tt
   /\ List.length (gateway_calls (trace (after refused p))) = 1%nat)
  /\ (reply_of odd p = plain [newline ++ "[stream closed due to error]"]
      /\ fst (run odd p) = Done tt
      /\ gateway_calls (trace (after odd p)) = []).
Proof.
  split.
  - destruct (@backup_ask_failure_keeps_status_200 Stub.number_repr (Client "sk-test" 0)
                "gpt-4o-mini" (fun _ _ _ => StreamRejected "401") (fun _ => JNull)
                (JObj [("question", JStr "Why is the sky blue?")])
                "Why is the sky blue?" (start Stub.configured) eq_refl [] eq_refl)
      as (H1 & H2 & H3).
    split; [exact H1|]. split; [exact H2|]. rewrite H3. reflexivity.
  - exact (@backup_ask_failure_keeps_status_200 Stub.number_repr (Client "sk-test" 0)
             "gpt-4o-mini" (fun _ _ _ => Stream [[Some "Hel"]] None) (fun _ => JNull)
             (JObj [ ("question", JStr "Why is the sky blue?");
                     ("child_age", JObj [("toString", JNum (1 # 1))]) ])
             "Why is the sky blue?" (start Stub.configured) eq_refl).
Defined.

End BackupAsk.
